(** * OrnithoCount: the session / sighting core and its derived views

    A shallow embedding of the data handlers of the session view
    ([getCountForSpecies], [filteredAndSortedSpecies], [handleStartEdit],
    [handleSaveEdit], [handleToggleFinish], [addSighting],
    [handleSimpleIncrement], [handleRecordDelete], [renderReportUI]) and of
    the application shell ([handleStartSession], [handleFileImport]).

    Conventions of the embedding.
    - A JavaScript [number] that holds a count is a double of integer
      value (the controls produce counts by [parseInt] and by adding and
      subtracting 1) and is kept as the integer of [Z] it denotes.  Where a
      handler adds or subtracts counts, [JS.add] and [JS.sub] round the
      exact result to the nearest double, ties to even, as IEEE 754 does.
      [Infinity] (a result of magnitude 2^1024 or more) and [NaN] are
      outside the embedding.  Clock readings and the time values of dates
      stay below 2^53, where the arithmetic of doubles is exact.
      Coordinates are only copied and are kept as rationals.
    - A sighting's [timestamp] is kept as its time value (milliseconds since
      the epoch), of which the ISO-8601 string is the canonical rendering.
    - A handler is a function from the values it closes over (the [session]
      prop, component state) and from the answers of the environment (clock,
      random generator, [confirm] dialog) to the list of effects it performs:
      calls of [onUpdateSession] and [alert]s.
    - Library functions whose result depends on the locale or on Unicode
      tables ([toLowerCase], [localeCompare], the printing of a fractional
      number) are section variables. *)

From Stdlib Require Import ZArith QArith List String Ascii Bool Lia.
From Stdlib Require Import Permutation Sorted DecimalString OrdersEx.
From stdpp Require Import base gmap strings list.

Set Warnings "-register-all".
Close Scope Q_scope.
Open Scope string_scope.
Open Scope Z_scope.
Import ListNotations.

(** ** Fragments of the JavaScript runtime *)

Module JS.

(** [ToBoolean] on a string. *)
Definition truthy_string (s : string) : bool := negb (s =? "")%string.

(** *** Numbers: doubles of integer value *)

(** The spacing of the doubles around a non-negative integer [a]: 1 below
    2^53, and 2^(e-52) for 2^e <= a < 2^(e+1) from there on. *)
Definition ulp (a : Z) : Z := 2 ^ Z.max 0 (Z.log2 a - 52).

(** The double nearest to a non-negative integer, ties to the even
    significand. *)
Definition nearest (a : Z) : Z :=
  let u := ulp a in
  let q := a / u in
  let r := a mod u in
  if (u <? 2 * r) || ((2 * r =? u) && Z.odd q) then u * (q + 1) else u * q.

(** The double nearest to an integer. *)
Definition double (z : Z) : Z := Z.sgn z * nearest (Z.abs z).

(** [a + b] and [a - b] on numbers. *)
Definition add (a b : Z) : Z := double (a + b).
Definition sub (a b : Z) : Z := double (a - b).

(** [Number.prototype.toString] on an integer. *)
Definition toString (z : Z) : string := NilZero.string_of_int (Z.to_int z).

(** [String.prototype.slice(from, to)] for [0 <= from <= to]. *)
Definition slice (from to : nat) (s : string) : string :=
  String.substring from (to - from) s.

(** [hay.includes(needle)]. *)
Fixpoint includes (hay needle : string) : bool :=
  String.prefix needle hay ||
  match hay with
  | EmptyString => false
  | String _ rest => includes rest needle
  end.

(** [String.prototype.split(sep)] on a one-character separator. *)
Fixpoint split (sep : ascii) (s : string) : list string :=
  match s with
  | EmptyString => [EmptyString]
  | String c rest =>
      if Ascii.eqb c sep then EmptyString :: split sep rest
      else match split sep rest with
           | [] => [String c EmptyString]
           | w :: ws => String c w :: ws
           end
  end.

Definition digit (c : ascii) : option N :=
  let n := N_of_ascii c in
  if (48 <=? n)%N && (n <=? 57)%N then Some (n - 48)%N else None.

Fixpoint digits_value (acc : N) (s : string) : option N :=
  match s with
  | EmptyString => Some acc
  | String c rest =>
      match digit c with
      | Some d => digits_value (10 * acc + d)%N rest
      | None => None
      end
  end.

(** [Number(s)] on the strings a time control can hold: a run of decimal
    digits is its value and the empty string is 0.  [None] is NaN.  Signs,
    fractions, exponents, radix prefixes and surrounding blanks, which a
    time control never produces, are outside this model and read as NaN. *)
Definition Number (s : string) : option Z :=
  option_map Z.of_N (digits_value 0 s).

(** [n.toString().padStart(2, '0')] for a non-negative integer. *)
Definition padStart2 (n : Z) : string :=
  let s := toString n in
  if (String.length s <? 2)%nat then ("0" ++ s)%string else s.

(** [Array.prototype.sort(cmp)].  The sort is stable; [cmp a b > 0] asks
    for [b] before [a].  For a comparator that is consistent on the
    elements of the array the stable sorted arrangement is unique, so this
    insertion sort returns what every conforming engine returns. *)
Fixpoint insert {A : Type} (cmp : A -> A -> Z) (x : A) (l : list A) : list A :=
  match l with
  | [] => [x]
  | y :: l' => if 0 <? cmp x y then y :: insert cmp x l' else x :: l
  end.

Definition sort {A : Type} (cmp : A -> A -> Z) (l : list A) : list A :=
  fold_right (insert cmp) [] l.

(** An array index: the canonical decimal string of an integer in
    [0, 2^32 - 2]. *)
Definition array_index (k : string) : option N :=
  match k with
  | EmptyString => None
  | String c rest =>
      if Ascii.eqb c "0" && negb (rest =? "")%string then None
      else match digits_value 0 k with
           | Some n => if (n <=? 4294967294)%N then Some n else None
           | None => None
           end
  end.

Definition is_array_index (k : string) : bool :=
  match array_index k with Some _ => true | None => false end.

(** The own properties of an ordinary object, in creation order. *)
Definition object (V : Type) : Type := list (string * V).

Fixpoint get {V : Type} (k : string) (o : object V) : option V :=
  match o with
  | [] => None
  | (k', v) :: rest => if (k' =? k)%string then Some v else get k rest
  end.

Fixpoint set {V : Type} (k : string) (v : V) (o : object V) : object V :=
  match o with
  | [] => [(k, v)]
  | (k', v') :: rest =>
      if (k' =? k)%string then (k, v) :: rest else (k', v') :: set k v rest
  end.

Definition index_of_key {V : Type} (p : string * V) : Z :=
  match array_index (fst p) with Some n => Z.of_N n | None => 0 end.

(** [Object.entries(o)]: array-index keys in ascending numeric order, then
    the other string keys in creation order. *)
Definition Object_entries {V : Type} (o : object V) : list (string * V) :=
  sort (fun a b => index_of_key a - index_of_key b)
       (List.filter (fun p => is_array_index (fst p)) o)
  ++ List.filter (fun p => negb (is_array_index (fst p))) o.

(** Names that every object literal inherits from [Object.prototype]:
    reading one of them on [{}] yields a function or an object, not
    [undefined]. *)
Definition Object_prototype_keys : list string :=
  [ "constructor"; "__defineGetter__"; "__defineSetter__"; "hasOwnProperty";
    "__lookupGetter__"; "__lookupSetter__"; "isPrototypeOf";
    "propertyIsEnumerable"; "toString"; "valueOf"; "__proto__";
    "toLocaleString" ].

Definition inherited (k : string) : bool :=
  existsb (String.eqb k) Object_prototype_keys.

(** Values that [JSON.parse] can return. *)
Inductive value : Type :=
| VNull
| VBool (b : bool)
| VNumber (q : Q)
| VString (s : string)
| VArray (items : list value)
| VObject (props : list (string * value)).

(** [ToBoolean] on the result of a property read ([None] is [undefined]). *)
Definition truthy (v : option value) : bool :=
  match v with
  | None => false
  | Some VNull => false
  | Some (VBool b) => b
  | Some (VNumber q) => negb (Qeq_bool q 0)
  | Some (VString s) => truthy_string s
  | Some (VArray _) => true
  | Some (VObject _) => true
  end.

(** [v[k]] for [k] one of [id], [sightings], [name] and [v] not [null]:
    only an object can own such a property, and neither the wrappers of
    primitives nor [Object.prototype] and [Array.prototype] define one. *)
Definition prop (k : string) (v : value) : option value :=
  match v with
  | VObject ps => get k ps
  | _ => None
  end.

Fixpoint chars_from (i : Z) (s : string) : list (string * value) :=
  match s with
  | EmptyString => []
  | String c rest =>
      (toString i, VString (String c EmptyString)) :: chars_from (i + 1) rest
  end.

Fixpoint items_from (i : Z) (l : list value) : list (string * value) :=
  match l with
  | [] => []
  | x :: rest => (toString i, x) :: items_from (i + 1) rest
  end.

(** The properties copied by an object spread [{...v}], in the order the
    copy creates them. *)
Definition spread (v : value) : list (string * value) :=
  match v with
  | VObject ps => Object_entries ps
  | VArray l => items_from 0 l
  | VString s => chars_from 0 s
  | _ => []
  end.

Section ToString.
(** [Number.prototype.toString] on an arbitrary number. *)
Variable number_toString : Q -> string.

Fixpoint join (l : list string) : string :=
  match l with
  | [] => ""
  | [x] => x
  | x :: rest => (x ++ "," ++ join rest)%string
  end.

(** The string that [v + ' ...'] puts in place of [v]: [ToPrimitive]
    followed by [ToString].  [None] is a [TypeError].  An object is
    asked for [valueOf] and then for [toString]: the inherited
    [valueOf] returns the object itself, and [Object.prototype.toString]
    prints [[object Object]]; but a document that owns a property
    [toString] hides the inherited method behind a value that is not
    callable, and no primitive value is left.  An array prints its
    elements separated by commas, [null] as the empty string. *)
Fixpoint value_toString (v : value) : option string :=
  match v with
  | VNull => Some "null"
  | VBool true => Some "true"
  | VBool false => Some "false"
  | VNumber q => Some (number_toString q)
  | VString s => Some s
  | VArray l =>
      option_map join
        ((fix elements (l : list value) : option (list string) :=
            match l with
            | [] => Some []
            | x :: rest =>
                match match x with
                      | VNull => Some ""
                      | _ => value_toString x
                      end with
                | Some s =>
                    match elements rest with
                    | Some ss => Some (s :: ss)
                    | None => None
                    end
                | None => None
                end
            end) l)
  | VObject props =>
      match get "toString" props with
      | Some _ => None
      | None => Some "[object Object]"
      end
  end.

(** The same on the result of a property read ([None] is
    [undefined]). *)
Definition ToString (v : option value) : option string :=
  match v with
  | None => Some "undefined"
  | Some x => value_toString x
  end.
End ToString.

(** *** Dates: time values in milliseconds *)

Definition msPerMinute : Z := 60000.
Definition msPerHour : Z := 3600000.
Definition msPerDay : Z := 86400000.

Definition Day (t : Z) : Z := t / msPerDay.
Definition HourFromTime (t : Z) : Z := (t / msPerHour) mod 24.
Definition MinFromTime (t : Z) : Z := (t / msPerMinute) mod 60.
Definition SecFromTime (t : Z) : Z := (t / 1000) mod 60.
Definition msFromTime (t : Z) : Z := t mod 1000.

Definition MakeTime (h m s ms : Z) : Z :=
  h * msPerHour + m * msPerMinute + s * 1000 + ms.
Definition MakeDate (day time : Z) : Z := day * msPerDay + time.

(** A time value outside +-8.64e15 is not a date ([None]). *)
Definition TimeClip (t : Z) : option Z :=
  if Z.abs t <=? 8640000000000000 then Some t else None.

Section LocalTime.
(** [LocalTZA(t, isUTC)] of the host: the offset of local time from
    UTC, in milliseconds.  With [isUTC] it is the offset in force at
    the instant [t]; without, [t] is a local time value and the offset
    is the one under which that local time is read: the earlier one for
    a local time that a clock change repeats, the one before the change
    for a local time that it skips. *)
Variable LocalTZA : Z -> bool -> Z.

Definition LocalTime (t : Z) : Z := t + LocalTZA t true.
Definition UTC (t : Z) : Z := t - LocalTZA t false.

Definition getHours (t : Z) : Z := HourFromTime (LocalTime t).
Definition getMinutes (t : Z) : Z := MinFromTime (LocalTime t).

(** [d.setHours(h)] and [d.setMinutes(m)] on a valid date. *)
Definition setHours (t h : Z) : option Z :=
  let lt := LocalTime t in
  TimeClip (UTC (MakeDate (Day lt)
    (MakeTime h (MinFromTime lt) (SecFromTime lt) (msFromTime lt)))).

Definition setMinutes (t m : Z) : option Z :=
  let lt := LocalTime t in
  TimeClip (UTC (MakeDate (Day lt)
    (MakeTime (HourFromTime lt) m (SecFromTime lt) (msFromTime lt)))).
End LocalTime.

End JS.

(** ** The data model ([types]) *)

Module Species.
Record t : Type := mk {
  id : string;
  name : string;
  abbreviation : string;
  family : option string
}.
End Species.

Module Sighting.
Record t : Type := mk {
  id : string;
  speciesId : string;
  timestamp : Z;
  count : Z;
  latitude : option Q;
  longitude : option Q;
  direction : option string;
  age : option string;
  sex : option string;
  morph : option string;
  distance : option string;
  status : option string;
  countType : option string;
  comment : option string
}.

(** [{ ...s, timestamp: ts }] and the updates of the edit form. *)
Definition with_timestamp (s : t) (ts : Z) : t :=
  mk (id s) (speciesId s) ts (count s) (latitude s) (longitude s)
     (direction s) (age s) (sex s) (morph s) (distance s) (status s)
     (countType s) (comment s).
Definition with_count (s : t) (c : Z) : t :=
  mk (id s) (speciesId s) (timestamp s) c (latitude s) (longitude s)
     (direction s) (age s) (sex s) (morph s) (distance s) (status s)
     (countType s) (comment s).
Definition with_direction (s : t) (d : string) : t :=
  mk (id s) (speciesId s) (timestamp s) (count s) (latitude s) (longitude s)
     (Some d) (age s) (sex s) (morph s) (distance s) (status s)
     (countType s) (comment s).
Definition with_age (s : t) (a : string) : t :=
  mk (id s) (speciesId s) (timestamp s) (count s) (latitude s) (longitude s)
     (direction s) (Some a) (sex s) (morph s) (distance s) (status s)
     (countType s) (comment s).
Definition with_sex (s : t) (x : string) : t :=
  mk (id s) (speciesId s) (timestamp s) (count s) (latitude s) (longitude s)
     (direction s) (age s) (Some x) (morph s) (distance s) (status s)
     (countType s) (comment s).
Definition with_morph (s : t) (m : string) : t :=
  mk (id s) (speciesId s) (timestamp s) (count s) (latitude s) (longitude s)
     (direction s) (age s) (sex s) (Some m) (distance s) (status s)
     (countType s) (comment s).
Definition with_distance (s : t) (d : string) : t :=
  mk (id s) (speciesId s) (timestamp s) (count s) (latitude s) (longitude s)
     (direction s) (age s) (sex s) (morph s) (Some d) (status s)
     (countType s) (comment s).
Definition with_comment (s : t) (c : string) : t :=
  mk (id s) (speciesId s) (timestamp s) (count s) (latitude s) (longitude s)
     (direction s) (age s) (sex s) (morph s) (distance s) (status s)
     (countType s) (Some c).
End Sighting.

(** [Partial<Sighting> & { speciesId: string, count: number }]: the argument
    of [addSighting].  A field that is [None] is absent from the object. *)
Module Partial.
Record t : Type := mk {
  id : option string;
  speciesId : string;
  timestamp : option Z;
  count : Z;
  latitude : option Q;
  longitude : option Q;
  direction : option string;
  age : option string;
  sex : option string;
  morph : option string;
  distance : option string;
  status : option string;
  countType : option string;
  comment : option string
}.

(** [{ speciesId, count: amount }] *)
Definition simple (speciesId : string) (amount : Z) : t :=
  mk None speciesId None amount None None None None None None None None
     None None.
End Partial.

Inductive SessionType : Type := trip | counting.
Inductive SessionStatus : Type := active | completed.
Inductive SyncStatus : Type := unsynced | synced | error.

Record WeatherInfo : Type := mkWeather {
  temperature : string;
  cloudCover : string;
  windSpeed : string;
  precipitation : string
}.

Module Session.
Record t : Type := mk {
  id : string;
  type : SessionType;
  name : string;
  date : string;
  startTime : string;
  endTime : option string;
  observers : string;
  notes : option string;
  latitude : option Q;
  longitude : option Q;
  weather : option WeatherInfo;
  sightings : list Sighting.t;
  status : SessionStatus;
  syncStatus : SyncStatus;
  remoteId : option string
}.

(** [{ ...session, sightings: l }] *)
Definition with_sightings (s : t) (l : list Sighting.t) : t :=
  mk (id s) (type s) (name s) (date s) (startTime s) (endTime s)
     (observers s) (notes s) (latitude s) (longitude s) (weather s) l
     (status s) (syncStatus s) (remoteId s).

(** [{ ...session, status: st }] *)
Definition with_status (s : t) (st : SessionStatus) : t :=
  mk (id s) (type s) (name s) (date s) (startTime s) (endTime s)
     (observers s) (notes s) (latitude s) (longitude s) (weather s)
     (sightings s) st (syncStatus s) (remoteId s).

(** [{ ...session, status: st, endTime: e }] *)
Definition with_status_endTime (s : t) (st : SessionStatus) (e : string) : t :=
  mk (id s) (type s) (name s) (date s) (startTime s) (Some e)
     (observers s) (notes s) (latitude s) (longitude s) (weather s)
     (sightings s) st (syncStatus s) (remoteId s).
End Session.

(** ** The session view *)

(** What a handler does to the outside. *)
Inductive Effect : Type :=
| onUpdateSession (s : Session.t)
| alert (msg : string).

(** What the environment answers during one handler call. *)
Record Env : Type := mkEnv {
  new_Date : Z;                 (* the time value of [new Date()] *)
  Date_now : Z;                 (* [Date.now()] *)
  Math_random : string;         (* [Math.random().toString()] *)
  confirm : bool;               (* the answer to the [confirm] dialog *)
  toLocaleTimeString : string   (* [new Date().toLocaleTimeString(...)] *)
}.

Definition isCompleted (session : Session.t) : bool :=
  match Session.status session with completed => true | active => false end.

Definition getCountForSpecies (session : Session.t) (id : string) : Z :=
  fold_left (fun acc curr => JS.add acc (Sighting.count curr))
    (List.filter (fun s => (Sighting.speciesId s =? id)%string)
       (Session.sightings session))
    0.

Definition handleToggleFinish (session : Session.t) (env : Env) : list Effect :=
  if confirm env then
    let now := toLocaleTimeString env in
    [onUpdateSession (Session.with_status_endTime session completed now)]
  else [].

(** The [onClick] of the "Resume Counting" button of the report. *)
Definition resumeCounting (session : Session.t) : list Effect :=
  [onUpdateSession (Session.with_status session active)].

Definition newSighting (session : Session.t) (env : Env) (data : Partial.t)
  : Sighting.t :=
  let now := new_Date env in
  Sighting.mk
    (default (JS.toString (Date_now env) ++ JS.slice 2 5 (Math_random env))%string
             (Partial.id data))
    (Partial.speciesId data)
    (default now (Partial.timestamp data))
    (Partial.count data)
    (match Partial.latitude data with
     | Some q => Some q
     | None => Session.latitude session
     end)
    (match Partial.longitude data with
     | Some q => Some q
     | None => Session.longitude session
     end)
    (Partial.direction data) (Partial.age data) (Partial.sex data)
    (Partial.morph data) (Partial.distance data) (Partial.status data)
    (Partial.countType data) (Partial.comment data).

Definition addSighting (session : Session.t) (env : Env) (data : Partial.t)
  : list Effect :=
  if isCompleted session then
    [alert "Session is finished. Re-open to add counts."]
  else
    [onUpdateSession
       (Session.with_sightings session
          (Session.sightings session ++ [newSighting session env data]))].

Definition handleSimpleIncrement (session : Session.t) (env : Env)
    (speciesId : string) (amount : Z) : list Effect :=
  let current := getCountForSpecies session speciesId in
  if (amount <? 0) && (current <=? 0) then []
  else addSighting session env (Partial.simple speciesId amount).

Definition handleRecordDelete (session : Session.t) (env : Env) (id : string)
  : list Effect :=
  if confirm env then
    [onUpdateSession
       (Session.with_sightings session
          (List.filter (fun s => negb (Sighting.id s =? id)%string)
             (Session.sightings session)))]
  else [].

(** The session the view shows after a handler ran: the argument of the last
    [onUpdateSession], which the shell stores under the same id. *)
Definition after (session : Session.t) (effects : list Effect) : Session.t :=
  fold_left (fun cur e => match e with
                          | onUpdateSession s => s
                          | alert _ => cur
                          end) effects session.

(** The two buttons of a species card in trip mode: [+] calls
    [handleSimpleIncrement(sp.id, 1)], [-] calls
    [handleSimpleIncrement(sp.id, -1)]. *)
Inductive TripClick : Type :=
| Plus (speciesId : string)
| Minus (speciesId : string).

Definition tripClick (session : Session.t) (c : TripClick * Env) : Session.t :=
  match c with
  | (Plus sp, env) => after session (handleSimpleIncrement session env sp 1)
  | (Minus sp, env) => after session (handleSimpleIncrement session env sp (-1))
  end.


(** *** The species grid: search filter and ordering *)

Section Listing.
(** [String.prototype.toLowerCase] and [String.prototype.localeCompare] of
    the host. *)
Variable toLowerCase : string -> string.
Variable localeCompare : string -> string -> Z.

Definition matchesSearch (searchTerm : string) (s : Species.t) : bool :=
  JS.includes (toLowerCase (Species.name s)) (toLowerCase searchTerm)
  || JS.includes (toLowerCase (Species.abbreviation s)) (toLowerCase searchTerm)
  || match Species.family s with
     | Some f =>
         JS.truthy_string f
         && JS.includes (toLowerCase f) (toLowerCase searchTerm)
     | None => false
     end.

(** The comparator handed to [sort]. *)
Definition compareSpecies (session : Session.t) (a b : Species.t) : Z :=
  let aCount := getCountForSpecies session (Species.id a) in
  let bCount := getCountForSpecies session (Species.id b) in
  if (0 <? aCount) && (bCount =? 0) then -1
  else if (0 <? bCount) && (aCount =? 0) then 1
  else localeCompare (Species.name a) (Species.name b).

(** [speciesList || []] only replaces a missing list; the catalogue is a
    list here. *)
Definition filteredAndSortedSpecies (speciesList : list Species.t)
    (searchTerm : string) (session : Session.t) : list Species.t :=
  let safeList := speciesList in
  let filtered := List.filter (matchesSearch searchTerm) safeList in
  JS.sort (compareSpecies session) filtered.
End Listing.

(** *** Editing a record *)

Record EditState : Type := mkEdit {
  editingSighting : option Sighting.t;
  editTimeStr : string
}.

(** The controls of the edit form.  [CountTyped n] carries
    [parseInt(e.target.value)], [None] for NaN. *)
Inductive FormInput : Type :=
| CountMinus
| CountPlus
| CountTyped (n : option Z)
| PickDirection (d : string)
| PickAge (a : string)
| PickSex (x : string)
| PickMorph (m : string)
| PickDistance (d : string)
| TypeComment (c : string)
| TimeTyped (v : string).

(** What a control does to the record being edited: each is a
    [setEditingSighting({ ...editingSighting, field: value })]; the time
    control writes [editTimeStr] and leaves the record alone. *)
Definition patchSighting (es : Sighting.t) (i : FormInput) : Sighting.t :=
  match i with
  | CountMinus => Sighting.with_count es (Z.max 1 (JS.sub (Sighting.count es) 1))
  | CountPlus => Sighting.with_count es (JS.add (Sighting.count es) 1)
  | CountTyped n =>
      Sighting.with_count es
        (match n with
         | Some z => if z =? 0 then 1 else z
         | None => 1
         end)
  | PickDirection d => Sighting.with_direction es d
  | PickAge a => Sighting.with_age es a
  | PickSex x => Sighting.with_sex es x
  | PickMorph m => Sighting.with_morph es m
  | PickDistance d => Sighting.with_distance es d
  | TypeComment c => Sighting.with_comment es c
  | TimeTyped _ => es
  end.

(** The form is rendered only while a record is being edited. *)
Definition formInput (st : EditState) (i : FormInput) : EditState :=
  match editingSighting st with
  | None => st
  | Some es =>
      mkEdit (Some (patchSighting es i))
             (match i with
              | TimeTyped v => v
              | _ => editTimeStr st
              end)
  end.

Section Editing.
Variable LocalTZA : Z -> bool -> Z.

Definition handleStartEdit (s : Sighting.t) : EditState :=
  let d := Sighting.timestamp s in
  let h := JS.padStart2 (JS.getHours LocalTZA d) in
  let m := JS.padStart2 (JS.getMinutes LocalTZA d) in
  mkEdit (Some s) (h ++ ":" ++ m)%string.

(** The [updatedTimestamp] of [handleSaveEdit]; [None] when [toISOString]
    throws because the date left the representable range. *)
Definition updatedTimestamp (es : Sighting.t) (timeStr : string) : option Z :=
  if JS.truthy_string timeStr then
    let parts := List.map JS.Number (JS.split ":" timeStr) in
    match nth 0 parts None, nth 1 parts None with
    | Some h, Some m =>
        match JS.setHours LocalTZA (Sighting.timestamp es) h with
        | Some d => JS.setMinutes LocalTZA d m
        | None => None
        end
    | _, _ => Some (Sighting.timestamp es)
    end
  else Some (Sighting.timestamp es).

(** Returns the component state and the effects, or [None] when the
    handler is aborted by the exception above. *)
Definition handleSaveEdit (session : Session.t) (st : EditState)
  : option (EditState * list Effect) :=
  match editingSighting st with
  | None => Some (st, [])
  | Some es =>
      match updatedTimestamp es (editTimeStr st) with
      | None => None
      | Some ts =>
          Some (mkEdit None (editTimeStr st),
                [onUpdateSession
                   (Session.with_sightings session
                      (List.map
                         (fun s => if (Sighting.id s =? Sighting.id es)%string
                                   then Sighting.with_timestamp es ts
                                   else s)
                         (Session.sightings session)))])
      end
  end.
End Editing.

(** *** The report *)

Module ReportRow.
Record t : Type := mk { name : string; count : Z; id : string }.
End ReportRow.

Record Report : Type := mkReport {
  totalBirds : Z;
  uniqueSpecies : nat;
  sortedSpecies : list ReportRow.t
}.

(** One round of the [forEach] that fills [speciesCounts].  A species id that
    names a member of [Object.prototype] reads that member instead of
    [undefined], so [|| 0] does not apply and the tally is no longer a
    number: [None]. *)
Definition tally (acc : option (JS.object Z)) (s : Sighting.t)
  : option (JS.object Z) :=
  match acc with
  | None => None
  | Some o =>
      let k := Sighting.speciesId s in
      match JS.get k o with
      | Some v =>
          Some (JS.set k (JS.add (if v =? 0 then 0 else v) (Sighting.count s)) o)
      | None =>
          if JS.inherited k then None
          else Some (JS.set k (JS.add 0 (Sighting.count s)) o)
      end
  end.

Definition speciesCounts (sightings : list Sighting.t) : option (JS.object Z) :=
  fold_left tally sightings (Some []).

Definition speciesLabel (speciesList : list Species.t) (id : string) : string :=
  match List.find (fun s => (Species.id s =? id)%string) speciesList with
  | Some sp =>
      if JS.truthy_string (Species.name sp) then Species.name sp else "Unknown"
  | None => "Unknown"
  end.

(** The three values computed at the head of [renderReportUI]. *)
Definition renderReportUI (session : Session.t) (speciesList : list Species.t)
  : option Report :=
  let totalBirds :=
    fold_left (fun acc s => JS.add acc (Sighting.count s))
      (Session.sightings session) 0 in
  let uniqueSpecies :=
    size (list_to_set (List.map Sighting.speciesId (Session.sightings session))
          : gset string) in
  match speciesCounts (Session.sightings session) with
  | None => None
  | Some counts =>
      let sortedSpecies :=
        List.map (fun e => ReportRow.mk (speciesLabel speciesList (fst e))
                             (snd e) (fst e))
          (JS.sort (fun a b => JS.sub (snd b) (snd a))
             (JS.Object_entries counts)) in
      Some (mkReport totalBirds uniqueSpecies sortedSpecies)
  end.

(** ** The application shell *)

(** The slice of the shell's state the two handlers below write.  A stored
    session is kept as the document it is persisted as. *)
Record AppState : Type := mkApp {
  sessions : list JS.value;
  locationHistory : list string
}.

(** [handleStartSession]: [name] is [newSessionData.name] and [newSession]
    the record built from the form. *)
Definition handleStartSession (name : string) (newSession : JS.value)
    (st : AppState) : AppState :=
  mkApp (newSession :: sessions st)
    (if JS.truthy_string name
        && negb (existsb (String.eqb name) (locationHistory st))
     then firstn 10 (name :: locationHistory st)
     else locationHistory st).

Section FileImport.
Variable number_toString : Q -> string.

(** The [onload] callback of [handleFileImport].  [parsed] is the outcome
    of [JSON.parse] on the file's text, [None] when it throws; [now] is
    [Date.now()]; [st] is the state the handler closed over.  Returns the
    state and the message of the [alert].  Reading a property of [null]
    and converting a name that has no primitive value throw a
    [TypeError], which the [catch] reports like a text that does not
    parse. *)
Definition handleFileImport (parsed : option JS.value) (now : Z)
    (st : AppState) : AppState * string :=
  match parsed with
  | None => (st, "Failed to parse file.")
  | Some JS.VNull => (st, "Failed to parse file.")
  | Some json =>
      if JS.truthy (JS.prop "id" json) && JS.truthy (JS.prop "sightings" json)
      then
        match JS.ToString number_toString (JS.prop "name" json) with
        | Some name =>
            let importedSession :=
              JS.VObject
                (JS.set "name" (JS.VString (name ++ " (Imported)")%string)
                   (JS.set "id" (JS.VString (JS.toString now))
                      (JS.spread json)))
            in
            (mkApp (importedSession :: sessions st) (locationHistory st),
             "Session imported successfully!")
        | None => (st, "Failed to parse file.")
        end
      else (st, "Invalid file format.")
  end.
End FileImport.

(** ** Vocabulary of the statements *)



(** Two sessions that agree on everything but [status] and [endTime]. *)
Definition same_data (a b : Session.t) : Prop :=
  Session.id a = Session.id b
  /\ Session.type a = Session.type b
  /\ Session.name a = Session.name b
  /\ Session.date a = Session.date b
  /\ Session.startTime a = Session.startTime b
  /\ Session.observers a = Session.observers b
  /\ Session.notes a = Session.notes b
  /\ Session.latitude a = Session.latitude b
  /\ Session.longitude a = Session.longitude b
  /\ Session.weather a = Session.weather b
  /\ Session.sightings a = Session.sightings b
  /\ Session.syncStatus a = Session.syncStatus b
  /\ Session.remoteId a = Session.remoteId b.


(** ** Sample data *)

(** A session as [handleStartSession] creates it. *)
Definition fresh_session : Session.t :=
  Session.mk "1700000000000" trip "Anzali Lagoon" "2025-03-01" "07:30" None
    "Self" (Some "") None None (Some (mkWeather "" "" "" "")) [] active
    unsynced None.

Definition env_yes : Env := mkEnv 1700000000500 1700000000500 "0.1234567" true "09:15".

Definition plain_sighting (id speciesId : string) (count : Z) : Sighting.t :=
  Sighting.mk id speciesId 1700000000200 count None None None None None None
    None None None None.

(** An active session that already holds a sighting whose id is the one the
    clock and the random generator of [env_yes] produce. *)
Definition clash_session : Session.t :=
  Session.with_sightings fresh_session
    [plain_sighting "1700000000500123" "189" 2].





(** The session after a run of trip-mode clicks. *)
Definition tripClicks (session : Session.t) (clicks : list (TripClick * Env))
  : Session.t :=
  fold_left tripClick clicks session.

(** The shell's state when the application starts. *)
Definition initialApp : AppState := mkApp [] [].

(** A run of session creations; each call carries the location name typed
    in the form and the session record built from it. *)
Definition startSessions (calls : list (string * JS.value)) (st : AppState)
  : AppState :=
  fold_left (fun cur c => handleStartSession (fst c) (snd c) cur) calls st.

(** The last non-empty location name used by a run of creations. *)
Definition lastUsedName (calls : list (string * JS.value)) : option string :=
  List.find JS.truthy_string (rev (List.map fst calls)).

Definition blank_session : JS.value := JS.VObject [].

Definition sample_creations : list (string * JS.value) :=
  [ ("Anzali Lagoon", blank_session);
    ("Miankaleh", blank_session);
    ("Anzali Lagoon", blank_session) ].

(** A printer that is right on the integers, for the sample data. *)
Definition print_integral (q : Q) : string :=
  JS.toString (Qnum q / Z.pos (Qden q)).

(** The top-level keys of a document are pairwise distinct, as [JSON.parse]
    guarantees. *)
Definition distinct_keys (v : JS.value) : Prop :=
  match v with
  | JS.VObject props => List.NoDup (List.map fst props)
  | _ => True
  end.

Definition exported_document : JS.value :=
  JS.VObject
    [ ("id", JS.VString "1690000000000");
      ("name", JS.VString "Anzali Lagoon");
      ("status", JS.VString "completed");
      ("sightings", JS.VArray []) ].

Definition document_without_sightings : JS.value :=
  JS.VObject
    [ ("id", JS.VString "1690000000000");
      ("name", JS.VString "Anzali Lagoon") ].

Definition sample_app : AppState :=
  mkApp [document_without_sightings] ["Anzali Lagoon"].

(** *** Editing *)

(** The calendar day of a time value in local time. *)
Definition localDay (LocalTZA : Z -> bool -> Z) (t : Z) : Z :=
  JS.Day (JS.LocalTime LocalTZA t).

(** The value a time control holds for [h]:[m]. *)
Definition timeControl (h m : Z) : string :=
  (JS.padStart2 h ++ ":" ++ JS.padStart2 m)%string.

(** The values a time control can hold: empty, or a time of day. *)
Definition time_of_day (v : string) : Prop :=
  v = "" \/ exists h m, 0 <= h < 24 /\ 0 <= m < 60 /\ v = timeControl h m.

(** The last value typed into the time control, if any. *)
Definition lastTime (inputs : list FormInput) : option string :=
  fold_left (fun acc i => match i with TimeTyped v => Some v | _ => acc end)
    inputs None.

(** The session the view holds after [handleSaveEdit]; an aborted handler
    has updated nothing. *)
Definition saved (LocalTZA : Z -> bool -> Z) (session : Session.t)
    (st : EditState) : Session.t :=
  match handleSaveEdit LocalTZA session st with
  | Some (_, effects) => after session effects
  | None => session
  end.

(** The check behind [parse_timeControl]. *)
Definition parses_back (h m : Z) : bool :=
  JS.truthy_string (timeControl h m)
  && match List.map JS.Number (JS.split ":" (timeControl h m)) with
     | [Some h'; Some m'] => (h' =? h) && (m' =? m)
     | _ => false
     end.

Definition edited_session : Session.t :=
  Session.with_sightings fresh_session
    [ plain_sighting "1700000000200111" "2221" 1;
      plain_sighting "1700000000300222" "189" 2 ].

(** *** The report *)






Definition sample_catalogue : list Species.t :=
  [ Species.mk "2221" "Barn Swallow" "BARSWA" (Some "Hirundinidae");
    Species.mk "2224" "European Robin" "EURROB" (Some "Muscicapidae");
    Species.mk "2229" "Carrion Crow" "CARCRO" (Some "Corvidae");
    Species.mk "189" "Common Kingfisher" "COMKIN" (Some "Alcedinidae") ].


(** The sightings of the specification's example: X 3, X 2, Y 5. *)
Definition xy_session : Session.t :=
  Session.with_sightings fresh_session
    [ plain_sighting "1" "X" 3; plain_sighting "2" "X" 2;
      plain_sighting "3" "Y" 5 ].

Definition xy_catalogue : list Species.t :=
  [ Species.mk "X" "X" "X" None; Species.mk "Y" "Y" "Y" None ].

(** *** The species grid *)

Section ListingVocabulary.
Variable toLowerCase : string -> string.
Variable localeCompare : string -> string -> Z.

(** [text] contains [term], case ignored. *)
Definition containsIgnoringCase (text term : string) : bool :=
  JS.includes (toLowerCase text) (toLowerCase term).

(** The name, the abbreviation or the family of the species contains the
    search term, case ignored. *)
Definition termFound (term : string) (sp : Species.t) : bool :=
  containsIgnoringCase (Species.name sp) term
  || containsIgnoringCase (Species.abbreviation sp) term
  || match Species.family sp with
     | Some f => containsIgnoringCase f term
     | None => false
     end.

(** No species with a zero total stands before a species with a non-zero
    total. *)
Definition nonzero_before_zero (session : Session.t) (shown : list Species.t)
  : Prop :=
  forall l1 a l2 b l3,
    shown = (l1 ++ a :: l2 ++ b :: l3)%list ->
    getCountForSpecies session (Species.id b) <> 0 ->
    getCountForSpecies session (Species.id a) <> 0.

(** Two species of the same group (both counted, or both not) stand in
    the order of their names. *)
Definition alphabetical_in_groups (session : Session.t)
    (shown : list Species.t) : Prop :=
  forall l1 a l2 b l3,
    shown = (l1 ++ a :: l2 ++ b :: l3)%list ->
    (getCountForSpecies session (Species.id a) = 0
     <-> getCountForSpecies session (Species.id b) = 0) ->
    localeCompare (Species.name a) (Species.name b) <= 0.
End ListingVocabulary.

(** A host for the sample data: ASCII lower-casing, and comparison by
    code unit. *)
Definition lower_ascii (c : ascii) : ascii :=
  let n := N_of_ascii c in
  if (65 <=? n)%N && (n <=? 90)%N then ascii_of_N (n + 32) else c.

Fixpoint ascii_toLowerCase (s : string) : string :=
  match s with
  | EmptyString => EmptyString
  | String c rest => String (lower_ascii c) (ascii_toLowerCase rest)
  end.

Definition ascii_localeCompare (a b : string) : Z :=
  match String_as_OT.compare a b with
  | Lt => -1
  | Eq => 0
  | Gt => 1
  end.

Definition env_at (t : Z) : Env := mkEnv t t "0.1234567" true "09:15".

(** One robin counted. *)
Definition robin_session : Session.t :=
  tripClicks fresh_session [(Plus "2224", env_at 1700000000500)].

(** A robin counted, one taken back, and the first of the two records
    deleted from the history: the total of the robin is [-1]. *)
Definition negative_total_session : Session.t :=
  let counted :=
    tripClicks fresh_session
      [ (Plus "2224", env_at 1700000000500);
        (Minus "2224", env_at 1700000000900) ] in
  after counted (handleRecordDelete counted env_yes "1700000000500123").

(** The catalogue and the session of the specification's example. *)
Definition robin_crow_catalogue : list Species.t :=
  [ Species.mk "A" "Robin" "ROB" None; Species.mk "B" "Crow" "CRO" None ].

Definition one_crow_session : Session.t :=
  Session.with_sightings fresh_session [plain_sighting "1" "B" 1].

(** A sighting of a species that a user filed under the id "constructor". *)
Definition prototype_name_session : Session.t :=
  Session.with_sightings fresh_session [plain_sighting "1" "constructor" 3].

(** *** Sums of doubles *)


(** A record of 2^53 birds of the species "189", as the number control of
    the detailed entry accepts it, before and after two records of one
    bird each. *)
Definition large_first_session : Session.t :=
  Session.with_sightings fresh_session
    [ plain_sighting "1700000000200111" "189" 9007199254740992;
      plain_sighting "1700000000300222" "189" 1;
      plain_sighting "1700000000400333" "189" 1 ].


(** *** Time zones *)

(** A zone whose offset never changes. *)
Definition fixed_zone (offset : Z) : Z -> bool -> Z := fun _ _ => offset.

(** Tehran, at UTC+3:30 throughout. *)
Definition Tehran : Z -> bool -> Z := fixed_zone 12600000.

(** A zone that moves its clocks from UTC+1 to UTC+2 at the instant
    [start] and back at the instant [stop], as [LocalTZA] reports it: at an
    instant, the offset in force; for a local time, the offset before the
    change when the change skips it, and the earlier of the two instants
    when the change repeats it. *)
Definition summer_zone (start stop : Z) : Z -> bool -> Z :=
  fun t isUTC =>
    if isUTC then
      if (start <=? t) && (t <? stop) then 7200000 else 3600000
    else
      if (start + 7200000 <=? t) && (t <? stop + 7200000) then 7200000
      else 3600000.

(** A time value that is a date. *)
Definition is_date (t : Z) : Prop := Z.abs t <= 8640000000000000.

(** The local time value [lt] is one that the zone has: read as an instant
    and shown again it is [lt] (no clock change skips it). *)
Definition zone_has (LocalTZA : Z -> bool -> Z) (lt : Z) : Prop :=
  JS.LocalTime LocalTZA (JS.UTC LocalTZA lt) = lt.

(** The instant [t] is the one its local time is read as (it does not lie
    in the second passage of an hour that a clock change repeats). *)
Definition read_back (LocalTZA : Z -> bool -> Z) (t : Z) : Prop :=
  JS.UTC LocalTZA (JS.LocalTime LocalTZA t) = t.

(** The local time value of [h]:[m] on the local calendar day of the
    instant [t], with the seconds and milliseconds that [t] shows. *)
Definition localAt (LocalTZA : Z -> bool -> Z) (t h m : Z) : Z :=
  JS.MakeDate (localDay LocalTZA t)
    (JS.MakeTime h m (JS.SecFromTime (JS.LocalTime LocalTZA t))
       (JS.msFromTime (JS.LocalTime LocalTZA t))).

(** Two records that agree on every field but the timestamp. *)
Definition same_but_timestamp (a b : Sighting.t) : Prop :=
  Sighting.id a = Sighting.id b
  /\ Sighting.speciesId a = Sighting.speciesId b
  /\ Sighting.count a = Sighting.count b
  /\ Sighting.latitude a = Sighting.latitude b
  /\ Sighting.longitude a = Sighting.longitude b
  /\ Sighting.direction a = Sighting.direction b
  /\ Sighting.age a = Sighting.age b
  /\ Sighting.sex a = Sighting.sex b
  /\ Sighting.morph a = Sighting.morph b
  /\ Sighting.distance a = Sighting.distance b
  /\ Sighting.status a = Sighting.status b
  /\ Sighting.countType a = Sighting.countType b
  /\ Sighting.comment a = Sighting.comment b.

(** The record that the form holds after one input, field by field: a
    control writes its field and no other. *)
Definition afterInput (es : Sighting.t) (i : FormInput) : Sighting.t :=
  Sighting.mk (Sighting.id es) (Sighting.speciesId es) (Sighting.timestamp es)
    (match i with
     | CountMinus => Z.max 1 (JS.sub (Sighting.count es) 1)
     | CountPlus => JS.add (Sighting.count es) 1
     | CountTyped (Some z) => if z =? 0 then 1 else z
     | CountTyped None => 1
     | _ => Sighting.count es
     end)
    (Sighting.latitude es) (Sighting.longitude es)
    (match i with PickDirection d => Some d | _ => Sighting.direction es end)
    (match i with PickAge a => Some a | _ => Sighting.age es end)
    (match i with PickSex x => Some x | _ => Sighting.sex es end)
    (match i with PickMorph m => Some m | _ => Sighting.morph es end)
    (match i with PickDistance d => Some d | _ => Sighting.distance es end)
    (Sighting.status es) (Sighting.countType es)
    (match i with TypeComment c => Some c | _ => Sighting.comment es end).

(** Two records under one id, as a clash of generated ids leaves them. *)
Definition twin_session : Session.t :=
  Session.with_sightings fresh_session
    [ plain_sighting "1700000000500123" "189" 2;
      plain_sighting "1700000000500123" "2221" 1 ].

(** *** The location history *)

(** The names of a run of creations that changed the history, in the order
    of the run. *)
Fixpoint entered (calls : list (string * JS.value)) (st : AppState)
  : list string :=
  match calls with
  | [] => []
  | c :: rest =>
      let st' := handleStartSession (fst c) (snd c) st in
      (if List.list_eq_dec String.string_dec (locationHistory st')
            (locationHistory st)
       then [] else [fst c])
      ++ entered rest st'
  end.

(** Eleven locations in turn, and the first of them once more. *)
Definition eleven_then_first : list (string * JS.value) :=
  List.map (fun n => (n, blank_session))
    [ "L1"; "L2"; "L3"; "L4"; "L5"; "L6"; "L7"; "L8"; "L9"; "L10"; "L11";
      "L1" ].

(** *** Imported documents *)

(** A document whose name is an object that owns a property [toString]. *)
Definition document_with_unprintable_name : JS.value :=
  JS.VObject
    [ ("id", JS.VString "1690000000000");
      ("name", JS.VObject [("toString", JS.VNumber 1)]);
      ("sightings", JS.VArray []) ].

(** * The rest of the code *)

(** ** The session view: session details and the detailed entry *)

(** The [infoForm] state of the session-details dialog. *)
Record InfoForm : Type := mkInfoForm {
  info_name : string;
  info_observers : string;
  info_notes : string
}.

Module Session_more.
(** [{ ...session, name: n, observers: o, notes: t }] *)
Definition with_info (s : Session.t) (n o t : string) : Session.t :=
  Session.mk (Session.id s) (Session.type s) n (Session.date s)
    (Session.startTime s) (Session.endTime s) o (Some t)
    (Session.latitude s) (Session.longitude s) (Session.weather s)
    (Session.sightings s) (Session.status s) (Session.syncStatus s)
    (Session.remoteId s).

(** [{ ...s, name, observers, date, startTime, notes, weather }] *)
Definition with_metadata (s : Session.t) (n o d st t : string)
    (w : WeatherInfo) : Session.t :=
  Session.mk (Session.id s) (Session.type s) n d st (Session.endTime s) o
    (Some t) (Session.latitude s) (Session.longitude s) (Some w)
    (Session.sightings s) (Session.status s) (Session.syncStatus s)
    (Session.remoteId s).

(** [{ ...s, syncStatus: 'synced', remoteId }] *)
Definition with_synced (s : Session.t) (remoteId : string) : Session.t :=
  Session.mk (Session.id s) (Session.type s) (Session.name s)
    (Session.date s) (Session.startTime s) (Session.endTime s)
    (Session.observers s) (Session.notes s) (Session.latitude s)
    (Session.longitude s) (Session.weather s) (Session.sightings s)
    (Session.status s) synced (Some remoteId).

(** [{ ...s, syncStatus: 'error' }] *)
Definition with_sync_error (s : Session.t) : Session.t :=
  Session.mk (Session.id s) (Session.type s) (Session.name s)
    (Session.date s) (Session.startTime s) (Session.endTime s)
    (Session.observers s) (Session.notes s) (Session.latitude s)
    (Session.longitude s) (Session.weather s) (Session.sightings s)
    (Session.status s) error (Session.remoteId s).
End Session_more.

(** [s || ''] on an optional string. *)
Definition orEmpty (s : option string) : string :=
  match s with
  | Some x => if JS.truthy_string x then x else ""
  | None => ""
  end.

(** The initial value of [infoForm]. *)
Definition initialInfoForm (session : Session.t) : InfoForm :=
  mkInfoForm (Session.name session) (Session.observers session)
    (orEmpty (Session.notes session)).

Definition handleSaveInfo (session : Session.t) (infoForm : InfoForm)
  : list Effect :=
  [onUpdateSession
     (Session_more.with_info session (info_name infoForm)
        (info_observers infoForm) (info_notes infoForm))].

(** The [detailEntry] state. *)
Module Detail.
Record t : Type := mk {
  count : Z;
  direction : string;
  age : string;
  sex : string;
  morph : string;
  distance : string;
  status : string;
  countType : string;
  comment : string
}.

Definition with_count (p : t) (c : Z) : t :=
  mk c (direction p) (age p) (sex p) (morph p) (distance p) (status p)
     (countType p) (comment p).
End Detail.

Definition INITIAL_DETAIL : Detail.t :=
  Detail.mk 1 "S" "Unknown" "Unknown" "Unknown" "Unknown" "Active" "Single" "".

(** The controls of the detailed entry; [DetailTyped n] carries
    [parseInt(e.target.value)], [None] for NaN. *)
Inductive DetailInput : Type :=
| DetailMinus
| DetailPlus
| DetailTyped (n : option Z)
| DetailDirection (d : string)
| DetailAge (c : string)
| DetailSex (c : string)
| DetailMorph (c : string)
| DetailDistance (c : string)
| DetailStatus (s : string)
| DetailCountType (ct : string)
| DetailComment (c : string).

(** One [setDetailEntry(p => ({ ...p, field: value }))]. *)
Definition detailInput (p : Detail.t) (i : DetailInput) : Detail.t :=
  match i with
  | DetailMinus => Detail.with_count p (Z.max 1 (JS.sub (Detail.count p) 1))
  | DetailPlus => Detail.with_count p (JS.add (Detail.count p) 1)
  | DetailTyped n =>
      Detail.with_count p
        (match n with
         | Some z => if z =? 0 then 1 else z
         | None => 1
         end)
  | DetailDirection d =>
      Detail.mk (Detail.count p) d (Detail.age p) (Detail.sex p)
        (Detail.morph p) (Detail.distance p) (Detail.status p)
        (Detail.countType p) (Detail.comment p)
  | DetailAge c =>
      Detail.mk (Detail.count p) (Detail.direction p) c (Detail.sex p)
        (Detail.morph p) (Detail.distance p) (Detail.status p)
        (Detail.countType p) (Detail.comment p)
  | DetailSex c =>
      Detail.mk (Detail.count p) (Detail.direction p) (Detail.age p) c
        (Detail.morph p) (Detail.distance p) (Detail.status p)
        (Detail.countType p) (Detail.comment p)
  | DetailMorph c =>
      Detail.mk (Detail.count p) (Detail.direction p) (Detail.age p)
        (Detail.sex p) c (Detail.distance p) (Detail.status p)
        (Detail.countType p) (Detail.comment p)
  | DetailDistance c =>
      Detail.mk (Detail.count p) (Detail.direction p) (Detail.age p)
        (Detail.sex p) (Detail.morph p) c (Detail.status p)
        (Detail.countType p) (Detail.comment p)
  | DetailStatus s =>
      Detail.mk (Detail.count p) (Detail.direction p) (Detail.age p)
        (Detail.sex p) (Detail.morph p) (Detail.distance p) s
        (Detail.countType p) (Detail.comment p)
  | DetailCountType ct =>
      Detail.mk (Detail.count p) (Detail.direction p) (Detail.age p)
        (Detail.sex p) (Detail.morph p) (Detail.distance p) (Detail.status p)
        ct (Detail.comment p)
  | DetailComment c =>
      Detail.mk (Detail.count p) (Detail.direction p) (Detail.age p)
        (Detail.sex p) (Detail.morph p) (Detail.distance p) (Detail.status p)
        (Detail.countType p) c
  end.

(** The state of the view in counting mode. *)
Record CountingState : Type := mkCounting {
  selectedSpeciesId : option string;
  detailEntry : Detail.t;
  isControlsCollapsed : bool
}.

Definition handleMigrationSelect (session : Session.t) (st : CountingState)
    (id : string) : CountingState * list Effect :=
  if isCompleted session then
    (st, [alert "Session is finished. Re-open to add counts."])
  else
    (mkCounting (Some id) (Detail.with_count INITIAL_DETAIL 1) false, []).

(** [{ speciesId: selectedSpeciesId, ...detailEntry }] *)
Definition detailData (speciesId : string) (d : Detail.t) : Partial.t :=
  Partial.mk None speciesId None (Detail.count d) None None
    (Some (Detail.direction d)) (Some (Detail.age d)) (Some (Detail.sex d))
    (Some (Detail.morph d)) (Some (Detail.distance d))
    (Some (Detail.status d)) (Some (Detail.countType d))
    (Some (Detail.comment d)).

Definition handleMigrationSave (session : Session.t) (env : Env)
    (st : CountingState) : list Effect :=
  match selectedSpeciesId st with
  | Some sp =>
      if JS.truthy_string sp
      then addSighting session env (detailData sp (detailEntry st))
      else []
  | None => []
  end.

(** The [onClick] of a species card. *)
Definition cardClick (session : Session.t) (env : Env) (st : CountingState)
    (sp : Species.t) : CountingState * list Effect :=
  match Session.type session with
  | counting => handleMigrationSelect session st (Species.id sp)
  | trip => (st, handleSimpleIncrement session env (Species.id sp) 1)
  end.

(** ** The shell on the session collection

    The collection at its declared type [Session[]]. *)

(** The [onUpdateSession] prop handed to the view. *)
Definition storeSession (s : Session.t) (prev : list Session.t)
  : list Session.t :=
  List.map (fun old => if (Session.id old =? Session.id s)%string then s else old)
    prev.

(** What the effects of a view handler do to the collection. *)
Definition dispatch (effects : list Effect) (prev : list Session.t)
  : list Session.t :=
  fold_left (fun cur e => match e with
                          | onUpdateSession s => storeSession s cur
                          | alert _ => cur
                          end) effects prev.

(** [sessions.find(s => s.id === activeSessionId)] *)
Definition activeSession (sessions : list Session.t)
    (activeSessionId : option string) : option Session.t :=
  match activeSessionId with
  | Some i => List.find (fun s => (Session.id s =? i)%string) sessions
  | None => None
  end.

(** The "Delete Session" button of a dashboard row; [answer] is the answer
    to its [confirm] dialog. *)
Definition deleteSession (answer : bool) (session : Session.t)
    (prev : list Session.t) : list Session.t :=
  if answer then
    List.filter (fun s => negb (Session.id s =? Session.id session)%string) prev
  else prev.

Record UserConfig : Type := mkUser {
  websiteUrl : string;
  username : string;
  appPassword : string
}.

(** What [handleSyncSession] leaves on the screen. *)
Inductive SyncIndicator : Type :=
| login_requested
| sync_success
| sync_error.

(** [handleSyncSession].  [outcome] is what awaiting
    [syncSessionToWordPress] gives: [Some remoteId], or [None] when it
    rejects; [prev] is the collection at that moment. *)
Definition handleSyncSession (user : option UserConfig)
    (outcome : option string) (sessionToSync : Session.t)
    (prev : list Session.t) : list Session.t * SyncIndicator :=
  match user with
  | None => (prev, login_requested)
  | Some _ =>
      match outcome with
      | Some remoteId =>
          (List.map (fun s => if (Session.id s =? Session.id sessionToSync)%string
                              then Session_more.with_synced s remoteId
                              else s) prev,
           sync_success)
      | None =>
          (List.map (fun s => if (Session.id s =? Session.id sessionToSync)%string
                              then Session_more.with_sync_error s
                              else s) prev,
           sync_error)
      end
  end.

(** The [editForm] state of the dashboard's metadata dialog. *)
Record EditForm : Type := mkEditForm {
  form_name : string;
  form_observers : string;
  form_date : string;
  form_startTime : string;
  form_temp : string;
  form_cloud : string;
  form_wind : string;
  form_precip : string;
  form_notes : string
}.

(** [session.weather?.field || ''] *)
Definition weatherField (f : WeatherInfo -> string) (w : option WeatherInfo)
  : string :=
  match w with
  | Some x => orEmpty (Some (f x))
  | None => ""
  end.

(** Returns the [editingSession] and [editForm] states. *)
Definition startEditingSession (session : Session.t)
  : option Session.t * EditForm :=
  (Some session,
   mkEditForm (Session.name session) (Session.observers session)
     (Session.date session) (Session.startTime session)
     (weatherField temperature (Session.weather session))
     (weatherField cloudCover (Session.weather session))
     (weatherField windSpeed (Session.weather session))
     (weatherField precipitation (Session.weather session))
     (orEmpty (Session.notes session))).

Definition saveEditedSession (editingSession : option Session.t)
    (editForm : EditForm) (prev : list Session.t) : list Session.t :=
  match editingSession with
  | None => prev
  | Some es =>
      List.map
        (fun s =>
           if (Session.id s =? Session.id es)%string
           then Session_more.with_metadata s (form_name editForm)
                  (form_observers editForm) (form_date editForm)
                  (form_startTime editForm) (form_notes editForm)
                  (mkWeather (form_temp editForm) (form_cloud editForm)
                     (form_wind editForm) (form_precip editForm))
           else s)
        prev
  end.

(** The calls a user can make on the view, and their effects for the
    session the view was given. *)
Inductive ViewCall : Type :=
| CallAddSighting (env : Env) (data : Partial.t)
| CallSimpleIncrement (env : Env) (speciesId : string) (amount : Z)
| CallRecordDelete (env : Env) (id : string)
| CallToggleFinish (env : Env)
| CallResume
| CallSaveInfo (infoForm : InfoForm)
| CallMigrationSave (env : Env) (st : CountingState)
| CallSaveEdit (LocalTZA : Z -> bool -> Z) (st : EditState).

Definition effectsOf (session : Session.t) (c : ViewCall) : list Effect :=
  match c with
  | CallAddSighting env data => addSighting session env data
  | CallSimpleIncrement env sp amount =>
      handleSimpleIncrement session env sp amount
  | CallRecordDelete env id => handleRecordDelete session env id
  | CallToggleFinish env => handleToggleFinish session env
  | CallResume => resumeCounting session
  | CallSaveInfo infoForm => handleSaveInfo session infoForm
  | CallMigrationSave env st => handleMigrationSave session env st
  | CallSaveEdit tza st =>
      match handleSaveEdit tza session st with
      | Some (_, effects) => effects
      | None => []
      end
  end.

(** Two sessions that agree on everything but [syncStatus] and
    [remoteId]. *)
Definition same_but_sync (a b : Session.t) : Prop :=
  Session.id a = Session.id b
  /\ Session.type a = Session.type b
  /\ Session.name a = Session.name b
  /\ Session.date a = Session.date b
  /\ Session.startTime a = Session.startTime b
  /\ Session.endTime a = Session.endTime b
  /\ Session.observers a = Session.observers b
  /\ Session.notes a = Session.notes b
  /\ Session.latitude a = Session.latitude b
  /\ Session.longitude a = Session.longitude b
  /\ Session.weather a = Session.weather b
  /\ Session.sightings a = Session.sightings b
  /\ Session.status a = Session.status b.

(** Two sessions that agree on everything a metadata edit does not write:
    identity, kind, end time, place, sightings, status and sync state. *)
Definition same_but_metadata (a b : Session.t) : Prop :=
  Session.id a = Session.id b
  /\ Session.type a = Session.type b
  /\ Session.endTime a = Session.endTime b
  /\ Session.latitude a = Session.latitude b
  /\ Session.longitude a = Session.longitude b
  /\ Session.sightings a = Session.sightings b
  /\ Session.status a = Session.status b
  /\ Session.syncStatus a = Session.syncStatus b
  /\ Session.remoteId a = Session.remoteId b.

(** A collection with two sessions: the fresh one and a finished one. *)
Definition other_session : Session.t :=
  Session.mk "1690000000000" counting "Miankaleh" "2025-02-01" "06:00"
    (Some "09:00") "Self" (Some "windy") None None
    (Some (mkWeather "12" "50" "10 SW" "None"))
    [plain_sighting "16900000001001" "189" 4] completed unsynced None.

Definition sample_collection : list Session.t :=
  [fresh_session; other_session].

Definition sample_user : UserConfig :=
  mkUser "https://birdsofiran.com" "observer" "xxxx xxxx".

(** What a user can do in counting mode: tap a species card, use a control
    of the detailed entry (rendered only while a species is selected), save
    the record, close the entry. *)
Inductive CountingCall : Type :=
| TapCard (sp : Species.t) (env : Env)
| UseControl (i : DetailInput)
| SaveRecord (env : Env)
| CloseEntry.

Definition controlsRendered (session : Session.t) (st : CountingState) : bool :=
  match Session.type session, selectedSpeciesId st with
  | counting, Some sp => JS.truthy_string sp
  | _, _ => false
  end.

Definition countingCall (cur : Session.t * CountingState) (c : CountingCall)
  : Session.t * CountingState :=
  let (session, st) := cur in
  match c with
  | TapCard sp env =>
      let (st', effects) := cardClick session env st sp in
      (after session effects, st')
  | UseControl i =>
      if controlsRendered session st
      then (session,
            mkCounting (selectedSpeciesId st) (detailInput (detailEntry st) i)
              (isControlsCollapsed st))
      else cur
  | SaveRecord env =>
      if controlsRendered session st
      then (after session (handleMigrationSave session env st), st)
      else cur
  | CloseEntry =>
      (session, mkCounting None (detailEntry st) (isControlsCollapsed st))
  end.

(** The view's state when it mounts. *)
Definition initialCounting : CountingState :=
  mkCounting None INITIAL_DETAIL false.

(** A count typed into the number control that is not negative. *)
Definition typed_nonnegative (c : CountingCall) : Prop :=
  match c with
  | UseControl (DetailTyped (Some z)) => 0 <= z
  | _ => True
  end.

Definition counting_session : Session.t :=
  Session.mk "1700000000000" counting "Anzali Lagoon" "2025-03-01" "07:30" None
    "Self" (Some "") None None (Some (mkWeather "" "" "" "")) [] active
    unsynced None.

Definition kingfisher : Species.t :=
  Species.mk "189" "Common Kingfisher" "COMKIN" (Some "Alcedinidae").

Definition sample_counting_run : list CountingCall :=
  [ TapCard kingfisher env_yes;
    UseControl DetailPlus;
    UseControl (DetailDirection "N");
    SaveRecord env_yes;
    UseControl DetailMinus;
    UseControl DetailMinus;
    SaveRecord (env_at 1700000000900) ].


(** ** What the view draws

    A finished session is drawn as the report and as nothing else
    ([if (isCompleted) return renderReportUI()]); the grid, the detailed
    entry and the dialogs are drawn only for a session that is not
    finished. *)







(** ** The application shell: settings, language, start of a session *)

(** The code lists of the settings. *)
Module Codes.
Record t : Type := mk {
  age : list string;
  sex : list string;
  distance : list string;
  direction : list string;
  status : list string;
  morph : list string;
  countType : list string
}.
End Codes.

(** The switches of the optional fields. *)
Module Fields.
Record t : Type := mk {
  age : bool;
  sex : bool;
  distance : bool;
  direction : bool;
  morph : bool;
  countType : bool
}.
End Fields.

Module Settings.
Record t : Type := mk {
  speciesList : list Species.t;
  theme : string;
  language : string;
  rules : list JS.value;
  codes : Codes.t;
  fields : Fields.t
}.
End Settings.

(** [toggleTheme] *)
Definition toggleTheme (prev : Settings.t) : Settings.t :=
  Settings.mk (Settings.speciesList prev)
    (if (Settings.theme prev =? "light")%string then "dark" else "light")
    (Settings.language prev) (Settings.rules prev) (Settings.codes prev)
    (Settings.fields prev).

(** [changeLanguage]: the settings it leaves (it also closes the menu). *)
Definition changeLanguage (langCode : string) (prev : Settings.t) : Settings.t :=
  Settings.mk (Settings.speciesList prev) (Settings.theme prev) langCode
    (Settings.rules prev) (Settings.codes prev) (Settings.fields prev).

(** Whether the effect on [settings.theme] leaves the class [dark] on the
    document. *)
Definition darkClass (settings : Settings.t) : bool :=
  (Settings.theme settings =? "dark")%string.

Record Language : Type := mkLanguage { label : string; dir : string }.

Definition LANGUAGES : JS.object Language :=
  [ ("en", mkLanguage "English" "ltr");
    ("fa", mkLanguage "فارسی" "rtl");
    ("fr", mkLanguage "Français" "ltr");
    ("de", mkLanguage "Deutsch" "ltr");
    ("ar", mkLanguage "العربية" "rtl");
    ("ru", mkLanguage "Русский" "ltr") ].

(** The [dir] attribute the effect on [settings.language] sets:
    [LANGUAGES[language]?.dir || 'ltr'].  A name that [LANGUAGES] only
    inherits reads a value without [dir]. *)
Definition documentDir (settings : Settings.t) : string :=
  match JS.get (Settings.language settings) LANGUAGES with
  | Some l => if JS.truthy_string (dir l) then dir l else "ltr"
  | None => "ltr"
  end.

(** The two tables of [TRANSLATIONS], in the order of the source.  A text
    is held as the bytes of its UTF-8 form; only its identity and whether
    it is empty matter below. *)
Definition TRANSLATIONS_en : JS.object string :=
  [ ("welcome", "Welcome Back");
    ("ready", "Ready to start counting?");
    ("startBtn", "Start New Session");
    ("recent", "Recent Sessions");
    ("noSessions", "No sessions yet. Start your first bird count!");
    ("setupTitle", "Setup New Count");
    ("backDash", "Back to Dashboard");
    ("locName", "Location Name");
    ("date", "Date");
    ("time", "Start Time");
    ("observers", "Observers");
    ("weather", "Weather Conditions (Optional)");
    ("startCount", "Start Counting");
    ("tripMode", "Birding Trip");
    ("tripDesc", "Simple list & counts");
    ("migMode", "Migration Count");
    ("migDesc", "Detailed entries");
    ("articles", "Latest Articles");
    ("about", "About Us");
    ("aboutTitle", "About OrniCount Pro");
    ("contact", "Contact Us");
    ("version", "Version 1.2.0");
    ("login", "Log In");
    ("logout", "Log Out");
    ("website", "Website URL");
    ("username", "Username");
    ("appPass", "Application Password");
    ("restoreTitle", "Unsaved Session Found");
    ("restoreMsg", "You have an active session that wasn't closed properly. Do you want to continue it?");
    ("restoreBtn", "Restore Session");
    ("discardBtn", "Discard");
    ("importBtn", "Import File") ].

Definition TRANSLATIONS_fa : JS.object string :=
  [ ("welcome", "خوش آمدید");
    ("ready", "آماده شروع شمارش هستید؟");
    ("startBtn", "شروع جلسه جدید");
    ("recent", "جلسات اخیر");
    ("noSessions", "هنوز جلسه‌ای وجود ندارد. اولین شمارش پرنده خود را شروع کنید!");
    ("setupTitle", "تنظیم شمارش جدید");
    ("backDash", "بازگشت به داشبورد");
    ("locName", "نام مکان");
    ("date", "تاریخ");
    ("time", "زمان شروع");
    ("observers", "مشاهده‌کنندگان");
    ("weather", "شرایط جوی (اختیاری)");
    ("startCount", "شروع شمارش");
    ("tripMode", "سفر پرنده‌نگری");
    ("tripDesc", "لیست ساده و شمارش");
    ("migMode", "شمارش مهاجرت");
    ("migDesc", "ثبت جزئیات دقیق");
    ("articles", "آخرین مقالات");
    ("about", "درباره ما");
    ("aboutTitle", "درباره OrniCount حرفه‌ای");
    ("contact", "تماس با ما");
    ("version", "نسخه 1.2.0");
    ("login", "ورود");
    ("logout", "خروج");
    ("website", "آدرس وبسایت");
    ("username", "نام کاربری");
    ("appPass", "رمز عبور برنامه");
    ("restoreTitle", "جلسه ذخیره نشده یافت شد");
    ("restoreMsg", "شما یک جلسه فعال دارید که به درستی بسته نشده است. آیا می‌خواهید آن را ادامه دهید؟");
    ("restoreBtn", "بازیابی جلسه");
    ("discardBtn", "لغو");
    ("importBtn", "وارد کردن فایل") ].

Definition TRANSLATIONS : JS.object (JS.object string) :=
  [ ("en", TRANSLATIONS_en); ("fa", TRANSLATIONS_fa) ].

(** [TRANSLATIONS[lang]?.[key]] for names that are not inherited. *)
Definition translation (lang key : string) : option string :=
  match JS.get lang TRANSLATIONS with
  | Some table => JS.get key table
  | None => None
  end.

(** [a || b] on the result of a lookup and a string. *)
Definition orElse (a : option string) (b : string) : string :=
  match a with
  | Some x => if JS.truthy_string x then x else b
  | None => b
  end.

(** [t(key)].  [None] when the language or the key is a name the tables
    inherit from [Object.prototype]: the lookup then yields a function or
    an object, not a text. *)
Definition t (settings : Settings.t) (key : string) : option string :=
  if JS.inherited (Settings.language settings) || JS.inherited key then None
  else
    let lang :=
      match JS.get (Settings.language settings) TRANSLATIONS with
      | Some _ => Settings.language settings
      | None => "en"
      end in
    Some (orElse (translation lang key) (orElse (translation "en" key) key)).

(** *** The species that ship with the application *)

Definition PASSERINES : list Species.t :=
  [ Species.mk "2221" "Barn Swallow" "BARSWA" (Some "Hirundinidae");
    Species.mk "2222" "House Sparrow" "HOUSPA" (Some "Passeridae");
    Species.mk "2223" "Common Blackbird" "COMBLA" (Some "Turdidae");
    Species.mk "2224" "European Robin" "EURROB" (Some "Muscicapidae");
    Species.mk "2225" "Blue Tit" "BLUTIT" (Some "Paridae");
    Species.mk "2226" "Great Tit" "GRETIT" (Some "Paridae");
    Species.mk "2227" "Common Chaffinch" "COMCHA" (Some "Fringillidae");
    Species.mk "2228" "Eurasian Magpie" "EURMAG" (Some "Corvidae");
    Species.mk "2229" "Carrion Crow" "CARCRO" (Some "Corvidae");
    Species.mk "2211" "Common Starling" "COMSTA" (Some "Sturnidae");
    Species.mk "192" "White Wagtail" "WHIWAG" (Some "Motacillidae");
    Species.mk "193" "Citrine Wagtail" "CITWAG" (Some "Motacillidae");
    Species.mk "194" "Water Pipit" "WATPIP" (Some "Motacillidae");
    Species.mk "195" "Common Reed Bunting" "COMBUN" (Some "Emberizidae") ].

Definition OTHER : list Species.t :=
  [ Species.mk "189" "Common Kingfisher" "COMKIN" (Some "Alcedinidae");
    Species.mk "190" "White-throated Kingfisher" "WHIKIN" (Some "Alcedinidae");
    Species.mk "191" "Pied Kingfisher" "PIEKIN" (Some "Alcedinidae");
    Species.mk "310" "Common Wood Pigeon" "WOOPIG" (Some "Columbidae");
    Species.mk "301" "Common Swift" "COMSWI" (Some "Apodidae");
    Species.mk "302" "European Bee-eater" "EURBEE" (Some "Meropidae") ].

Section DefaultSpecies.
(** The two lists of [data/raptors] and [data/waterfowl], and the host's
    [localeCompare]. *)
Variable RAPTORS : list Species.t.
Variable WATERFOWL : list Species.t.
Variable localeCompare : string -> string -> Z.

Definition DEFAULT_SPECIES : list Species.t :=
  JS.sort (fun a b => localeCompare (Species.name a) (Species.name b))
    (RAPTORS ++ PASSERINES ++ WATERFOWL ++ OTHER).
End DefaultSpecies.

(** *** Starting a session *)

(** The [newSessionData] state of the set-up form. *)
Module NewSessionData.
Record t : Type := mk {
  name : string;
  date : string;
  startTime : string;
  observers : string;
  lat : string;
  lng : string;
  type : SessionType;
  temp : string;
  cloud : string;
  wind : string;
  precip : string
}.
End NewSessionData.

Inductive ViewState : Type :=
| view_dashboard
| view_new_session
| view_active_session
| view_settings.

(** The shell's state around the collection at its declared type. *)
Module Shell.
Record t : Type := mk {
  sessions : list Session.t;
  locationHistory : list string;
  activeSessionId : option string;
  view : ViewState
}.

Section Start.
(** [parseFloat]; [None] is NaN. *)
Variable parseFloat : string -> option Q.

(** [text ? parseFloat(text) : undefined]; the outer [None] stands for
    NaN, which the session record cannot hold. *)
Definition coordinate (text : string) : option (option Q) :=
  if JS.truthy_string text then
    match parseFloat text with
    | Some q => Some (Some q)
    | None => None
    end
  else Some None.

(** The [newSession] of [handleStartSession]. *)
Definition newSession (d : NewSessionData.t) (now : Z) : option Session.t :=
  match coordinate (NewSessionData.lat d), coordinate (NewSessionData.lng d) with
  | Some latitude, Some longitude =>
      Some (Session.mk (JS.toString now)
              (NewSessionData.type d)
              (if JS.truthy_string (NewSessionData.name d)
               then NewSessionData.name d
               else ("Session " ++ NewSessionData.date d)%string)
              (NewSessionData.date d)
              (NewSessionData.startTime d)
              None
              (if JS.truthy_string (NewSessionData.observers d)
               then NewSessionData.observers d
               else "Self")
              (Some "")
              latitude longitude
              (Some (mkWeather (NewSessionData.temp d) (NewSessionData.cloud d)
                       (NewSessionData.wind d) (NewSessionData.precip d)))
              [] active unsynced None)
  | _, _ => None
  end.

(** [handleStartSession] on the whole state. *)
Definition handleStartSession (d : NewSessionData.t) (now : Z) (sh : t)
  : option t :=
  match newSession d now with
  | Some created =>
      Some (mk (created :: sessions sh)
              (if JS.truthy_string (NewSessionData.name d)
                  && negb (existsb (String.eqb (NewSessionData.name d))
                             (locationHistory sh))
               then firstn 10 (NewSessionData.name d :: locationHistory sh)
               else locationHistory sh)
              (Some (JS.toString now))
              view_active_session)
  | None => None
  end.
End Start.

(** A click on a row of the dashboard. *)
Definition openSession (session : Session.t) (sh : t) : t :=
  mk (sessions sh) (locationHistory sh) (Some (Session.id session))
     view_active_session.

(** The [onClose] prop handed to the view. *)
Definition closeSession (sh : t) : t :=
  mk (sessions sh) (locationHistory sh) None view_dashboard.

(** What the effect on [activeSessionId] leaves under the key
    [orni_last_active_id]. *)
Definition lastActiveId (sh : t) : option string :=
  match activeSessionId sh with
  | Some i => if JS.truthy_string i then Some i else None
  | None => None
  end.

(** The auto-restore of the mount effect: the [pendingRestoreId] for which
    the restore prompt is shown, if any.  [parsedSessions] is the stored
    collection and [stored] the value under [orni_last_active_id]. *)
Definition pendingRestore (parsedSessions : list Session.t)
    (stored : option string) : option string :=
  match stored with
  | Some i =>
      if JS.truthy_string i then
        match List.find (fun s => (Session.id s =? i)%string) parsedSessions with
        | Some possibleSession =>
            match Session.status possibleSession with
            | active => Some i
            | completed => None
            end
        | None => None
        end
      else None
  | None => None
  end.

(** The "Restore Session" button of the prompt. *)
Definition restoreSession (pendingRestoreId : option string) (sh : t) : t :=
  mk (sessions sh) (locationHistory sh) pendingRestoreId view_active_session.
End Shell.

(** A parser for the sample data: the empty text and "abc" are no numbers,
    every other text reads as 35.5. *)
Definition sample_parseFloat (text : string) : option Q :=
  if (text =? "abc")%string then None else Some (71 # 2)%Q.

Definition sample_form : NewSessionData.t :=
  NewSessionData.mk "Anzali Lagoon" "2025-03-01" "07:30" "" "37.470000" "49.460000"
    trip "" "" "" "".

Definition sample_shell : Shell.t :=
  Shell.mk sample_collection ["Miankaleh"] None view_new_session.

Definition sample_settings : Settings.t :=
  Settings.mk sample_catalogue "light" "fa" []
    (Codes.mk ["Juv"; "Imm"; "Ad"; "Non-Juv"; "Non-adult"; "Unk"]
       ["F"; "M"; "FC"; "Unk"]
       ["w3"; "w2"; "w1"; "o"; "e1"; "e2"; "e3"]
       ["N"; "S"; "Local"; "E"; "W"; "NE"; "NW"; "SE"; "SW"]
       ["Active"; "Killed"; "Injured"; "Resting"]
       ["Light"; "Dark"]
       ["Single"; "Double"])
    (Fields.mk true true true true true true).

(** Stand-ins for the two lists that are kept in other files. *)
Definition sample_raptors : list Species.t :=
  [ Species.mk "101" "Steppe Eagle" "STEEAG" (Some "Accipitridae");
    Species.mk "102" "Common Buzzard" "COMBUZ" (Some "Accipitridae") ].

Definition sample_waterfowl : list Species.t :=
  [ Species.mk "401" "Mallard" "MALLAR" (Some "Anatidae") ].

(** * Properties *)

(** ** Rounding to a double *)

Lemma ulp_pos a : 0 < JS.ulp a.
Proof. unfold JS.ulp. apply Z.pow_pos_nonneg; lia. Qed.

Lemma ulp_small a : a < 2 ^ 53 -> JS.ulp a = 1.
Proof.
  intros H. unfold JS.ulp.
  destruct (Z.le_gt_cases a 0) as [Hle|Hpos].
  - rewrite (Z.log2_nonpos a Hle). reflexivity.
  - assert (Z.log2 a < 53) by (apply Z.log2_lt_pow2; lia).
    replace (Z.max 0 (Z.log2 a - 52)) with 0 by lia. reflexivity.
Qed.

Lemma pow2_divide a b : 0 <= a <= b -> (2 ^ a | 2 ^ b).
Proof.
  intros H. exists (2 ^ (b - a)). rewrite <- Z.pow_add_r by lia. f_equal. lia.
Qed.

(** The power of two at the foot of the binade of [a] is a multiple of the
    spacing. *)
Lemma ulp_divide_pow a k : Z.log2 a <= k -> 0 <= k -> (JS.ulp a | 2 ^ k).
Proof.
  intros H Hk. unfold JS.ulp. apply pow2_divide. lia.
Qed.

Lemma nearest_of_multiple a : (JS.ulp a | a) -> JS.nearest a = a.
Proof.
  intros Hd. unfold JS.nearest. pose proof (ulp_pos a) as Hu.
  apply Z.mod_divide in Hd; [|lia]. rewrite Hd.
  replace (JS.ulp a <? 2 * 0) with false by (symmetry; apply Z.ltb_ge; lia).
  replace (2 * 0 =? JS.ulp a) with false by (symmetry; apply Z.eqb_neq; lia).
  cbn [orb andb]. pose proof (Z.div_mod a (JS.ulp a)). lia.
Qed.

Lemma nearest_exact a : a <= 2 ^ 53 -> JS.nearest a = a.
Proof.
  intros H. apply nearest_of_multiple.
  destruct (Z.eq_dec a (2 ^ 53)) as [->|Hne].
  - exists (2 ^ 52). reflexivity.
  - rewrite ulp_small by lia. apply Z.divide_1_l.
Qed.

Lemma nearest_divide a : (JS.ulp a | JS.nearest a).
Proof.
  unfold JS.nearest. destruct (_ || _); apply Z.divide_factor_l.
Qed.

(** Rounding moves to one of the two neighbouring multiples of the
    spacing. *)
Lemma nearest_between a :
  JS.ulp a * (a / JS.ulp a) <= JS.nearest a
  /\ (JS.nearest a = JS.ulp a * (a / JS.ulp a)
      \/ (a mod JS.ulp a <> 0
          /\ JS.nearest a = JS.ulp a * (a / JS.ulp a + 1))).
Proof.
  unfold JS.nearest. pose proof (ulp_pos a) as Hu.
  pose proof (Z.mod_pos_bound a (JS.ulp a) Hu) as Hr.
  destruct ((JS.ulp a <? 2 * (a mod JS.ulp a))
            || ((2 * (a mod JS.ulp a) =? JS.ulp a) && Z.odd (a / JS.ulp a)))
    eqn:E.
  - split; [nia|]. right. split; [|reflexivity].
    intros H0. rewrite H0 in E.
    apply orb_true_iff in E. destruct E as [E|E].
    + apply Z.ltb_lt in E. lia.
    + apply andb_true_iff in E. destruct E as [E _]. apply Z.eqb_eq in E. lia.
  - split; [lia|]. now left.
Qed.

Lemma floor_multiple u m y : 0 < u -> (u | m) -> m <= y -> m <= u * (y / u).
Proof.
  intros Hu [k ->] Hle.
  assert (k <= y / u) by (apply Z.div_le_lower_bound; lia). nia.
Qed.

Lemma ceil_multiple u m y :
  0 < u -> (u | m) -> y < m -> u * (y / u + 1) <= m.
Proof.
  intros Hu [k ->] Hlt.
  assert (y / u < k) by (apply Z.div_lt_upper_bound; lia). nia.
Qed.

(** Rounding stays within the binade. *)
Lemma nearest_binade a :
  0 < a -> 2 ^ Z.log2 a <= JS.nearest a <= 2 ^ (Z.log2 a + 1).
Proof.
  intros Ha. pose proof (ulp_pos a) as Hu.
  destruct (Z.log2_spec a Ha) as [Hlo Hhi].
  pose proof (Z.log2_nonneg a) as HL.
  destruct (nearest_between a) as [Hfloor Hcases]. split.
  - etransitivity; [|exact Hfloor].
    apply floor_multiple; [exact Hu | apply ulp_divide_pow; lia | exact Hlo].
  - assert (Hceil : JS.ulp a * (a / JS.ulp a + 1) <= 2 ^ (Z.log2 a + 1)).
    { apply ceil_multiple; [exact Hu | apply ulp_divide_pow; lia |].
      replace (Z.log2 a + 1) with (Z.succ (Z.log2 a)) by lia. exact Hhi. }
    destruct Hcases as [->|[_ ->]]; [nia | exact Hceil].
Qed.

Lemma nearest_0 : JS.nearest 0 = 0.
Proof. reflexivity. Qed.

Lemma nearest_pos a : 0 < a -> 0 < JS.nearest a.
Proof.
  intros Ha. destruct (nearest_binade a Ha) as [H _].
  assert (0 < 2 ^ Z.log2 a) by (apply Z.pow_pos_nonneg; [lia | apply Z.log2_nonneg]).
  lia.
Qed.

Lemma nearest_nonneg a : 0 <= a -> 0 <= JS.nearest a.
Proof.
  intros Ha. destruct (Z.eq_dec a 0) as [->|Hne]; [rewrite nearest_0; lia|].
  pose proof (nearest_pos a). lia.
Qed.

(** A double is a fixed point of the rounding. *)
Lemma nearest_idempotent a : 0 <= a -> JS.nearest (JS.nearest a) = JS.nearest a.
Proof.
  intros Ha. destruct (Z.eq_dec a 0) as [->|Hne]; [reflexivity|].
  assert (Hpos : 0 < a) by lia.
  destruct (nearest_binade a Hpos) as [Hlo Hhi].
  pose proof (nearest_pos a Hpos) as Hd. pose proof (Z.log2_nonneg a) as HL.
  apply nearest_of_multiple.
  destruct (Z.eq_dec (JS.nearest a) (2 ^ (Z.log2 a + 1))) as [E|Hne'].
  - rewrite E. apply ulp_divide_pow; [|lia].
    rewrite Z.log2_pow2 by lia. lia.
  - assert (Z.log2 (JS.nearest a) = Z.log2 a).
    { apply Z.log2_unique; [exact HL|].
      replace (Z.succ (Z.log2 a)) with (Z.log2 a + 1) by lia. lia. }
    unfold JS.ulp at 1. rewrite H. apply nearest_divide.
Qed.

(** A double below [y] stays below the rounding of [y]. *)
Lemma nearest_above t y :
  0 < t -> (JS.ulp t | t) -> t <= y -> t <= JS.nearest y.
Proof.
  intros Ht Hd Hle. pose proof (ulp_pos y) as Hu.
  destruct (nearest_between y) as [Hfloor _].
  etransitivity; [|exact Hfloor].
  assert (Hy : 0 < y) by lia.
  pose proof (Z.log2_le_mono t y Hle) as Hlog.
  destruct (Z.eq_dec (Z.log2 t) (Z.log2 y)) as [E|Hne].
  - apply floor_multiple; [exact Hu | | exact Hle].
    unfold JS.ulp in *. now rewrite <- E.
  - destruct (Z.log2_spec y Hy) as [Hlo _].
    assert (Hlt : t < 2 ^ Z.log2 y).
    { apply Z.log2_lt_pow2; lia. }
    assert (2 ^ Z.log2 y <= JS.ulp y * (y / JS.ulp y)).
    { apply floor_multiple; [exact Hu | | exact Hlo].
      apply ulp_divide_pow; [lia | apply Z.log2_nonneg]. }
    lia.
Qed.

(** A double above [a] stays above the rounding of [a]. *)
Lemma nearest_below a b :
  0 <= a -> (JS.ulp b | b) -> a <= b -> JS.nearest a <= b.
Proof.
  intros Ha Hd Hle. destruct (Z.eq_dec a 0) as [->|Hne]; [rewrite nearest_0; lia|].
  assert (Hpos : 0 < a) by lia. pose proof (ulp_pos a) as Hu.
  pose proof (Z.log2_le_mono a b Hle) as Hlog.
  destruct (Z.eq_dec (Z.log2 a) (Z.log2 b)) as [E|Hlt].
  - assert (Hdb : (JS.ulp a | b)) by (unfold JS.ulp in *; now rewrite E).
    destruct (nearest_between a) as [_ [-> | [Hr ->]]].
    + pose proof (Z.mul_div_le a (JS.ulp a) Hu). lia.
    + apply ceil_multiple; [exact Hu | exact Hdb |].
      destruct (Z.eq_dec a b) as [->|]; [|lia].
      exfalso. apply Hr. apply Z.mod_divide; [lia | exact Hdb].
  - destruct (nearest_binade a Hpos) as [_ Hhi].
    assert (Hb : 0 < b) by lia. destruct (Z.log2_spec b Hb) as [Hlo _].
    assert (2 ^ (Z.log2 a + 1) <= 2 ^ Z.log2 b)
      by (apply Z.pow_le_mono_r; lia).
    lia.
Qed.

(** *** The rounding on signed integers *)

Lemma double_opp z : JS.double (- z) = - JS.double z.
Proof. unfold JS.double. rewrite Z.sgn_opp, Z.abs_opp. lia. Qed.

Lemma double_nonneg_eq z : 0 <= z -> JS.double z = JS.nearest z.
Proof.
  intros Hz. unfold JS.double. rewrite Z.abs_eq by exact Hz.
  destruct (Z.eq_dec z 0) as [->|Hne]; [reflexivity|].
  rewrite Z.sgn_pos by lia. lia.
Qed.

Lemma double_neg_eq z : z <= 0 -> JS.double z = - JS.nearest (- z).
Proof.
  intros Hz. rewrite <- (Z.opp_involutive z) at 1.
  rewrite double_opp, double_nonneg_eq by lia. reflexivity.
Qed.

(** Below 2^53 in absolute value every integer is a double. *)
Lemma double_exact z : Z.abs z <= 2 ^ 53 -> JS.double z = z.
Proof.
  intros H. unfold JS.double. rewrite nearest_exact by exact H.
  rewrite Z.mul_comm. apply Z.abs_sgn.
Qed.

Lemma double_sign z :
  (0 <= z -> 0 <= JS.double z) /\ (z <= 0 -> JS.double z <= 0)
  /\ (0 < z -> 0 < JS.double z) /\ (z < 0 -> JS.double z < 0).
Proof.
  repeat split; intros H.
  - rewrite double_nonneg_eq by exact H. now apply nearest_nonneg.
  - rewrite double_neg_eq by exact H.
    assert (0 <= JS.nearest (- z)) by (apply nearest_nonneg; lia). lia.
  - rewrite double_nonneg_eq by lia. now apply nearest_pos.
  - rewrite double_neg_eq by lia.
    assert (0 < JS.nearest (- z)) by (apply nearest_pos; lia). lia.
Qed.

Lemma double_pos_iff z : 0 < JS.double z <-> 0 < z.
Proof.
  destruct (double_sign z) as (_ & Hnp & Hp & _). split; [|exact Hp].
  intros H. destruct (Z.lt_ge_cases 0 z); [assumption|]. specialize (Hnp H0). lia.
Qed.


Lemma double_idempotent z : JS.double (JS.double z) = JS.double z.
Proof.
  destruct (Z.le_ge_cases 0 z) as [H|H].
  - rewrite (double_nonneg_eq z H).
    rewrite double_nonneg_eq by now apply nearest_nonneg.
    now apply nearest_idempotent.
  - rewrite (double_neg_eq z H). rewrite double_opp.
    rewrite double_nonneg_eq by (apply nearest_nonneg; lia).
    rewrite nearest_idempotent by lia. reflexivity.
Qed.

Lemma nearest_fixed_divide t : 0 <= t -> JS.nearest t = t -> (JS.ulp t | t).
Proof. intros _ H. rewrite <- H at 2. apply nearest_divide. Qed.

(** Rounding never crosses a double: a double that is at most [y] is at
    most the rounding of [y]. *)
Lemma double_above t y : JS.double t = t -> t <= y -> t <= JS.double y.
Proof.
  intros Hfix Hle. destruct (double_sign y) as (Hnn & _ & _ & _).
  destruct (Z.le_gt_cases 0 y) as [Hy|Hy].
  - destruct (Z.le_gt_cases t 0) as [Ht|Ht]; [specialize (Hnn Hy); lia|].
    rewrite double_nonneg_eq by exact Hy.
    apply nearest_above; [exact Ht | | exact Hle].
    apply nearest_fixed_divide; [lia|]. rewrite <- double_nonneg_eq by lia.
    exact Hfix.
  - rewrite double_neg_eq by lia.
    assert (JS.nearest (- y) <= - t); [|lia].
    apply nearest_below; [lia | | lia].
    apply nearest_fixed_divide; [lia|].
    rewrite double_neg_eq in Hfix by lia. lia.
Qed.


Lemma sub_exact (a b : Z) : Z.abs (a - b) <= 2 ^ 53 -> JS.sub a b = a - b.
Proof. apply double_exact. Qed.

Lemma add_is_double (a b : Z) : JS.double (JS.add a b) = JS.add a b.
Proof. apply double_idempotent. Qed.



(** ** Shared facts about sums, filters and the handlers *)







(** The fold of [JS.add] ends on a double. *)
Lemma fold_left_add_double (l : list Sighting.t) (a : Z) :
  JS.double a = a ->
  JS.double (fold_left (fun acc curr => JS.add acc (Sighting.count curr)) l a)
  = fold_left (fun acc curr => JS.add acc (Sighting.count curr)) l a.
Proof.
  revert a. induction l as [|x l IH]; intros a Ha; cbn [fold_left].
  - exact Ha.
  - apply IH, add_is_double.
Qed.






Lemma filter_all {A : Type} (f : A -> bool) (l : list A) :
  (forall x, In x l -> f x = true) -> List.filter f l = l.
Proof.
  induction l as [|x l IH]; simpl; intros H; [reflexivity|].
  rewrite (H x (or_introl eq_refl)). f_equal. apply IH. intros y Hy.
  apply H. now right.
Qed.


(** What [getCountForSpecies] computes: the fold of [JS.add] over the
    counts of the matching sightings, in the order of the log. *)
Lemma getCountForSpecies_with_sightings (session : Session.t) l id :
  getCountForSpecies (Session.with_sightings session l) id
  = fold_left (fun acc curr => JS.add acc (Sighting.count curr))
      (List.filter (fun s => (Sighting.speciesId s =? id)%string) l) 0.
Proof. reflexivity. Qed.


Lemma getCountForSpecies_double (session : Session.t) (id : string) :
  JS.double (getCountForSpecies session id) = getCountForSpecies session id.
Proof. apply fold_left_add_double. reflexivity. Qed.

Lemma with_sightings_same (session : Session.t) :
  Session.with_sightings session (Session.sightings session) = session.
Proof. destruct session; reflexivity. Qed.

Lemma with_sightings_twice (session : Session.t) l1 l2 :
  Session.with_sightings (Session.with_sightings session l1) l2
  = Session.with_sightings session l2.
Proof. reflexivity. Qed.

Lemma newSighting_with_sightings (session : Session.t) l env data :
  newSighting (Session.with_sightings session l) env data
  = newSighting session env data.
Proof. reflexivity. Qed.

Lemma newSighting_speciesId session env data :
  Sighting.speciesId (newSighting session env data) = Partial.speciesId data.
Proof. reflexivity. Qed.

Lemma newSighting_count session env data :
  Sighting.count (newSighting session env data) = Partial.count data.
Proof. reflexivity. Qed.

Lemma addSighting_active (session : Session.t) env data :
  Session.status session = active ->
  after session (addSighting session env data)
  = Session.with_sightings session
      (Session.sightings session ++ [newSighting session env data]).
Proof.
  intros Hact. unfold addSighting, isCompleted. rewrite Hact. reflexivity.
Qed.

Lemma addSighting_completed (session : Session.t) env data :
  Session.status session = completed ->
  addSighting session env data
  = [alert "Session is finished. Re-open to add counts."].
Proof.
  intros Hc. unfold addSighting, isCompleted. rewrite Hc. reflexivity.
Qed.


(** ** C1: the per-species total *)







(** ** C6: finish, then resume *)

Lemma same_data_refl (s : Session.t) : same_data s s.
Proof. unfold same_data. repeat split. Qed.

(** Resuming rewrites [status] and nothing else, [endTime] included. *)
Lemma resumeCounting_only_status (session : Session.t) :
  exists resumed,
    resumeCounting session = [onUpdateSession resumed]
    /\ Session.status resumed = active
    /\ Session.endTime resumed = Session.endTime session
    /\ same_data resumed session.
Proof.
  eexists. split; [reflexivity|]. unfold same_data. simpl. repeat split.
Qed.

(** C6.  On an active session, a confirmed finish sets [status] to
    [completed] and [endTime] to the time of day read from the clock; the
    resume that follows only sets [status] back to [active].  The session
    that results has the sightings, the metadata (name, date, start time,
    observers, notes, weather, coordinates) and the [syncStatus] of the
    original, the status of the original, and the [endTime] written by the
    finish, which the resume retains. *)
Theorem C6_finish_then_resume (session : Session.t) (env : Env) :
  Session.status session = active ->
  confirm env = true ->
  let finished := after session (handleToggleFinish session env) in
  let resumed := after finished (resumeCounting finished) in
  handleToggleFinish session env = [onUpdateSession finished]
  /\ Session.status finished = completed
  /\ Session.endTime finished = Some (toLocaleTimeString env)
  /\ same_data finished session
  /\ resumeCounting finished = [onUpdateSession resumed]
  /\ same_data resumed session
  /\ Session.status resumed = Session.status session
  /\ Session.endTime resumed = Some (toLocaleTimeString env).
Proof.
  intros Hact Hyes finished resumed.
  subst resumed finished. unfold handleToggleFinish. rewrite Hyes. simpl.
  unfold same_data. simpl. rewrite Hact. repeat split.
Qed.

Lemma C6_witness :
  Session.endTime
    (after (after fresh_session (handleToggleFinish fresh_session env_yes))
       (resumeCounting
          (after fresh_session (handleToggleFinish fresh_session env_yes))))
  = Some "09:15".
Proof.
  exact (proj2 (proj2 (proj2 (proj2 (proj2 (proj2 (proj2
           (C6_finish_then_resume fresh_session env_yes eq_refl eq_refl)))))))).
Defined.

(** ** C2: a finished session *)


(** [handleRecordDelete] never reads [status]: a confirmed delete filters the
    sightings of a finished session like those of an active one. *)
Lemma handleRecordDelete_ignores_status (session : Session.t) env id :
  confirm env = true ->
  handleRecordDelete session env id
  = [onUpdateSession
       (Session.with_sightings session
          (List.filter (fun s => negb (Sighting.id s =? id)%string)
             (Session.sightings session)))].
Proof. intros Hyes. unfold handleRecordDelete. now rewrite Hyes. Qed.




(** ** C5: append, then remove the new record *)

Lemma filter_id_app_new (l : list Sighting.t) (n : Sighting.t) :
  (forall s, In s l -> Sighting.id s <> Sighting.id n) ->
  List.filter (fun s => negb (Sighting.id s =? Sighting.id n)%string) (l ++ [n])
  = l.
Proof.
  intros Hfresh. rewrite List.filter_app. simpl.
  rewrite String.eqb_refl. simpl. rewrite app_nil_r.
  apply filter_all. intros s Hs. apply negb_true_iff, String.eqb_neq.
  now apply Hfresh.
Qed.

(** The condition is needed: when the new id is already taken, the delete
    removes more than the append added. *)
Lemma append_then_remove_clash (session : Session.t) (env env' : Env)
    (data : Partial.t) :
  Session.status session = active ->
  confirm env' = true ->
  (exists s, In s (Session.sightings session)
             /\ Sighting.id s = Sighting.id (newSighting session env data)) ->
  let appended := after session (addSighting session env data) in
  (length (Session.sightings
             (after appended
                (handleRecordDelete appended env'
                   (Sighting.id (newSighting session env data)))))
   < length (Session.sightings session))%nat.
Proof.
  intros Hact Hyes [s [Hin Hid]] appended. subst appended.
  rewrite addSighting_active by exact Hact.
  rewrite handleRecordDelete_ignores_status by exact Hyes.
  unfold after. cbn [fold_left Session.sightings Session.with_sightings].
  rewrite List.filter_app. cbn [List.filter]. rewrite String.eqb_refl.
  cbn [negb]. rewrite app_nil_r.
  set (f := fun x => negb (Sighting.id x =? Sighting.id (newSighting session env data))%string).
  assert (Hf : f s = false) by (unfold f; rewrite Hid, String.eqb_refl; reflexivity).
  clear Hact. induction (Session.sightings session) as [|x l IH]; [destruct Hin|].
  cbn [List.filter length]. destruct Hin as [->|Hin].
  - rewrite Hf. pose proof (List.filter_length_le f l). lia.
  - specialize (IH Hin). destruct (f x); cbn [length]; lia.
Qed.

(** C5 as stated fails when the generated id is already taken: on
    [clash_session] the append creates a second record with id
    ["1700000000500123"], and removing that id removes both. *)
Lemma C5_counterexample :
  Session.status clash_session = active
  /\ let data := Partial.simple "2221" 1 in
     let appended := after clash_session (addSighting clash_session env_yes data) in
     let created := newSighting clash_session env_yes data in
     Session.sightings appended = (Session.sightings clash_session ++ [created])%list
     /\ Session.sightings
          (after appended (handleRecordDelete appended env_yes (Sighting.id created)))
        <> Session.sightings clash_session.
Proof.
  split; [reflexivity|]. split; [reflexivity|]. vm_compute. discriminate.
Qed.

(** C5 (amended).  On an active session, when the id of the sighting created
    by [addSighting] differs from the id of every sighting already in the
    session, a confirmed [handleRecordDelete] of that id gives back the
    session as it was before the append. *)
Theorem C5_append_then_remove (session : Session.t) (env env' : Env)
    (data : Partial.t) :
  Session.status session = active ->
  confirm env' = true ->
  (forall s, In s (Session.sightings session) ->
             Sighting.id s <> Sighting.id (newSighting session env data)) ->
  let appended := after session (addSighting session env data) in
  let created := newSighting session env data in
  Session.sightings appended = (Session.sightings session ++ [created])%list
  /\ after appended (handleRecordDelete appended env' (Sighting.id created))
     = session.
Proof.
  intros Hact Hyes Hfresh appended created. subst appended created.
  rewrite addSighting_active by exact Hact. split; [reflexivity|].
  rewrite handleRecordDelete_ignores_status by exact Hyes.
  unfold after. cbn [fold_left]. rewrite with_sightings_twice.
  cbn [Session.sightings Session.with_sightings].
  rewrite filter_id_app_new by exact Hfresh.
  apply with_sightings_same.
Qed.

Lemma C5_witness :
  Session.sightings edited_session
  = [ plain_sighting "1700000000200111" "2221" 1;
      plain_sighting "1700000000300222" "189" 2 ]
  /\ after (after edited_session
              (addSighting edited_session env_yes (Partial.simple "2221" 1)))
        (handleRecordDelete
           (after edited_session
              (addSighting edited_session env_yes (Partial.simple "2221" 1)))
           env_yes
           (Sighting.id (newSighting edited_session env_yes (Partial.simple "2221" 1))))
     = edited_session.
Proof.
  split; [reflexivity|].
  refine (proj2 (C5_append_then_remove edited_session env_yes env_yes
                   (Partial.simple "2221" 1) eq_refl eq_refl _)).
  intros s [<-|[<-|[]]]; vm_compute; discriminate.
Defined.

(** ** C8: running totals in trip mode *)

(** The total after one more record: the double sum of the old total and
    the new count, for the species of the record. *)
Lemma getCountForSpecies_append (session : Session.t) (n : Sighting.t) id :
  getCountForSpecies
    (Session.with_sightings session (Session.sightings session ++ [n])) id
  = if (Sighting.speciesId n =? id)%string
    then JS.add (getCountForSpecies session id) (Sighting.count n)
    else getCountForSpecies session id.
Proof.
  unfold getCountForSpecies. cbn [Session.sightings Session.with_sightings].
  rewrite List.filter_app. cbn [List.filter].
  destruct (Sighting.speciesId n =? id)%string.
  - now rewrite fold_left_app.
  - now rewrite app_nil_r.
Qed.







(** ** C10: the location history *)

Lemma existsb_eqb_In (x : string) (l : list string) :
  existsb (String.eqb x) l = true <-> In x l.
Proof.
  rewrite existsb_exists. split.
  - intros [y [Hy Heq]]. apply String.eqb_eq in Heq. now subst.
  - intros Hx. exists x. split; [exact Hx | apply String.eqb_refl].
Qed.

Lemma truthy_string_nonempty (s : string) :
  JS.truthy_string s = true <-> s <> "".
Proof.
  unfold JS.truthy_string. rewrite negb_true_iff. apply String.eqb_neq.
Qed.

Lemma ListNoDup_firstn {A : Type} (n : nat) (l : list A) :
  List.NoDup l -> List.NoDup (firstn n l).
Proof.
  intros Hnd. rewrite <- (firstn_skipn n l) in Hnd.
  now apply NoDup_app_remove_r in Hnd.
Qed.

Lemma In_firstn {A : Type} (n : nat) (l : list A) (x : A) :
  In x (firstn n l) -> In x l.
Proof.
  intros Hx. rewrite <- (firstn_skipn n l). apply in_or_app. now left.
Qed.

(** What one creation does to the history. *)
Lemma handleStartSession_history (name : string) (newSession : JS.value)
    (st : AppState) :
  (name <> "" -> ~ In name (locationHistory st) ->
   locationHistory (handleStartSession name newSession st)
   = firstn 10 (name :: locationHistory st))
  /\ (name = "" \/ In name (locationHistory st) ->
      locationHistory (handleStartSession name newSession st)
      = locationHistory st).
Proof.
  unfold handleStartSession. simpl. split.
  - intros Hne Hnew. apply truthy_string_nonempty in Hne. rewrite Hne.
    destruct (existsb (String.eqb name) (locationHistory st)) eqn:He.
    + apply existsb_eqb_In in He. contradiction.
    + reflexivity.
  - intros [->|Hin]; [reflexivity|].
    apply existsb_eqb_In in Hin. rewrite Hin.
    now rewrite andb_false_r.
Qed.

Lemma handleStartSession_keeps_shape (name : string) (newSession : JS.value)
    (st : AppState) :
  List.NoDup (locationHistory st) ->
  (length (locationHistory st) <= 10)%nat ->
  List.NoDup (locationHistory (handleStartSession name newSession st))
  /\ (length (locationHistory (handleStartSession name newSession st)) <= 10)%nat.
Proof.
  intros Hnd Hlen. unfold handleStartSession. cbn [locationHistory].
  destruct (JS.truthy_string name
            && negb (existsb (String.eqb name) (locationHistory st))) eqn:Hc.
  - apply andb_true_iff in Hc. destruct Hc as [_ Hc].
    apply negb_true_iff in Hc. split.
    + apply ListNoDup_firstn. constructor; [|exact Hnd].
      intros Hin. apply existsb_eqb_In in Hin. congruence.
    + rewrite length_firstn. lia.
  - now split.
Qed.

Lemma startSessions_shape (calls : list (string * JS.value)) (st : AppState) :
  List.NoDup (locationHistory st) ->
  (length (locationHistory st) <= 10)%nat ->
  List.NoDup (locationHistory (startSessions calls st))
  /\ (length (locationHistory (startSessions calls st)) <= 10)%nat.
Proof.
  unfold startSessions. revert st.
  induction calls as [|c calls IH]; intros st Hnd Hlen; simpl.
  - now split.
  - destruct (handleStartSession_keeps_shape (fst c) (snd c) st Hnd Hlen).
    now apply IH.
Qed.

Lemma startSessions_names (calls : list (string * JS.value)) (st : AppState) n :
  In n (locationHistory (startSessions calls st)) ->
  In n (locationHistory st) \/ (In n (List.map fst calls) /\ n <> "").
Proof.
  unfold startSessions. revert st.
  induction calls as [|c calls IH]; intros st Hin; simpl in *.
  - now left.
  - apply IH in Hin. destruct Hin as [Hin|[Hin Hne]].
    + unfold handleStartSession in Hin. cbn [locationHistory] in Hin.
      destruct (JS.truthy_string (fst c)
                && negb (existsb (String.eqb (fst c)) (locationHistory st)))
        eqn:Hc.
      * apply In_firstn in Hin. destruct Hin as [<-|Hin]; [|now left].
        apply andb_true_iff in Hc. destruct Hc as [Hc _].
        apply truthy_string_nonempty in Hc. right. split; [now left | exact Hc].
      * now left.
    + right. split; [now right | exact Hne].
Qed.

(** The first entries of a list, once the list it is appended to has been
    cut to as many. *)
Lemma firstn_app_firstn {A : Type} (n : nat) (l1 l2 : list A) :
  firstn n (l1 ++ firstn n l2) = firstn n (l1 ++ l2).
Proof.
  rewrite !firstn_app. f_equal. rewrite firstn_firstn. f_equal. lia.
Qed.

(** One creation changes the history exactly when it puts its name first. *)
Lemma entered_step (name : string) (newSession : JS.value) (st : AppState) :
  (if List.list_eq_dec String.string_dec
        (locationHistory (handleStartSession name newSession st))
        (locationHistory st)
   then [] else [name])
  = if JS.truthy_string name
       && negb (existsb (String.eqb name) (locationHistory st))
    then [name] else [].
Proof.
  unfold handleStartSession. cbn [locationHistory].
  destruct (JS.truthy_string name
            && negb (existsb (String.eqb name) (locationHistory st))) eqn:Hc.
  - destruct (List.list_eq_dec _ _ _) as [E|_]; [|reflexivity]. exfalso.
    apply andb_true_iff in Hc. destruct Hc as [_ Hc].
    apply negb_true_iff in Hc.
    assert (Hin : In name (locationHistory st))
      by (rewrite <- E; now left).
    apply existsb_eqb_In in Hin. congruence.
  - destruct (List.list_eq_dec _ _ _) as [_|N]; [reflexivity|]. now contradiction N.
Qed.

(** The history after a run: the names that entered it, latest first, in
    front of the older entries, cut to 10. *)
Lemma startSessions_entered (calls : list (string * JS.value)) (st : AppState) :
  (length (locationHistory st) <= 10)%nat ->
  locationHistory (startSessions calls st)
  = firstn 10 (rev (entered calls st) ++ locationHistory st).
Proof.
  unfold startSessions. revert st.
  induction calls as [|c calls IH]; intros st Hlen; cbn [fold_left entered].
  - cbn [rev app]. symmetry. now apply firstn_all2.
  - rewrite IH.
    2:{ unfold handleStartSession. cbn [locationHistory].
        destruct (_ && _); [rewrite length_firstn; lia | exact Hlen]. }
    rewrite entered_step. unfold handleStartSession at 2. cbn [locationHistory].
    destruct (JS.truthy_string (fst c)
              && negb (existsb (String.eqb (fst c)) (locationHistory st))).
    + rewrite firstn_app_firstn. cbn [app rev]. now rewrite <- app_assoc.
    + reflexivity.
Qed.

Lemma entered_snoc (calls : list (string * JS.value)) (c : string * JS.value)
    (st : AppState) :
  entered (calls ++ [c]) st
  = (entered calls st ++ entered [c] (startSessions calls st))%list.
Proof.
  unfold startSessions. revert st.
  induction calls as [|c0 calls IH]; intros st; [reflexivity|].
  cbn [app entered fold_left]. rewrite IH. now rewrite app_assoc.
Qed.

(** C10 as stated fails when a name is used again: after creating sessions
    at "Anzali Lagoon", "Miankaleh" and "Anzali Lagoon" the history still
    starts with "Miankaleh", although "Anzali Lagoon" was used last. *)
Lemma C10_counterexample :
  lastUsedName sample_creations = Some "Anzali Lagoon"
  /\ locationHistory (startSessions sample_creations initialApp)
     = ["Miankaleh"; "Anzali Lagoon"]
  /\ head (locationHistory (startSessions sample_creations initialApp))
     <> lastUsedName sample_creations.
Proof.
  split; [reflexivity|]. split; [reflexivity|]. vm_compute. discriminate.
Qed.

(** C10 (amended).  After any run of session creations from the initial
    state the location history holds distinct, non-empty location names that
    were used by the run, at most 10 of them, and holds them in the order in
    which they entered it, latest first: it is the list of the names of the
    creations that changed it, reversed and cut to 10.  One creation with a
    non-empty name that is not in the history changes it: the name is put
    first and the first 10 entries are kept.  A creation with an empty name
    or with a name already in the history leaves the history as it is, so
    that a name used again keeps its place. *)
Theorem C10_location_history (calls : list (string * JS.value)) :
  let history := locationHistory (startSessions calls initialApp) in
  List.NoDup history
  /\ (length history <= 10)%nat
  /\ (forall n, In n history -> In n (List.map fst calls) /\ n <> "")
  /\ history = firstn 10 (rev (entered calls initialApp))
  /\ (forall name newSession,
        let st := startSessions calls initialApp in
        let history' := locationHistory (handleStartSession name newSession st) in
        (name <> "" -> ~ In name history ->
         history' = firstn 10 (name :: history)
         /\ head history' = Some name
         /\ entered (calls ++ [(name, newSession)]) initialApp
            = (entered calls initialApp ++ [name])%list)
        /\ (name = "" \/ In name history ->
            history' = history
            /\ entered (calls ++ [(name, newSession)]) initialApp
               = entered calls initialApp)).
Proof.
  intros history.
  destruct (startSessions_shape calls initialApp) as [Hnd Hlen];
    [constructor | simpl; lia |].
  split; [exact Hnd|]. split; [exact Hlen|]. split.
  { intros n Hn. apply startSessions_names in Hn.
    destruct Hn as [[]|Hn]. exact Hn. }
  split.
  { subst history. rewrite startSessions_entered by (simpl; lia).
    cbn [initialApp locationHistory]. now rewrite app_nil_r. }
  intros name newSession st history'.
  destruct (handleStartSession_history name newSession st) as [Hnew Hold].
  rewrite entered_snoc. cbn [entered]. rewrite entered_step, app_nil_r.
  cbn [fst snd]. fold st. split.
  - intros Hne Hfresh. subst history'. rewrite (Hnew Hne Hfresh).
    split; [reflexivity|]. split; [reflexivity|].
    apply truthy_string_nonempty in Hne. rewrite Hne.
    destruct (existsb (String.eqb name) (locationHistory st)) eqn:He;
      [apply existsb_eqb_In in He; contradiction | reflexivity].
  - intros Hcase. split; [now apply Hold|].
    destruct Hcase as [->|Hin]; [now rewrite app_nil_r|].
    apply existsb_eqb_In in Hin.
    change (existsb (String.eqb name) (locationHistory st) = true) in Hin.
    rewrite Hin, andb_false_r. now rewrite app_nil_r.
Qed.

Lemma C10_witness :
  locationHistory
    (handleStartSession "Gilan" blank_session
       (startSessions sample_creations initialApp))
  = firstn 10 ("Gilan"
               :: locationHistory (startSessions sample_creations initialApp)).
Proof.
  refine (proj1 (proj1 (proj2 (proj2 (proj2 (proj2
            (C10_location_history sample_creations)))) "Gilan" blank_session)
            _ _)).
  - discriminate.
  - vm_compute. intros [H|[H|[]]]; discriminate H.
Defined.

(** After eleven locations the first one has left the history; used once
    more, it enters again and stands first. *)
Example history_of_eleven_then_first :
  locationHistory (startSessions eleven_then_first initialApp)
  = ["L1"; "L11"; "L10"; "L9"; "L8"; "L7"; "L6"; "L5"; "L4"; "L3"].
Proof. reflexivity. Qed.

(** ** Facts about [sort] *)

Section SortFacts.
Context {A : Type} (cmp : A -> A -> Z).

Lemma insert_Permutation (x : A) (l : list A) :
  Permutation (JS.insert cmp x l) (x :: l).
Proof.
  induction l as [|y l IH]; simpl; [reflexivity|].
  destruct (0 <? cmp x y); [|reflexivity].
  rewrite IH. apply perm_swap.
Qed.

Lemma sort_Permutation (l : list A) : Permutation (JS.sort cmp l) l.
Proof.
  unfold JS.sort. induction l as [|x l IH]; simpl; [reflexivity|].
  rewrite insert_Permutation. now constructor.
Qed.

Lemma sort_In (l : list A) (x : A) : In x (JS.sort cmp l) <-> In x l.
Proof.
  split; apply Permutation_in;
    [apply sort_Permutation | symmetry; apply sort_Permutation].
Qed.

(** On a set of elements where the comparator is total and transitive the
    result is sorted. *)
Section Sorted.
Variable P : A -> Prop.
Hypothesis cmp_total :
  forall a b, P a -> P b -> 0 < cmp a b -> cmp b a <= 0.
Hypothesis cmp_trans :
  forall a b c, P a -> P b -> P c ->
                cmp a b <= 0 -> cmp b c <= 0 -> cmp a c <= 0.

Lemma insert_sorted (x : A) (l : list A) :
  P x -> Forall P l ->
  StronglySorted (fun a b => cmp a b <= 0) l ->
  StronglySorted (fun a b => cmp a b <= 0) (JS.insert cmp x l).
Proof.
  intros Px HP Hs. induction Hs as [|y l Hs IH Hy]; simpl.
  - repeat constructor.
  - apply List.Forall_cons_iff in HP. destruct HP as [Py HP].
    destruct (Z.ltb_spec 0 (cmp x y)) as [Hgt|Hle].
    + constructor; [now apply IH|].
      apply List.Forall_forall. intros z Hz.
      apply (Permutation_in _ (insert_Permutation x l)) in Hz.
      destruct Hz as [<-|Hz]; [now apply cmp_total|].
      rewrite List.Forall_forall in Hy. now apply Hy.
    + constructor; [now constructor|].
      constructor; [exact Hle|].
      rewrite List.Forall_forall in Hy, HP |- *. intros z Hz.
      apply (cmp_trans x y z); auto.
Qed.

Lemma sort_sorted (l : list A) :
  Forall P l -> StronglySorted (fun a b => cmp a b <= 0) (JS.sort cmp l).
Proof.
  unfold JS.sort. induction l as [|x l IH]; intros HP; simpl.
  - constructor.
  - apply List.Forall_cons_iff in HP. destruct HP as [Px HP].
    apply insert_sorted; auto.
    apply List.Forall_forall. intros z Hz.
    apply (proj1 (sort_In l z)) in Hz.
    rewrite List.Forall_forall in HP. now apply HP.
Qed.
End Sorted.


End SortFacts.

(** ** Facts about objects *)

Lemma get_set_eq {V : Type} (k : string) (v : V) (o : JS.object V) :
  JS.get k (JS.set k v o) = Some v.
Proof.
  induction o as [|[k' v'] o IH]; simpl.
  - now rewrite String.eqb_refl.
  - destruct (k' =? k)%string eqn:E; simpl.
    + now rewrite String.eqb_refl.
    + now rewrite E.
Qed.

Lemma get_set_ne {V : Type} (k k' : string) (v : V) (o : JS.object V) :
  k <> k' -> JS.get k (JS.set k' v o) = JS.get k o.
Proof.
  intros Hne. induction o as [|[k0 v0] o IH]; simpl.
  - destruct (String.eqb_spec k' k); congruence.
  - destruct (String.eqb_spec k0 k') as [->|Hk0]; simpl.
    + destruct (String.eqb_spec k' k); congruence.
    + destruct (String.eqb_spec k0 k); congruence.
Qed.

Lemma get_In {V : Type} (k : string) (v : V) (o : JS.object V) :
  JS.get k o = Some v -> In (k, v) o.
Proof.
  induction o as [|[k' v'] o IH]; simpl; [discriminate|].
  destruct (String.eqb_spec k' k) as [->|Hne].
  - intros [= ->]. now left.
  - intros H. right. now apply IH.
Qed.

Lemma get_None {V : Type} (k : string) (o : JS.object V) :
  JS.get k o = None <-> ~ In k (List.map fst o).
Proof.
  induction o as [|[k' v'] o IH]; simpl; [tauto|].
  destruct (String.eqb_spec k' k) as [->|Hne].
  - split; [discriminate | intros H; exfalso; apply H; now left].
  - rewrite IH. tauto.
Qed.

(** With distinct keys, reading is membership. *)
Lemma In_get {V : Type} (k : string) (v : V) (o : JS.object V) :
  List.NoDup (List.map fst o) -> In (k, v) o -> JS.get k o = Some v.
Proof.
  induction o as [|[k' v'] o IH]; simpl; [tauto|].
  intros Hnd Hin. apply List.NoDup_cons_iff in Hnd. destruct Hnd as [Hk' Hnd].
  destruct (String.eqb_spec k' k) as [->|Hne].
  - destruct Hin as [[= ->]|Hin]; [reflexivity|].
    exfalso. apply Hk'. apply in_map_iff. now exists (k, v).
  - destruct Hin as [[= -> ->]|Hin]; [congruence|]. now apply IH.
Qed.

Lemma filter_partition_Permutation {A : Type} (f : A -> bool) (l : list A) :
  Permutation (List.filter f l ++ List.filter (fun x => negb (f x)) l) l.
Proof.
  induction l as [|x l IH]; simpl; [reflexivity|].
  destruct (f x); simpl.
  - now constructor.
  - rewrite <- Permutation_middle. now constructor.
Qed.

Lemma Object_entries_Permutation {V : Type} (o : JS.object V) :
  Permutation (JS.Object_entries o) o.
Proof.
  unfold JS.Object_entries. rewrite sort_Permutation.
  apply filter_partition_Permutation.
Qed.

(** Enumeration does not change what a key reads. *)
Lemma get_Object_entries {V : Type} (k : string) (o : JS.object V) :
  List.NoDup (List.map fst o) ->
  JS.get k (JS.Object_entries o) = JS.get k o.
Proof.
  intros Hnd.
  assert (Hnd' : List.NoDup (List.map fst (JS.Object_entries o))).
  { eapply Permutation_NoDup; [|exact Hnd].
    apply Permutation_map. symmetry. apply Object_entries_Permutation. }
  destruct (JS.get k o) as [v|] eqn:Hget.
  - apply In_get; [exact Hnd'|].
    eapply Permutation_in; [symmetry; apply Object_entries_Permutation|].
    now apply get_In.
  - apply get_None. apply get_None in Hget. intros Hin. apply Hget.
    eapply Permutation_in; [|exact Hin].
    apply Permutation_map, Object_entries_Permutation.
Qed.

(** ** C9: importing a session file *)

Lemma truthy_prop_object (k : string) (json : JS.value) :
  JS.truthy (JS.prop k json) = true ->
  exists props, json = JS.VObject props /\ JS.prop k json <> None.
Proof.
  destruct json; simpl; try discriminate.
  intros H. eexists. split; [reflexivity|].
  destruct (JS.get k props); [discriminate | discriminate H].
Qed.

(** What an accepted import stores. *)
Lemma handleFileImport_accepts (nts : Q -> string) (props : list (string * JS.value))
    (now : Z) (st : AppState) (name : string) :
  JS.truthy (JS.get "id" props) = true ->
  JS.truthy (JS.get "sightings" props) = true ->
  JS.ToString nts (JS.get "name" props) = Some name ->
  handleFileImport nts (Some (JS.VObject props)) now st
  = (mkApp
       (JS.VObject
          (JS.set "name" (JS.VString (name ++ " (Imported)")%string)
             (JS.set "id" (JS.VString (JS.toString now)) (JS.Object_entries props)))
        :: sessions st)
       (locationHistory st),
     "Session imported successfully!").
Proof.
  intros Hid Hs Hn. unfold handleFileImport. cbn [JS.prop JS.spread].
  now rewrite Hid, Hs, Hn.
Qed.

(** A name that cannot be printed fails the import. *)
Lemma handleFileImport_unprintable (nts : Q -> string)
    (props : list (string * JS.value)) (now : Z) (st : AppState) :
  JS.truthy (JS.get "id" props) = true ->
  JS.truthy (JS.get "sightings" props) = true ->
  JS.ToString nts (JS.get "name" props) = None ->
  handleFileImport nts (Some (JS.VObject props)) now st
  = (st, "Failed to parse file.").
Proof.
  intros Hid Hs Hn. unfold handleFileImport. cbn [JS.prop JS.spread].
  now rewrite Hid, Hs, Hn.
Qed.

(** The import never succeeds without a parsed document that owns [id] and
    [sightings]; whenever it does not succeed, the state is the one it was
    given and the message is one of the two errors. *)
Lemma handleFileImport_outcomes (nts : Q -> string) (parsed : option JS.value)
    (now : Z) (st : AppState) :
  (exists json props name,
     parsed = Some json /\ json = JS.VObject props
     /\ JS.truthy (JS.get "id" props) = true
     /\ JS.truthy (JS.get "sightings" props) = true
     /\ JS.ToString nts (JS.get "name" props) = Some name
     /\ snd (handleFileImport nts parsed now st)
        = "Session imported successfully!")
  \/ (fst (handleFileImport nts parsed now st) = st
      /\ (snd (handleFileImport nts parsed now st) = "Failed to parse file."
          \/ snd (handleFileImport nts parsed now st) = "Invalid file format.")).
Proof.
  destruct parsed as [json|]; [|right; split; [reflexivity | now left]].
  destruct (JS.truthy (JS.prop "id" json)) eqn:Hid;
    [destruct (JS.truthy (JS.prop "sightings" json)) eqn:Hs|].
  - destruct (truthy_prop_object _ _ Hid) as [props [-> _]].
    cbn [JS.prop] in Hid, Hs.
    destruct (JS.ToString nts (JS.get "name" props)) as [name|] eqn:Hn.
    + left. exists (JS.VObject props), props, name.
      rewrite (handleFileImport_accepts nts props now st name Hid Hs Hn).
      repeat split; assumption.
    + right. rewrite (handleFileImport_unprintable nts props now st Hid Hs Hn).
      split; [reflexivity | now left].
  - right. unfold handleFileImport. rewrite Hid, Hs.
    destruct json; cbn [fst snd]; split; auto.
  - right. unfold handleFileImport. rewrite Hid.
    destruct json; cbn [fst snd andb]; split; auto.
Qed.

(** Which names can be printed. *)
Lemma ToString_cases (nts : Q -> string) (v : option JS.value) :
  (forall props,
     v = Some (JS.VObject props) ->
     (JS.ToString nts v = None <-> JS.get "toString" props <> None))
  /\ (forall name,
        v = Some name ->
        (forall items, name <> JS.VArray items) ->
        (forall props, name <> JS.VObject props) ->
        JS.ToString nts v <> None)
  /\ (v = None -> JS.ToString nts v <> None).
Proof.
  split; [|split].
  - intros ps ->. cbn [JS.ToString JS.value_toString].
    destruct (JS.get "toString" ps); split; congruence.
  - intros name -> Harr Hobj. cbn [JS.ToString].
    destruct name as [|[|]| | | |]; cbn; try discriminate;
      [now contradiction (Harr items) | now contradiction (Hobj props)].
  - intros ->. discriminate.
Qed.

(** C9.  [handleFileImport] reports success only for a parsed document that
    has an [id] and a [sightings] field.  It then puts in front of the
    collection a copy of the document whose [id] is the clock reading
    printed as a string and whose [name] is the printed name of the
    document, which for a string is that string and for a missing name is
    ["undefined"], followed by [" (Imported)"]; the other fields are those
    of the document, and every session that was there is kept, in place.
    When the text does not parse, or a required field is missing, it alerts
    an error and returns the state it was given.  With both fields reading
    as true values it succeeds exactly when the name can be printed, and
    otherwise alerts the parse error and returns the state it was given: a
    missing name and a name that is null, a boolean, a number or a string
    can always be printed, and an object can exactly when it owns no
    property [toString]. *)
Theorem C9_import (nts : Q -> string) (parsed : option JS.value) (now : Z)
    (st : AppState) :
  let result := handleFileImport nts parsed now st in
  (snd result = "Session imported successfully!" ->
   exists json imported name,
     parsed = Some json
     /\ JS.prop "id" json <> None
     /\ JS.prop "sightings" json <> None
     /\ sessions (fst result) = imported :: sessions st
     /\ locationHistory (fst result) = locationHistory st
     /\ JS.prop "id" imported = Some (JS.VString (JS.toString now))
     /\ JS.prop "name" imported
        = Some (JS.VString (name ++ " (Imported)")%string)
     /\ (forall s, JS.prop "name" json = Some (JS.VString s) -> name = s)
     /\ (JS.prop "name" json = None -> name = "undefined")
     /\ (distinct_keys json ->
         forall k, k <> "id" -> k <> "name" ->
                   JS.prop k imported = JS.prop k json))
  /\ (snd result <> "Session imported successfully!" ->
      fst result = st
      /\ (snd result = "Failed to parse file."
          \/ snd result = "Invalid file format."))
  /\ (parsed = None ->
      fst result = st /\ snd result = "Failed to parse file.")
  /\ (forall json,
        parsed = Some json ->
        JS.prop "id" json = None \/ JS.prop "sightings" json = None ->
        fst result = st /\ snd result <> "Session imported successfully!")
  /\ (forall json,
        parsed = Some json ->
        JS.truthy (JS.prop "id" json) = true ->
        JS.truthy (JS.prop "sightings" json) = true ->
        (JS.ToString nts (JS.prop "name" json) <> None ->
         snd result = "Session imported successfully!")
        /\ (JS.ToString nts (JS.prop "name" json) = None ->
            fst result = st /\ snd result = "Failed to parse file.")
        /\ (forall props,
              JS.prop "name" json = Some (JS.VObject props) ->
              (JS.ToString nts (JS.prop "name" json) = None
               <-> JS.get "toString" props <> None))
        /\ (forall name,
              JS.prop "name" json = Some name ->
              (forall items, name <> JS.VArray items) ->
              (forall props, name <> JS.VObject props) ->
              JS.ToString nts (JS.prop "name" json) <> None)
        /\ (JS.prop "name" json = None ->
            JS.ToString nts (JS.prop "name" json) <> None)).
Proof.
  intros result. subst result.
  destruct (handleFileImport_outcomes nts parsed now st)
    as [(json & props & name & -> & -> & Hid & Hs & Hn & Hok)|[Hst Hmsg]].
  - (* accepted *)
    rewrite (handleFileImport_accepts nts props now st name Hid Hs Hn).
    cbn [fst snd sessions locationHistory]. split.
    { intros _. exists (JS.VObject props). eexists. exists name.
      split; [reflexivity|]. cbn [JS.prop].
      split; [destruct (JS.get "id" props); [discriminate | discriminate Hid]|].
      split; [destruct (JS.get "sightings" props);
              [discriminate | discriminate Hs]|].
      split; [reflexivity|]. split; [reflexivity|]. cbn [JS.prop]. split.
      { rewrite get_set_ne by discriminate. apply get_set_eq. }
      split; [apply get_set_eq|]. split.
      { intros s Es. rewrite Es in Hn. cbn in Hn. congruence. }
      split.
      { intros Es. rewrite Es in Hn. cbn in Hn. congruence. }
      intros Hnd k Hk1 Hk2. rewrite !get_set_ne by congruence.
      now apply get_Object_entries. }
    split; [intros H; now contradiction H|].
    split; [discriminate|]. split.
    { intros json [= <-] [H|H]; cbn [JS.prop] in H.
      - rewrite H in Hid. discriminate Hid.
      - rewrite H in Hs. discriminate Hs. }
    intros json [= <-] _ _. cbn [JS.prop]. split; [reflexivity|].
    split; [intros E; rewrite E in Hn; discriminate Hn|].
    apply ToString_cases.
  - (* refused *)
    split.
    { intros H. exfalso. destruct Hmsg as [E|E]; rewrite E in H; discriminate H. }
    split; [intros _; now split|].
    split.
    { intros ->. split; [reflexivity | reflexivity]. }
    split.
    { intros json _ _. split; [exact Hst|].
      destruct Hmsg as [E|E]; rewrite E; discriminate. }
    intros json -> Hid Hs.
    destruct (truthy_prop_object _ _ Hid) as [props [-> _]].
    cbn [JS.prop] in *.
    split; [|split; [|apply ToString_cases]].
    + intros Hn.
      destruct (JS.ToString nts (JS.get "name" props)) as [name|] eqn:En;
        [|now contradiction Hn].
      rewrite (handleFileImport_accepts nts props now st name Hid Hs En) in Hmsg.
      destruct Hmsg as [E|E]; discriminate E.
    + intros Hn.
      rewrite (handleFileImport_unprintable nts props now st Hid Hs Hn).
      now split.
Qed.

Lemma C9_witness :
  fst (handleFileImport print_integral (Some document_without_sightings)
         1700000000900 sample_app)
  = sample_app
  /\ snd (handleFileImport print_integral (Some document_without_sightings)
            1700000000900 sample_app)
     <> "Session imported successfully!".
Proof.
  refine (proj1 (proj2 (proj2 (proj2
            (C9_import print_integral (Some document_without_sightings)
               1700000000900 sample_app))))
            document_without_sightings eq_refl _).
  right. reflexivity.
Defined.

(** An exported session comes back under a new id and a marked name. *)
Example import_exported_document :
  handleFileImport print_integral (Some exported_document) 1700000000900 sample_app
  = (mkApp
       [ JS.VObject
           [ ("id", JS.VString "1700000000900");
             ("name", JS.VString "Anzali Lagoon (Imported)");
             ("status", JS.VString "completed");
             ("sightings", JS.VArray []) ];
         document_without_sightings ]
       ["Anzali Lagoon"],
     "Session imported successfully!").
Proof. reflexivity. Qed.

(** A document with an [id], with [sightings], and with a name that owns a
    property [toString] is reported as a text that does not parse. *)
Example import_unprintable_name :
  handleFileImport print_integral (Some document_with_unprintable_name)
    1700000000900 sample_app
  = (sample_app, "Failed to parse file.").
Proof. reflexivity. Qed.

(** ** C7: editing a record *)

(** *** The time control and the clock *)

Lemma parses_back_all :
  forallb (fun h => forallb (fun m => parses_back (Z.of_nat h) (Z.of_nat m))
                      (seq 0 60))
    (seq 0 24) = true.
Proof. vm_compute. reflexivity. Qed.

(** What [handleSaveEdit] reads back from a time of day is that time. *)
Lemma parse_timeControl (h m : Z) :
  0 <= h < 24 -> 0 <= m < 60 ->
  JS.truthy_string (timeControl h m) = true
  /\ List.map JS.Number (JS.split ":" (timeControl h m)) = [Some h; Some m].
Proof.
  intros Hh Hm.
  assert (Hb : parses_back h m = true).
  { pose proof parses_back_all as Hall.
    rewrite forallb_forall in Hall.
    specialize (Hall (Z.to_nat h)).
    rewrite forallb_forall in Hall.
    specialize (fun H => Hall H (Z.to_nat m)).
    rewrite !Z2Nat.id in Hall by lia.
    apply Hall; apply in_seq; lia. }
  unfold parses_back in Hb. apply andb_true_iff in Hb. destruct Hb as [Ht Hp].
  split; [exact Ht|].
  destruct (List.map JS.Number (JS.split ":" (timeControl h m)))
    as [|[h'|] [|[m'|] [|? ?]]]; try discriminate.
  apply andb_true_iff in Hp. destruct Hp as [H1 H2].
  apply Z.eqb_eq in H1, H2. now subst.
Qed.

Lemma fields_range (t : Z) :
  0 <= JS.HourFromTime t < 24 /\ 0 <= JS.MinFromTime t < 60
  /\ 0 <= JS.SecFromTime t < 60 /\ 0 <= JS.msFromTime t < 1000.
Proof.
  unfold JS.HourFromTime, JS.MinFromTime, JS.SecFromTime, JS.msFromTime.
  repeat split; try (apply Z.mod_pos_bound; lia).
Qed.

Lemma MakeDate_fields (D h m s ms : Z) :
  0 <= h < 24 -> 0 <= m < 60 -> 0 <= s < 60 -> 0 <= ms < 1000 ->
  let t := JS.MakeDate D (JS.MakeTime h m s ms) in
  JS.Day t = D /\ JS.HourFromTime t = h /\ JS.MinFromTime t = m
  /\ JS.SecFromTime t = s /\ JS.msFromTime t = ms.
Proof.
  intros Hh Hm Hs Hms t. subst t.
  unfold JS.MakeDate, JS.MakeTime, JS.Day, JS.HourFromTime, JS.MinFromTime,
    JS.SecFromTime, JS.msFromTime, JS.msPerDay, JS.msPerHour, JS.msPerMinute.
  repeat split; Z.to_euclidean_division_equations; lia.
Qed.

Lemma MakeDate_decompose (t : Z) :
  JS.MakeDate (JS.Day t)
    (JS.MakeTime (JS.HourFromTime t) (JS.MinFromTime t) (JS.SecFromTime t)
       (JS.msFromTime t)) = t.
Proof.
  unfold JS.MakeDate, JS.MakeTime, JS.Day, JS.HourFromTime, JS.MinFromTime,
    JS.SecFromTime, JS.msFromTime, JS.msPerDay, JS.msPerHour, JS.msPerMinute.
  Z.to_euclidean_division_equations; lia.
Qed.

Lemma TimeClip_in_range (t : Z) :
  Z.abs t <= 8640000000000000 -> JS.TimeClip t = Some t.
Proof.
  intros H. unfold JS.TimeClip. apply Z.leb_le in H. now rewrite H.
Qed.

Lemma is_date_TimeClip (t : Z) : is_date t -> JS.TimeClip t = Some t.
Proof. apply TimeClip_in_range. Qed.

Section ZoneFacts.
Variable LocalTZA : Z -> bool -> Z.

(** Setting the hours to [h] and then the minutes to [m] moves a date to
    [h]:[m] of the same local day and keeps its seconds and
    milliseconds, when the zone has the local time that stands between
    the two steps. *)
Lemma set_time_of_day (t h m : Z) :
  0 <= h < 24 -> 0 <= m < 60 ->
  zone_has LocalTZA (localAt LocalTZA t h (JS.getMinutes LocalTZA t)) ->
  is_date (JS.UTC LocalTZA (localAt LocalTZA t h (JS.getMinutes LocalTZA t))) ->
  is_date (JS.UTC LocalTZA (localAt LocalTZA t h m)) ->
  exists t1,
    JS.setHours LocalTZA t h = Some t1
    /\ JS.setMinutes LocalTZA t1 m
       = Some (JS.UTC LocalTZA (localAt LocalTZA t h m)).
Proof.
  intros Hh Hm Hzone Hd1 Hd2.
  exists (JS.UTC LocalTZA (localAt LocalTZA t h (JS.getMinutes LocalTZA t))).
  split; [apply is_date_TimeClip; exact Hd1|].
  unfold JS.setMinutes. cbv zeta. rewrite Hzone.
  unfold localAt at 1 2 3 4, JS.getMinutes.
  destruct (fields_range (JS.LocalTime LocalTZA t)) as (_ & HM & HS & HMS).
  destruct (MakeDate_fields (localDay LocalTZA t) h
              (JS.MinFromTime (JS.LocalTime LocalTZA t))
              (JS.SecFromTime (JS.LocalTime LocalTZA t))
              (JS.msFromTime (JS.LocalTime LocalTZA t)) Hh HM HS HMS)
    as (E1 & E2 & _ & E4 & E5).
  rewrite E1, E2, E4, E5. apply is_date_TimeClip. exact Hd2.
Qed.

(** What the instant of [h]:[m] on the local day of [t] shows. *)
Lemma localAt_shown (t h m : Z) :
  0 <= h < 24 -> 0 <= m < 60 ->
  zone_has LocalTZA (localAt LocalTZA t h m) ->
  let ts := JS.UTC LocalTZA (localAt LocalTZA t h m) in
  localDay LocalTZA ts = localDay LocalTZA t
  /\ JS.getHours LocalTZA ts = h
  /\ JS.getMinutes LocalTZA ts = m
  /\ JS.SecFromTime (JS.LocalTime LocalTZA ts)
     = JS.SecFromTime (JS.LocalTime LocalTZA t)
  /\ JS.msFromTime (JS.LocalTime LocalTZA ts)
     = JS.msFromTime (JS.LocalTime LocalTZA t).
Proof.
  intros Hh Hm Hzone ts. subst ts.
  unfold localDay at 1, JS.getHours, JS.getMinutes. rewrite Hzone.
  destruct (fields_range (JS.LocalTime LocalTZA t)) as (_ & _ & HS & HMS).
  exact (MakeDate_fields (localDay LocalTZA t) h m _ _ Hh Hm HS HMS).
Qed.

(** Setting a date to the hour and minute it already shows changes
    nothing, when the instant is the one its local time is read as. *)
Lemma set_same_time_of_day (t : Z) :
  is_date t -> read_back LocalTZA t ->
  JS.setHours LocalTZA t (JS.getHours LocalTZA t) = Some t
  /\ JS.setMinutes LocalTZA t (JS.getMinutes LocalTZA t) = Some t.
Proof.
  intros Hrange Hback.
  unfold JS.setHours, JS.setMinutes, JS.getHours, JS.getMinutes.
  cbv zeta. rewrite MakeDate_decompose, Hback.
  split; now apply is_date_TimeClip.
Qed.

Lemma updatedTimestamp_empty (es : Sighting.t) :
  updatedTimestamp LocalTZA es "" = Some (Sighting.timestamp es).
Proof. reflexivity. Qed.

Lemma updatedTimestamp_timeControl (es : Sighting.t) (h m : Z) :
  0 <= h < 24 -> 0 <= m < 60 ->
  updatedTimestamp LocalTZA es (timeControl h m)
  = match JS.setHours LocalTZA (Sighting.timestamp es) h with
    | Some d => JS.setMinutes LocalTZA d m
    | None => None
    end.
Proof.
  intros Hh Hm. destruct (parse_timeControl h m Hh Hm) as [Ht Hp].
  unfold updatedTimestamp. rewrite Ht, Hp. reflexivity.
Qed.

(** The timestamp written when the time control holds [h]:[m]. *)
Lemma updatedTimestamp_set (es : Sighting.t) (h m : Z) :
  0 <= h < 24 -> 0 <= m < 60 ->
  let t := Sighting.timestamp es in
  zone_has LocalTZA (localAt LocalTZA t h (JS.getMinutes LocalTZA t)) ->
  is_date (JS.UTC LocalTZA (localAt LocalTZA t h (JS.getMinutes LocalTZA t))) ->
  is_date (JS.UTC LocalTZA (localAt LocalTZA t h m)) ->
  updatedTimestamp LocalTZA es (timeControl h m)
  = Some (JS.UTC LocalTZA (localAt LocalTZA t h m)).
Proof.
  intros Hh Hm t Hzone Hd1 Hd2.
  rewrite updatedTimestamp_timeControl by assumption.
  destruct (set_time_of_day t h m Hh Hm Hzone Hd1 Hd2) as (t1 & E1 & E2).
  fold t. now rewrite E1, E2.
Qed.

(** A save that follows no use of the time control keeps the timestamp. *)
Lemma updatedTimestamp_untouched (s es : Sighting.t) :
  Sighting.timestamp es = Sighting.timestamp s ->
  is_date (Sighting.timestamp s) ->
  read_back LocalTZA (Sighting.timestamp s) ->
  updatedTimestamp LocalTZA es (editTimeStr (handleStartEdit LocalTZA s))
  = Some (Sighting.timestamp s).
Proof.
  intros Hts Hrange Hback. cbn [handleStartEdit editTimeStr].
  destruct (fields_range (JS.LocalTime LocalTZA (Sighting.timestamp s)))
    as (HH & HM & _).
  change (JS.padStart2 (JS.getHours LocalTZA (Sighting.timestamp s)) ++ ":" ++
          JS.padStart2 (JS.getMinutes LocalTZA (Sighting.timestamp s)))%string
    with (timeControl (JS.getHours LocalTZA (Sighting.timestamp s))
            (JS.getMinutes LocalTZA (Sighting.timestamp s))).
  rewrite updatedTimestamp_timeControl by assumption.
  rewrite Hts.
  destruct (set_same_time_of_day (Sighting.timestamp s) Hrange Hback)
    as [E1 E2].
  now rewrite E1, E2.
Qed.
End ZoneFacts.

(** A zone with a fixed offset has every local time, once, and its dates
    stay dates within a day of the ends of the range. *)
Lemma fixed_zone_has (offset lt : Z) : zone_has (fixed_zone offset) lt.
Proof. unfold zone_has, JS.LocalTime, JS.UTC, fixed_zone. lia. Qed.

Lemma fixed_zone_read_back (offset t : Z) : read_back (fixed_zone offset) t.
Proof. unfold read_back, JS.LocalTime, JS.UTC, fixed_zone. lia. Qed.

Lemma fixed_zone_is_date (offset t h m : Z) :
  0 <= h < 24 -> 0 <= m < 60 ->
  Z.abs t + JS.msPerDay <= 8640000000000000 ->
  is_date (JS.UTC (fixed_zone offset) (localAt (fixed_zone offset) t h m)).
Proof.
  intros Hh Hm Hrange. unfold is_date, localAt, localDay.
  set (lt := JS.LocalTime (fixed_zone offset) t).
  destruct (fields_range lt) as (HH & HM & HS & HMS).
  pose proof (MakeDate_decompose lt) as Hlt.
  assert (Ht : t = lt - offset)
    by (unfold lt, JS.LocalTime, fixed_zone; lia).
  rewrite Ht in Hrange. rewrite <- Hlt in Hrange.
  unfold JS.UTC, fixed_zone, JS.MakeDate, JS.MakeTime, JS.msPerDay,
    JS.msPerHour, JS.msPerMinute in *. lia.
Qed.

(** *** The form *)

Lemma lastTime_from (inputs : list FormInput) (acc : option string) :
  fold_left (fun a i => match i with TimeTyped v => Some v | _ => a end)
    inputs acc
  = match lastTime inputs with Some v => Some v | None => acc end.
Proof.
  unfold lastTime. revert acc.
  induction inputs as [|i inputs IH]; intros acc; [reflexivity|].
  cbn [fold_left]. rewrite IH. rewrite (IH (match i with TimeTyped v => Some v | _ => None end)).
  destruct (fold_left _ inputs None); [reflexivity|].
  destruct i; reflexivity.
Qed.

(** The state of the form after a run of inputs: the record with every
    input merged in, and the last value of the time control. *)
Lemma formInput_run (inputs : list FormInput) (es : Sighting.t) (v : string) :
  fold_left formInput inputs (mkEdit (Some es) v)
  = mkEdit (Some (fold_left patchSighting inputs es))
           (default v (lastTime inputs)).
Proof.
  revert es v. induction inputs as [|i inputs IH]; intros es v; [reflexivity|].
  cbn [fold_left]. unfold formInput at 2. cbn [editingSighting editTimeStr].
  rewrite IH. f_equal.
  unfold lastTime at 2. cbn [fold_left]. rewrite lastTime_from.
  destruct (lastTime inputs); [reflexivity|]. destruct i; reflexivity.
Qed.

(** No control touches the id, the species, the timestamp or the place of
    the record. *)
Lemma patchSighting_keeps (inputs : list FormInput) (es : Sighting.t) :
  let es' := fold_left patchSighting inputs es in
  Sighting.id es' = Sighting.id es
  /\ Sighting.speciesId es' = Sighting.speciesId es
  /\ Sighting.timestamp es' = Sighting.timestamp es
  /\ Sighting.latitude es' = Sighting.latitude es
  /\ Sighting.longitude es' = Sighting.longitude es.
Proof.
  revert es. induction inputs as [|i inputs IH]; intros es; [now repeat split|].
  cbn [fold_left]. destruct (IH (patchSighting es i)) as (E1 & E2 & E3 & E4 & E5).
  cbv zeta. rewrite E1, E2, E3, E4, E5. destruct i; now repeat split.
Qed.

Lemma map_replace_absent (l : list Sighting.t) (idv : string) (r : Sighting.t) :
  (forall x, In x l -> Sighting.id x <> idv) ->
  List.map (fun x => if (Sighting.id x =? idv)%string then r else x) l = l.
Proof.
  induction l as [|x l IH]; intros Hl; [reflexivity|]. cbn [List.map].
  destruct (String.eqb_spec (Sighting.id x) idv) as [E|_].
  - exfalso. apply (Hl x); [now left | exact E].
  - f_equal. apply IH. intros y Hy. apply Hl. now right.
Qed.

Lemma map_replace_unique (l1 l2 : list Sighting.t) (s r : Sighting.t) :
  (forall x, In x (l1 ++ l2) -> Sighting.id x <> Sighting.id s) ->
  List.map (fun x => if (Sighting.id x =? Sighting.id s)%string then r else x)
    (l1 ++ s :: l2)
  = (l1 ++ r :: l2)%list.
Proof.
  intros Hu. rewrite List.map_app. cbn [List.map]. rewrite String.eqb_refl.
  rewrite !map_replace_absent; [reflexivity| |];
    intros x Hx; apply Hu, in_or_app; [now right | now left].
Qed.

(** What a save does to the sightings. *)
Lemma handleSaveEdit_saved (LocalTZA : Z -> bool -> Z) (session : Session.t)
    (st : EditState) (es : Sighting.t) (ts : Z) :
  editingSighting st = Some es ->
  updatedTimestamp LocalTZA es (editTimeStr st) = Some ts ->
  handleSaveEdit LocalTZA session st
  = Some (mkEdit None (editTimeStr st),
          [onUpdateSession (saved LocalTZA session st)])
  /\ saved LocalTZA session st
     = Session.with_sightings session
         (List.map (fun s => if (Sighting.id s =? Sighting.id es)%string
                             then Sighting.with_timestamp es ts else s)
            (Session.sightings session)).
Proof.
  intros Hes Hts. unfold saved, handleSaveEdit. rewrite Hes, Hts.
  split; reflexivity.
Qed.

(** C7 as stated fails in two ways.  A save replaces every sighting that
    carries the edited id: in [twin_session] two records share their id, and
    saving the first one unedited overwrites the second, a record of another
    species, as well.  And the date that is kept is the local one: in Tehran
    the record of 22:13:20.200 UTC on day 19675 of the epoch shows 01:43;
    set to 08:05 it is stored as 04:35:20.200 UTC of day 19676. *)
Lemma C7_counterexample :
  Session.sightings twin_session
  = [ plain_sighting "1700000000500123" "189" 2;
      plain_sighting "1700000000500123" "2221" 1 ]
  /\ Session.sightings
       (saved Tehran twin_session
          (handleStartEdit Tehran (plain_sighting "1700000000500123" "189" 2)))
     = [ plain_sighting "1700000000500123" "189" 2;
         plain_sighting "1700000000500123" "189" 2 ]
  /\ updatedTimestamp Tehran (plain_sighting "1700000000200111" "2221" 1) "08:05"
     = Some 1700022920200
  /\ JS.Day (Sighting.timestamp (plain_sighting "1700000000200111" "2221" 1))
     = 19675
  /\ JS.Day 1700022920200 = 19676.
Proof. repeat split; vm_compute; reflexivity. Qed.

(** C7 (amended).  A save that completes hands [onUpdateSession] the session
    in which every sighting that carries the id of the edited record is
    replaced by one and the same record, which has the fields that the form
    holds and the recomputed timestamp, and in which every other sighting
    stands where it stood; when one sighting carries that id, exactly that
    one is replaced, in place, and when none does the sightings are as they
    were.  The form holds the opened record with the inputs merged in, each
    control writing its own field and no other.  The recomputed timestamp is
    the former one when the time control is empty.  When the control holds
    [h]:[m], it is the instant of [h]:[m] on the local calendar day of the
    former timestamp, seconds and milliseconds kept, provided the zone has
    the local time that stands between [setHours] and [setMinutes] and the
    two instants are dates; when the zone has the local time [h]:[m] of that
    day too, the new timestamp shows that day, [h] and [m].  A save without
    a record being edited does nothing. *)
Theorem C7_edit_replaces_one (LocalTZA : Z -> bool -> Z) (session : Session.t) :
  (forall st es ts,
     editingSighting st = Some es ->
     updatedTimestamp LocalTZA es (editTimeStr st) = Some ts ->
     exists r,
       handleSaveEdit LocalTZA session st
       = Some (mkEdit None (editTimeStr st),
               [onUpdateSession (saved LocalTZA session st)])
       /\ saved LocalTZA session st
          = Session.with_sightings session
              (Session.sightings (saved LocalTZA session st))
       /\ same_but_timestamp r es
       /\ Sighting.timestamp r = ts
       /\ length (Session.sightings (saved LocalTZA session st))
          = length (Session.sightings session)
       /\ (forall i x,
             nth_error (Session.sightings session) i = Some x ->
             nth_error (Session.sightings (saved LocalTZA session st)) i
             = Some (if (Sighting.id x =? Sighting.id es)%string then r else x))
       /\ (forall l1 s l2,
             Session.sightings session = (l1 ++ s :: l2)%list ->
             Sighting.id s = Sighting.id es ->
             (forall x, In x (l1 ++ l2) -> Sighting.id x <> Sighting.id es) ->
             Session.sightings (saved LocalTZA session st)
             = (l1 ++ r :: l2)%list)
       /\ ((forall x, In x (Session.sightings session) ->
                      Sighting.id x <> Sighting.id es) ->
           Session.sightings (saved LocalTZA session st)
           = Session.sightings session))
  /\ (forall es i, patchSighting es i = afterInput es i)
  /\ (forall s inputs,
        fold_left formInput inputs (handleStartEdit LocalTZA s)
        = mkEdit (Some (fold_left patchSighting inputs s))
            (default (timeControl (JS.getHours LocalTZA (Sighting.timestamp s))
                        (JS.getMinutes LocalTZA (Sighting.timestamp s)))
                     (lastTime inputs)))
  /\ (forall es, updatedTimestamp LocalTZA es "" = Some (Sighting.timestamp es))
  /\ (forall es h m,
        0 <= h < 24 -> 0 <= m < 60 ->
        let t := Sighting.timestamp es in
        zone_has LocalTZA (localAt LocalTZA t h (JS.getMinutes LocalTZA t)) ->
        is_date (JS.UTC LocalTZA (localAt LocalTZA t h (JS.getMinutes LocalTZA t))) ->
        is_date (JS.UTC LocalTZA (localAt LocalTZA t h m)) ->
        updatedTimestamp LocalTZA es (timeControl h m)
        = Some (JS.UTC LocalTZA (localAt LocalTZA t h m)))
  /\ (forall t h m,
        0 <= h < 24 -> 0 <= m < 60 ->
        zone_has LocalTZA (localAt LocalTZA t h m) ->
        let ts := JS.UTC LocalTZA (localAt LocalTZA t h m) in
        localDay LocalTZA ts = localDay LocalTZA t
        /\ JS.getHours LocalTZA ts = h
        /\ JS.getMinutes LocalTZA ts = m
        /\ JS.SecFromTime (JS.LocalTime LocalTZA ts)
           = JS.SecFromTime (JS.LocalTime LocalTZA t)
        /\ JS.msFromTime (JS.LocalTime LocalTZA ts)
           = JS.msFromTime (JS.LocalTime LocalTZA t))
  /\ (forall st,
        editingSighting st = None ->
        handleSaveEdit LocalTZA session st = Some (st, [])).
Proof.
  split; [|split; [|split; [|split; [|split; [|split]]]]].
  - intros st es ts Hes Hts.
    destruct (handleSaveEdit_saved LocalTZA session st es ts Hes Hts)
      as [Hsave Hsaved].
    exists (Sighting.with_timestamp es ts).
    split; [exact Hsave|]. rewrite Hsaved.
    cbn [Session.sightings Session.with_sightings].
    split; [reflexivity|].
    split; [unfold same_but_timestamp; cbn; now repeat split|].
    split; [reflexivity|]. split; [apply length_map|]. split.
    { intros i x Hx. rewrite nth_error_map, Hx. reflexivity. }
    split.
    { intros l1 s l2 Hsplit Hid Hunique. rewrite Hsplit, <- Hid.
      apply map_replace_unique. intros x Hx. rewrite Hid. now apply Hunique. }
    intros Habsent. now apply map_replace_absent.
  - intros es i. destruct es, i as [| |[z|]| | | | | | |]; reflexivity.
  - intros s inputs. unfold handleStartEdit. apply formInput_run.
  - apply updatedTimestamp_empty.
  - intros es h m Hh Hm t. now apply updatedTimestamp_set.
  - intros t h m Hh Hm Hzone. now apply localAt_shown.
  - intros st Hnone. unfold handleSaveEdit. now rewrite Hnone.
Qed.

Lemma C7_witness :
  handleSaveEdit Tehran edited_session
    (fold_left formInput [CountPlus; TimeTyped (timeControl 8 5)]
       (handleStartEdit Tehran (plain_sighting "1700000000200111" "2221" 1)))
  = Some (mkEdit None (timeControl 8 5),
          [onUpdateSession
             (Session.with_sightings edited_session
                [ Sighting.mk "1700000000200111" "2221" 1700022920200 2
                    None None None None None None None None None None;
                  plain_sighting "1700000000300222" "189" 2 ])])
  /\ localDay Tehran 1700022920200 = localDay Tehran 1700000000200.
Proof.
  destruct (C7_edit_replaces_one Tehran edited_session)
    as (Hsave & _ & _ & _ & _ & Hshown & _).
  destruct (Hsave
              (fold_left formInput [CountPlus; TimeTyped (timeControl 8 5)]
                 (handleStartEdit Tehran
                    (plain_sighting "1700000000200111" "2221" 1)))
              (plain_sighting "1700000000200111" "2221" 2)
              1700022920200 eq_refl eq_refl)
    as (r & Hhandler & _).
  split; [exact Hhandler|].
  refine (proj1 (Hshown 1700000000200 8 5 _ _ _)); try lia.
  apply fixed_zone_has.
Defined.

(** In Tehran (UTC+3:30) the record of 22:13:20.200 UTC, 14 November 2023,
    shows 01:43 of the 15th; set to 08:05 it is saved as 04:35:20.200 UTC of
    the 15th. *)
Example edit_time_in_Tehran :
  editTimeStr (handleStartEdit Tehran (plain_sighting "1700000000200111" "2221" 1))
  = "01:43"
  /\ updatedTimestamp Tehran (plain_sighting "1700000000200111" "2221" 1) "08:05"
     = Some 1700022920200.
Proof. split; reflexivity. Qed.

(** ** C3: the report *)






















(** The example of the specification. *)
Example report_of_xy_session :
  renderReportUI xy_session xy_catalogue
  = Some (mkReport 10 2 [ReportRow.mk "X" 5 "X"; ReportRow.mk "Y" 5 "Y"]).
Proof. vm_compute. reflexivity. Qed.

(** The tally is a plain object: for a species id such as "constructor" the
    first read finds [Object.prototype.constructor] instead of [undefined],
    and what is stored is no longer a number. *)
Example tally_of_prototype_name :
  speciesCounts (Session.sightings prototype_name_session) = None
  /\ renderReportUI prototype_name_session sample_catalogue = None.
Proof. split; reflexivity. Qed.

(** ** C4: the species grid *)

(** *** [includes] *)

Lemma prefix_spec (s1 s2 : string) :
  String.prefix s1 s2 = true <-> exists post, s2 = (s1 ++ post)%string.
Proof.
  revert s2. induction s1 as [|c s1 IH]; intros s2.
  - split; [intros _; now exists s2 | intros _; now destruct s2].
  - destruct s2 as [|c2 s2]; cbn [String.prefix].
    + split; [discriminate | intros [post H]; discriminate H].
    + destruct (ascii_dec c c2) as [->|Hne].
      * rewrite IH. split; intros [post H]; exists post.
        -- now rewrite H.
        -- now injection H.
      * split; [discriminate | intros [post H]].
        change (String c2 s2 = String c (s1 ++ post)%string) in H. congruence.
Qed.

(** [includes] is the substring test. *)
Lemma includes_spec (hay needle : string) :
  JS.includes hay needle = true
  <-> exists pre post, hay = (pre ++ needle ++ post)%string.
Proof.
  induction hay as [|c hay IH]; cbn [JS.includes].
  - rewrite orb_false_r, prefix_spec. split.
    + intros [post H]. now exists "", post.
    + intros [pre [post H]]. destruct pre; [now exists post|discriminate H].
  - rewrite orb_true_iff, prefix_spec, IH. split.
    + intros [[post H]|[pre [post H]]].
      * now exists "", post.
      * exists (String c pre), post. cbn. now rewrite H.
    + intros [pre [post H]]. destruct pre as [|c' pre].
      * left. now exists post.
      * right. cbn in H. injection H as _ H. now exists pre, post.
Qed.

Lemma includes_empty (hay : string) : JS.includes hay "" = true.
Proof. apply includes_spec. now exists "", hay. Qed.

Lemma empty_includes (needle : string) :
  JS.includes "" needle = true -> needle = "".
Proof.
  intros H. apply includes_spec in H. destruct H as [pre [post H]].
  destruct pre; [|discriminate H]. destruct needle; [reflexivity|discriminate H].
Qed.

(** *** The filter and the comparator *)

Section ListingFacts.
Variable toLowerCase : string -> string.
Variable localeCompare : string -> string -> Z.
Hypothesis toLowerCase_empty : toLowerCase "" = "".
Hypothesis localeCompare_total :
  forall a b, 0 < localeCompare a b -> localeCompare b a <= 0.
Hypothesis localeCompare_trans :
  forall a b c, localeCompare a b <= 0 -> localeCompare b c <= 0 ->
                localeCompare a c <= 0.

(** The test on the family is guarded by the family being non-empty; this
    does not change what is found. *)
Lemma matchesSearch_termFound (term : string) (sp : Species.t) :
  matchesSearch toLowerCase term sp = termFound toLowerCase term sp.
Proof.
  unfold matchesSearch, termFound, containsIgnoringCase.
  destruct (Species.family sp) as [f|]; [|reflexivity].
  destruct (String.eqb_spec f "") as [->|Hne].
  - cbn [JS.truthy_string String.eqb negb andb]. rewrite toLowerCase_empty.
    destruct (JS.includes "" (toLowerCase term)) eqn:E; [|reflexivity].
    apply empty_includes in E. rewrite E, includes_empty. reflexivity.
  - apply truthy_string_nonempty in Hne. now rewrite Hne.
Qed.

Lemma matchesSearch_empty_term (sp : Species.t) :
  matchesSearch toLowerCase "" sp = true.
Proof.
  unfold matchesSearch. now rewrite toLowerCase_empty, includes_empty.
Qed.

Variable session : Session.t.

Lemma compareSpecies_total (a b : Species.t) :
  0 <= getCountForSpecies session (Species.id a) ->
  0 <= getCountForSpecies session (Species.id b) ->
  0 < compareSpecies localeCompare session a b ->
  compareSpecies localeCompare session b a <= 0.
Proof.
  unfold compareSpecies. intros Ha Hb.
  destruct (Z.ltb_spec 0 (getCountForSpecies session (Species.id a)));
  destruct (Z.ltb_spec 0 (getCountForSpecies session (Species.id b)));
  destruct (Z.eqb_spec (getCountForSpecies session (Species.id a)) 0);
  destruct (Z.eqb_spec (getCountForSpecies session (Species.id b)) 0);
  cbn [andb]; try lia; apply localeCompare_total.
Qed.

Lemma compareSpecies_trans (a b c : Species.t) :
  0 <= getCountForSpecies session (Species.id a) ->
  0 <= getCountForSpecies session (Species.id b) ->
  0 <= getCountForSpecies session (Species.id c) ->
  compareSpecies localeCompare session a b <= 0 ->
  compareSpecies localeCompare session b c <= 0 ->
  compareSpecies localeCompare session a c <= 0.
Proof.
  unfold compareSpecies. intros Ha Hb Hc.
  destruct (Z.ltb_spec 0 (getCountForSpecies session (Species.id a)));
  destruct (Z.ltb_spec 0 (getCountForSpecies session (Species.id b)));
  destruct (Z.ltb_spec 0 (getCountForSpecies session (Species.id c)));
  destruct (Z.eqb_spec (getCountForSpecies session (Species.id a)) 0);
  destruct (Z.eqb_spec (getCountForSpecies session (Species.id b)) 0);
  destruct (Z.eqb_spec (getCountForSpecies session (Species.id c)) 0);
  cbn [andb]; try lia; apply localeCompare_trans.
Qed.

(** What the comparator says about two species with non-negative
    totals. *)
Lemma compareSpecies_order (a b : Species.t) :
  0 <= getCountForSpecies session (Species.id a) ->
  0 <= getCountForSpecies session (Species.id b) ->
  compareSpecies localeCompare session a b <= 0 ->
  (getCountForSpecies session (Species.id b) <> 0 ->
   getCountForSpecies session (Species.id a) <> 0)
  /\ ((getCountForSpecies session (Species.id a) = 0
       <-> getCountForSpecies session (Species.id b) = 0) ->
      localeCompare (Species.name a) (Species.name b) <= 0).
Proof.
  unfold compareSpecies. intros Ha Hb.
  destruct (Z.ltb_spec 0 (getCountForSpecies session (Species.id a)));
  destruct (Z.ltb_spec 0 (getCountForSpecies session (Species.id b)));
  destruct (Z.eqb_spec (getCountForSpecies session (Species.id a)) 0);
  destruct (Z.eqb_spec (getCountForSpecies session (Species.id b)) 0);
  cbn [andb]; intros Hcmp; split; intros; try lia.
Qed.
End ListingFacts.

Lemma StronglySorted_split {A : Type} (R : A -> A -> Prop) (l1 l2 l3 : list A)
    (a b : A) :
  StronglySorted R (l1 ++ a :: l2 ++ b :: l3) -> R a b.
Proof.
  induction l1 as [|x l1 IH]; cbn [app]; intros Hs.
  - apply StronglySorted_inv in Hs. destruct Hs as [_ Hall].
    rewrite List.Forall_forall in Hall. apply Hall, in_or_app. right. now left.
  - apply StronglySorted_inv in Hs. now apply IH.
Qed.

(** *** The sample host *)

Lemma ascii_localeCompare_total (a b : string) :
  0 < ascii_localeCompare a b -> ascii_localeCompare b a <= 0.
Proof.
  unfold ascii_localeCompare.
  destruct (String_as_OT.compare_spec a b) as [E|Hlt|Hgt]; try lia.
  intros _. unfold String_as_OT.lt in Hgt. rewrite Hgt. lia.
Qed.

Lemma ascii_localeCompare_le (a b : string) :
  ascii_localeCompare a b <= 0 <-> a = b \/ String_as_OT.lt a b.
Proof.
  unfold ascii_localeCompare.
  destruct (String_as_OT.compare_spec a b) as [E|Hlt|Hgt].
  - split; [now left | lia].
  - split; [now right | lia].
  - split; [lia|]. intros [E|Hlt]; exfalso.
    + subst. exact (StrictOrder_Irreflexive b Hgt).
    + exact (StrictOrder_Irreflexive a (StrictOrder_Transitive _ _ _ Hlt Hgt)).
Qed.

Lemma ascii_localeCompare_trans (a b c : string) :
  ascii_localeCompare a b <= 0 -> ascii_localeCompare b c <= 0 ->
  ascii_localeCompare a c <= 0.
Proof.
  rewrite !ascii_localeCompare_le. intros [->|Hab] [->|Hbc]; auto.
  right. exact (StrictOrder_Transitive _ _ _ Hab Hbc).
Qed.

(** C4 as stated fails for a species whose total is negative: in
    [negative_total_session] the robin has total [-1], which is neither
    "counted" nor "zero" for the comparator, so that the grid is ordered by
    name alone and three species with a zero total stand before the
    robin. *)
Lemma C4_counterexample :
  getCountForSpecies negative_total_session "2224" = -1
  /\ List.map Species.name
       (filteredAndSortedSpecies ascii_toLowerCase ascii_localeCompare
          sample_catalogue "" negative_total_session)
     = ["Barn Swallow"; "Carrion Crow"; "Common Kingfisher"; "European Robin"]
  /\ ~ nonzero_before_zero negative_total_session
         (filteredAndSortedSpecies ascii_toLowerCase ascii_localeCompare
            sample_catalogue "" negative_total_session).
Proof.
  split; [reflexivity|]. split; [vm_compute; reflexivity|].
  intros Hclaim.
  apply (Hclaim []
           (Species.mk "2221" "Barn Swallow" "BARSWA" (Some "Hirundinidae"))
           [ Species.mk "2229" "Carrion Crow" "CARCRO" (Some "Corvidae");
             Species.mk "189" "Common Kingfisher" "COMKIN" (Some "Alcedinidae") ]
           (Species.mk "2224" "European Robin" "EURROB" (Some "Muscicapidae"))
           []).
  - vm_compute. reflexivity.
  - vm_compute. discriminate.
  - vm_compute. reflexivity.
Qed.

(** C4 (amended).  On a host whose [localeCompare] is a total preorder and
    whose [toLowerCase] maps the empty string to itself, and for a session
    in which no species of the catalogue has a negative total, the grid
    holds exactly the catalogue entries whose name, abbreviation or family
    contains the search term, case ignored (every entry when the term is
    empty); every species with a non-zero total stands before every species
    with a zero total; and within each of the two groups the species are in
    the order of [localeCompare] on their names. *)
Theorem C4_sorted_listing (toLowerCase : string -> string)
    (localeCompare : string -> string -> Z)
    (speciesList : list Species.t) (searchTerm : string) (session : Session.t) :
  toLowerCase "" = "" ->
  (forall a b, 0 < localeCompare a b -> localeCompare b a <= 0) ->
  (forall a b c, localeCompare a b <= 0 -> localeCompare b c <= 0 ->
                 localeCompare a c <= 0) ->
  (forall sp, In sp speciesList ->
              0 <= getCountForSpecies session (Species.id sp)) ->
  let shown :=
    filteredAndSortedSpecies toLowerCase localeCompare speciesList searchTerm
      session in
  Permutation shown (List.filter (termFound toLowerCase searchTerm) speciesList)
  /\ (searchTerm = "" -> Permutation shown speciesList)
  /\ nonzero_before_zero session shown
  /\ alphabetical_in_groups localeCompare session shown.
Proof.
  intros Hlow Htotal Htrans Hnonneg shown.
  assert (Hperm : Permutation shown
                    (List.filter (matchesSearch toLowerCase searchTerm) speciesList))
    by apply sort_Permutation.
  assert (Hin : forall sp, In sp shown -> In sp speciesList).
  { intros sp Hsp. apply (Permutation_in _ Hperm) in Hsp.
    apply filter_In in Hsp. tauto. }
  assert (Hsorted : StronglySorted
                      (fun a b => compareSpecies localeCompare session a b <= 0)
                      shown).
  { apply (sort_sorted _
             (fun sp => 0 <= getCountForSpecies session (Species.id sp))).
    - intros a b. now apply compareSpecies_total.
    - intros a b c. now apply compareSpecies_trans.
    - apply List.Forall_forall. intros sp Hsp. apply filter_In in Hsp.
      apply Hnonneg. tauto. }
  assert (Horder : forall l1 a l2 b l3,
             shown = (l1 ++ a :: l2 ++ b :: l3)%list ->
             (getCountForSpecies session (Species.id b) <> 0 ->
              getCountForSpecies session (Species.id a) <> 0)
             /\ ((getCountForSpecies session (Species.id a) = 0
                  <-> getCountForSpecies session (Species.id b) = 0) ->
                 localeCompare (Species.name a) (Species.name b) <= 0)).
  { intros l1 a l2 b l3 Hsplit.
    apply compareSpecies_order.
    - apply Hnonneg, Hin. rewrite Hsplit. apply in_or_app. right. now left.
    - apply Hnonneg, Hin. rewrite Hsplit. apply in_or_app. right. right.
      apply in_or_app. right. now left.
    - rewrite Hsplit in Hsorted. now apply StronglySorted_split in Hsorted. }
  split.
  { rewrite Hperm. erewrite List.filter_ext; [reflexivity|].
    intros sp. now apply matchesSearch_termFound. }
  split.
  { intros ->. rewrite Hperm, filter_all; [reflexivity|].
    intros sp _. now apply matchesSearch_empty_term. }
  split.
  - intros l1 a l2 b l3 Hsplit. now apply (Horder l1 a l2 b l3).
  - intros l1 a l2 b l3 Hsplit. now apply (Horder l1 a l2 b l3).
Qed.

Lemma C4_witness :
  Permutation
    (filteredAndSortedSpecies ascii_toLowerCase ascii_localeCompare
       sample_catalogue "king" robin_session)
    (List.filter (termFound ascii_toLowerCase "king") sample_catalogue)
  /\ nonzero_before_zero robin_session
       (filteredAndSortedSpecies ascii_toLowerCase ascii_localeCompare
          sample_catalogue "" robin_session).
Proof.
  split.
  - refine (proj1 (C4_sorted_listing ascii_toLowerCase ascii_localeCompare
                     sample_catalogue "king" robin_session eq_refl
                     ascii_localeCompare_total ascii_localeCompare_trans _)).
    intros sp [<-|[<-|[<-|[<-|[]]]]]; vm_compute; discriminate.
  - refine (proj1 (proj2 (proj2
              (C4_sorted_listing ascii_toLowerCase ascii_localeCompare
                 sample_catalogue "" robin_session eq_refl
                 ascii_localeCompare_total ascii_localeCompare_trans _)))).
    intros sp [<-|[<-|[<-|[<-|[]]]]]; vm_compute; discriminate.
Defined.

(** The example of the specification: the counted crow comes first. *)
Example robin_and_crow :
  List.map Species.name
    (filteredAndSortedSpecies ascii_toLowerCase ascii_localeCompare
       robin_crow_catalogue "" one_crow_session)
  = ["Crow"; "Robin"].
Proof. vm_compute. reflexivity. Qed.

(** A counted species leads the grid, and the search ignores case. *)
Example grid_of_robin_session :
  List.map Species.name
    (filteredAndSortedSpecies ascii_toLowerCase ascii_localeCompare
       sample_catalogue "" robin_session)
  = ["European Robin"; "Barn Swallow"; "Carrion Crow"; "Common Kingfisher"]
  /\ List.map Species.name
       (filteredAndSortedSpecies ascii_toLowerCase ascii_localeCompare
          sample_catalogue "CORV" robin_session)
     = ["Carrion Crow"].
Proof. split; vm_compute; reflexivity. Qed.

(** * Properties of the rest of the code *)

(** ** The shell on the session collection *)

Lemma find_store_other (s : Session.t) (prev : list Session.t) (i : string) :
  i <> Session.id s ->
  List.find (fun x => (Session.id x =? i)%string) (storeSession s prev)
  = List.find (fun x => (Session.id x =? i)%string) prev.
Proof.
  intros Hi. unfold storeSession.
  induction prev as [|old prev IH]; [reflexivity|]. cbn [List.map List.find].
  destruct (String.eqb_spec (Session.id old) (Session.id s)) as [E|_].
  - destruct (String.eqb_spec (Session.id s) i); [congruence|].
    destruct (String.eqb_spec (Session.id old) i); [congruence|]. exact IH.
  - now rewrite IH.
Qed.

Lemma find_store_same (s : Session.t) (prev : list Session.t) :
  (exists old, In old prev /\ Session.id old = Session.id s) ->
  List.find (fun x => (Session.id x =? Session.id s)%string) (storeSession s prev)
  = Some s.
Proof.
  unfold storeSession. induction prev as [|old prev IH]; intros [x [Hin Hx]].
  - destruct Hin.
  - cbn [List.map List.find].
    destruct (String.eqb_spec (Session.id old) (Session.id s)) as [E|Hne].
    + now rewrite String.eqb_refl.
    + destruct (String.eqb_spec (Session.id old) (Session.id s)); [congruence|].
      apply IH. destruct Hin as [->|Hin]; [congruence|]. now exists x.
Qed.

Lemma storeSession_absent (s : Session.t) (prev : list Session.t) :
  (forall old, In old prev -> Session.id old <> Session.id s) ->
  storeSession s prev = prev.
Proof.
  unfold storeSession. induction prev as [|old prev IH]; intros Habs;
    [reflexivity|]. cbn [List.map].
  destruct (String.eqb_spec (Session.id old) (Session.id s)) as [E|_].
  - exfalso. apply (Habs old); [now left | exact E].
  - f_equal. apply IH. intros x Hx. apply Habs. now right.
Qed.

Lemma find_id (prev : list Session.t) (i : string) (s : Session.t) :
  List.find (fun x => (Session.id x =? i)%string) prev = Some s ->
  In s prev /\ Session.id s = i.
Proof.
  intros H. apply find_some in H. destruct H as [Hin E].
  apply String.eqb_eq in E. now split.
Qed.

(** X1.  Storing a session keeps the size of the collection and what every
    other id looks up; when the collection holds a session with the id of
    the stored one, looking that id up afterwards gives the stored session;
    when it holds none, the store changes nothing and the update is lost. *)
Theorem X1_store_then_lookup (s : Session.t) (prev : list Session.t) :
  length (storeSession s prev) = length prev
  /\ (forall i, i <> Session.id s ->
        activeSession (storeSession s prev) (Some i) = activeSession prev (Some i))
  /\ ((exists old, In old prev /\ Session.id old = Session.id s) ->
      activeSession (storeSession s prev) (Some (Session.id s)) = Some s)
  /\ ((forall old, In old prev -> Session.id old <> Session.id s) ->
      storeSession s prev = prev
      /\ activeSession (storeSession s prev) (Some (Session.id s)) = None).
Proof.
  split; [apply length_map|]. split; [|split].
  - intros i Hi. now apply find_store_other.
  - intros Hex. now apply find_store_same.
  - intros Habs. rewrite storeSession_absent by exact Habs. split; [reflexivity|].
    cbn [activeSession].
    destruct (List.find _ prev) as [x|] eqn:Hf; [|reflexivity].
    apply find_id in Hf. destruct Hf as [Hin E]. now apply Habs in Hin.
Qed.

Lemma X1_witness :
  activeSession
    (storeSession (Session.with_status fresh_session completed) sample_collection)
    (Some "1700000000000")
  = Some (Session.with_status fresh_session completed).
Proof.
  refine (proj1 (proj2 (proj2
            (X1_store_then_lookup (Session.with_status fresh_session completed)
               sample_collection))) _).
  exists fresh_session. split; [now left | reflexivity].
Defined.

(** *** The view and the shell together *)

(** Every update a call of the view emits carries the id of the session the
    view was given. *)
Lemma effectsOf_keep_id (session : Session.t) (c : ViewCall) :
  Forall (fun e => match e with
                   | onUpdateSession s => Session.id s = Session.id session
                   | alert _ => True
                   end) (effectsOf session c).
Proof.
  destruct c as [env data|env sp amount|env i|env| |form|env st|tza st];
    cbn [effectsOf].
  - unfold addSighting. destruct (isCompleted session); repeat constructor.
  - unfold handleSimpleIncrement, addSighting.
    destruct (_ && _); [constructor|].
    destruct (isCompleted session); repeat constructor.
  - unfold handleRecordDelete. destruct (confirm env); repeat constructor.
  - unfold handleToggleFinish. destruct (confirm env); repeat constructor.
  - repeat constructor.
  - repeat constructor.
  - unfold handleMigrationSave, addSighting.
    destruct (selectedSpeciesId st) as [sp|]; [|constructor].
    destruct (JS.truthy_string sp); [|constructor].
    destruct (isCompleted session); repeat constructor.
  - unfold handleSaveEdit. destruct (editingSighting st) as [es|]; [|constructor].
    destruct (updatedTimestamp tza es (editTimeStr st)); repeat constructor.
Qed.

Lemma dispatch_lookup (effects : list Effect) (prev : list Session.t)
    (session : Session.t) :
  Forall (fun e => match e with
                   | onUpdateSession s => Session.id s = Session.id session
                   | alert _ => True
                   end) effects ->
  activeSession prev (Some (Session.id session)) = Some session ->
  activeSession (dispatch effects prev) (Some (Session.id session))
  = Some (after session effects)
  /\ (forall j, j <> Session.id session ->
        activeSession (dispatch effects prev) (Some j) = activeSession prev (Some j))
  /\ length (dispatch effects prev) = length prev.
Proof.
  unfold dispatch, after. intros Hids. revert prev session Hids.
  induction effects as [|e effects IH]; intros prev session Hids Hopen.
  - cbn [fold_left]. now repeat split.
  - apply List.Forall_cons_iff in Hids. destruct Hids as [He Hids].
    cbn [fold_left]. destruct e as [s|msg].
    + assert (Hstored : activeSession (storeSession s prev) (Some (Session.id s))
                        = Some s).
      { cbn [activeSession]. apply find_store_same. rewrite He.
        cbn [activeSession] in Hopen. apply find_id in Hopen.
        exists session. tauto. }
      assert (Hids' : Forall (fun e => match e with
                        | onUpdateSession x => Session.id x = Session.id s
                        | alert _ => True end) effects).
      { eapply List.Forall_impl; [|exact Hids]. intros [x|m]; [|trivial].
        cbn beta iota. congruence. }
      destruct (IH (storeSession s prev) s Hids' Hstored) as (H1 & H2 & H3).
      rewrite <- He. split; [exact H1|]. split.
      * intros j Hj. rewrite H2 by exact Hj. cbn [activeSession].
        now apply find_store_other.
      * rewrite H3. apply length_map.
    + now apply IH.
Qed.

(** X2.  When the view is open on the session that the collection looks up
    under its id, then after any call of the view (recording, increment,
    delete, finish, resume, session details, detailed save, edit save) the
    collection looks up, under the same id, exactly the session the call
    produced; what every other id looks up, and the size of the collection,
    are unchanged. *)
Theorem X2_view_call_reaches_collection (prev : list Session.t)
    (session : Session.t) (c : ViewCall) :
  activeSession prev (Some (Session.id session)) = Some session ->
  let prev' := dispatch (effectsOf session c) prev in
  activeSession prev' (Some (Session.id session))
  = Some (after session (effectsOf session c))
  /\ (forall j, j <> Session.id session ->
        activeSession prev' (Some j) = activeSession prev (Some j))
  /\ length prev' = length prev.
Proof.
  intros Hopen prev'. subst prev'.
  apply dispatch_lookup; [apply effectsOf_keep_id | exact Hopen].
Qed.

Lemma X2_witness :
  activeSession
    (dispatch (effectsOf fresh_session
                 (CallAddSighting env_yes (Partial.simple "2221" 1)))
       sample_collection)
    (Some (Session.id fresh_session))
  = Some (after fresh_session
            (effectsOf fresh_session
               (CallAddSighting env_yes (Partial.simple "2221" 1)))).
Proof.
  exact (proj1 (X2_view_call_reaches_collection sample_collection fresh_session
                  (CallAddSighting env_yes (Partial.simple "2221" 1)) eq_refl)).
Defined.

(** X3.  A confirmed delete removes every session with the id of the
    deleted row: that id then looks up nothing (the view shows "Session Not
    Found"), every other id looks up what it did, and the remaining sessions
    keep their order.  A declined delete changes nothing. *)
Theorem X3_delete_session (session : Session.t) (prev : list Session.t) :
  activeSession (deleteSession true session prev) (Some (Session.id session))
  = None
  /\ (forall j, j <> Session.id session ->
        activeSession (deleteSession true session prev) (Some j)
        = activeSession prev (Some j))
  /\ (forall s, In s (deleteSession true session prev)
                <-> In s prev /\ Session.id s <> Session.id session)
  /\ (exists removed, Permutation prev (removed ++ deleteSession true session prev)
                      /\ Forall (fun s => Session.id s = Session.id session) removed)
  /\ deleteSession false session prev = prev.
Proof.
  unfold deleteSession, activeSession. split; [|split; [|split; [|split]]].
  - destruct (List.find _ _) as [x|] eqn:Hf; [|reflexivity].
    apply find_id in Hf. destruct Hf as [Hin E]. apply filter_In in Hin.
    destruct Hin as [_ Hne]. apply negb_true_iff, String.eqb_neq in Hne.
    congruence.
  - intros j Hj. induction prev as [|x prev IH]; [reflexivity|].
    cbn [List.filter List.find].
    destruct (String.eqb_spec (Session.id x) (Session.id session)) as [E|Hne];
      cbn [negb List.find].
    + destruct (String.eqb_spec (Session.id x) j); [congruence | exact IH].
    + now rewrite IH.
  - intros s. rewrite filter_In, negb_true_iff, String.eqb_neq. reflexivity.
  - exists (List.filter (fun s => (Session.id s =? Session.id session)%string) prev).
    split.
    + symmetry.
      apply (filter_partition_Permutation
               (fun s => (Session.id s =? Session.id session)%string)).
    + apply List.Forall_forall. intros s Hs. apply filter_In in Hs.
      now apply String.eqb_eq.
  - reflexivity.
Qed.

(** *** Synchronisation *)

Lemma map_replace_Forall2 {A : Type} (R : A -> A -> Prop) (p : A -> bool)
    (f : A -> A) (l : list A) :
  (forall x, R x x) -> (forall x, R (f x) x) ->
  Forall2 R (List.map (fun x => if p x then f x else x) l) l.
Proof.
  intros Hrefl Hf. induction l as [|x l IH]; cbn [List.map]; constructor;
    [destruct (p x); auto | exact IH].
Qed.

Lemma same_but_sync_refl (s : Session.t) : same_but_sync s s.
Proof. unfold same_but_sync. tauto. Qed.

Lemma find_map_other_id (f : Session.t -> Session.t) (k j : string)
    (prev : list Session.t) :
  (forall s, Session.id (f s) = Session.id s) ->
  j <> k ->
  List.find (fun x => (Session.id x =? j)%string)
    (List.map (fun s => if (Session.id s =? k)%string then f s else s) prev)
  = List.find (fun x => (Session.id x =? j)%string) prev.
Proof.
  intros Hf Hj. induction prev as [|x prev IH]; [reflexivity|].
  cbn [List.map List.find].
  destruct (String.eqb_spec (Session.id x) k) as [E|_].
  - rewrite Hf. destruct (String.eqb_spec (Session.id x) j); [congruence|].
    exact IH.
  - now rewrite IH.
Qed.

(** X4.  A synchronisation writes only the sync state: whatever its
    outcome, every session of the collection keeps its identity, metadata,
    sightings and status, and sessions with another id are untouched.
    Without a logged-in user nothing changes and the login dialog is asked
    for.  On success every session with the id of the synchronised one is
    marked [synced] and carries the remote id; on failure it is marked
    [error] and keeps the remote id it had. *)
Theorem X4_sync_writes_only_sync_state (user : option UserConfig)
    (outcome : option string) (sessionToSync : Session.t)
    (prev : list Session.t) :
  let result := handleSyncSession user outcome sessionToSync prev in
  Forall2 same_but_sync (fst result) prev
  /\ (forall j, j <> Session.id sessionToSync ->
        activeSession (fst result) (Some j) = activeSession prev (Some j))
  /\ (user = None -> result = (prev, login_requested))
  /\ (user <> None ->
      forall remoteId, outcome = Some remoteId ->
        snd result = sync_success
        /\ (forall s, In s (fst result) ->
              Session.id s = Session.id sessionToSync ->
              Session.syncStatus s = synced
              /\ Session.remoteId s = Some remoteId))
  /\ (user <> None ->
      outcome = None ->
      snd result = sync_error
      /\ List.map Session.remoteId (fst result) = List.map Session.remoteId prev
      /\ (forall s, In s (fst result) ->
            Session.id s = Session.id sessionToSync ->
            Session.syncStatus s = error)).
Proof.
  intros result. subst result. unfold handleSyncSession.
  destruct user as [u|].
  2:{ cbn [fst snd]. split.
      { induction prev; constructor; [apply same_but_sync_refl | assumption]. }
      repeat split; try reflexivity; intros; congruence. }
  destruct outcome as [r|]; cbn [fst snd].
  - split.
    { apply map_replace_Forall2; [apply same_but_sync_refl|].
      intros x. unfold same_but_sync. cbn. tauto. }
    split.
    { intros j Hj. cbn [activeSession]. now apply find_map_other_id. }
    split; [discriminate|]. split.
    + intros _ remoteId [= <-]. split; [reflexivity|].
      intros s Hs Hid. apply in_map_iff in Hs. destruct Hs as [x [<- _]].
      destruct (String.eqb_spec (Session.id x) (Session.id sessionToSync));
        [now split | contradiction].
    + intros _ H. discriminate H.
  - split.
    { apply map_replace_Forall2; [apply same_but_sync_refl|].
      intros x. unfold same_but_sync. cbn. tauto. }
    split.
    { intros j Hj. cbn [activeSession]. now apply find_map_other_id. }
    split; [discriminate|]. split.
    + intros _ remoteId H. discriminate H.
    + intros _ _. split; [reflexivity|]. split.
      * rewrite List.map_map. apply map_ext. intros x.
        now destruct (Session.id x =? Session.id sessionToSync)%string.
      * intros s Hs Hid. apply in_map_iff in Hs. destruct Hs as [x [<- _]].
        destruct (String.eqb_spec (Session.id x) (Session.id sessionToSync));
          [reflexivity | contradiction].
Qed.

Lemma X4_witness :
  snd (handleSyncSession (Some sample_user) (Some "4711") other_session
         sample_collection) = sync_success
  /\ (forall s,
        In s (fst (handleSyncSession (Some sample_user) (Some "4711")
                     other_session sample_collection)) ->
        Session.id s = Session.id other_session ->
        Session.syncStatus s = synced /\ Session.remoteId s = Some "4711").
Proof.
  refine (proj1 (proj2 (proj2 (proj2
            (X4_sync_writes_only_sync_state (Some sample_user) (Some "4711")
               other_session sample_collection)))) _ "4711" eq_refl).
  discriminate.
Defined.

(** *** Metadata *)

Lemma same_but_metadata_refl (s : Session.t) : same_but_metadata s s.
Proof. unfold same_but_metadata. tauto. Qed.

Lemma orEmpty_Some (x : string) : orEmpty (Some x) = x.
Proof.
  unfold orEmpty, JS.truthy_string. destruct (String.eqb_spec x ""); cbn;
    congruence.
Qed.

(** A session whose notes and weather are present comes back unchanged from
    the metadata dialog. *)
Lemma with_metadata_of_own_form (s : Session.t) :
  Session.notes s <> None -> Session.weather s <> None ->
  let form := snd (startEditingSession s) in
  Session_more.with_metadata s (form_name form) (form_observers form)
    (form_date form) (form_startTime form) (form_notes form)
    (mkWeather (form_temp form) (form_cloud form) (form_wind form)
       (form_precip form))
  = s.
Proof.
  destruct s as [i ty n d st e o [nt|] la lo [[t c w p]|] sg stt sy r];
    intros Hn Hw; cbn in Hn, Hw; try congruence.
  unfold startEditingSession, weatherField, Session_more.with_metadata.
  cbn [snd form_name form_observers form_date form_startTime form_notes
       form_temp form_cloud form_wind form_precip Session.id Session.type
       Session.name Session.date Session.startTime Session.endTime
       Session.observers Session.notes Session.latitude Session.longitude
       Session.weather Session.sightings Session.status Session.syncStatus
       Session.remoteId temperature cloudCover windSpeed precipitation].
  now rewrite !orEmpty_Some.
Qed.

(** X5.  Saving the dashboard's metadata dialog rewrites name, observers,
    date, start time, notes and weather of the sessions with the edited id,
    whatever their status, and nothing else: identity, kind, end time,
    place, sightings, status and sync state of every session stay as they
    were, and sessions with another id are untouched.  Opening the dialog
    on a session that is the only one with its id and has notes and weather,
    and saving it unedited, leaves the collection as it was. *)
Theorem X5_metadata_edit (editingSession : option Session.t)
    (editForm : EditForm) (prev : list Session.t) :
  let saved_ := saveEditedSession editingSession editForm prev in
  Forall2 same_but_metadata saved_ prev
  /\ (forall es j, editingSession = Some es -> j <> Session.id es ->
        activeSession saved_ (Some j) = activeSession prev (Some j))
  /\ (forall es s, editingSession = Some es -> In s saved_ ->
        Session.id s = Session.id es ->
        Session.name s = form_name editForm
        /\ Session.observers s = form_observers editForm
        /\ Session.date s = form_date editForm
        /\ Session.startTime s = form_startTime editForm
        /\ Session.notes s = Some (form_notes editForm)
        /\ Session.weather s
           = Some (mkWeather (form_temp editForm) (form_cloud editForm)
                     (form_wind editForm) (form_precip editForm)))
  /\ (editingSession = None -> saved_ = prev)
  /\ (forall s,
        In s prev ->
        (forall x, In x prev -> Session.id x = Session.id s -> x = s) ->
        Session.notes s <> None -> Session.weather s <> None ->
        saveEditedSession (fst (startEditingSession s))
          (snd (startEditingSession s)) prev = prev).
Proof.
  intros saved_. subst saved_. unfold saveEditedSession.
  split; [|split; [|split; [|split]]].
  - destruct editingSession as [es|].
    + apply map_replace_Forall2; [apply same_but_metadata_refl|].
      intros x. unfold same_but_metadata. cbn. tauto.
    + induction prev; constructor; [apply same_but_metadata_refl | assumption].
  - intros es j -> Hj. cbn [activeSession]. now apply find_map_other_id.
  - intros es s -> Hs Hid. apply in_map_iff in Hs. destruct Hs as [x [<- _]].
    destruct (String.eqb_spec (Session.id x) (Session.id es));
      [cbn; tauto | contradiction].
  - now intros ->.
  - intros s Hs Hunique Hn Hw. cbn [startEditingSession fst].
    rewrite <- (List.map_id prev) at 2. apply map_ext_in. intros x Hx.
    destruct (String.eqb_spec (Session.id x) (Session.id s)) as [E|_];
      [|reflexivity].
    rewrite (Hunique x Hx E). now apply with_metadata_of_own_form.
Qed.

Lemma X5_witness :
  saveEditedSession (fst (startEditingSession other_session))
    (snd (startEditingSession other_session)) sample_collection
  = sample_collection.
Proof.
  refine (proj2 (proj2 (proj2 (proj2
            (X5_metadata_edit None (snd (startEditingSession other_session))
               sample_collection)))) other_session _ _ _ _).
  - right. now left.
  - intros x [<-|[<-|[]]]; [discriminate | reflexivity].
  - discriminate.
  - discriminate.
Defined.

(** X6.  Saving the session-details dialog of the view emits one update
    that rewrites name, observers and notes and keeps everything else, so no
    species total changes; the status is not consulted.  Saving the dialog
    as it was opened gives the session back when its notes were present;
    missing notes become the empty string. *)
Theorem X6_save_info (session : Session.t) (infoForm : InfoForm) :
  let saved_ := after session (handleSaveInfo session infoForm) in
  handleSaveInfo session infoForm = [onUpdateSession saved_]
  /\ same_but_metadata saved_ session
  /\ Session.date saved_ = Session.date session
  /\ Session.startTime saved_ = Session.startTime session
  /\ Session.weather saved_ = Session.weather session
  /\ (forall sp, getCountForSpecies saved_ sp = getCountForSpecies session sp)
  /\ Session.name saved_ = info_name infoForm
  /\ Session.observers saved_ = info_observers infoForm
  /\ Session.notes saved_ = Some (info_notes infoForm)
  /\ (Session.notes session <> None ->
      after session (handleSaveInfo session (initialInfoForm session)) = session)
  /\ (Session.notes session = None ->
      Session.notes
        (after session (handleSaveInfo session (initialInfoForm session)))
      = Some "").
Proof.
  intros saved_. subst saved_. cbn.
  unfold same_but_metadata. cbn. repeat split.
  - intros Hn. destruct session as [i ty n d st e o [nt|] la lo w sg stt sy r];
      [|cbn in Hn; congruence].
    unfold handleSaveInfo, initialInfoForm, Session_more.with_info.
    cbn [after fold_left info_name info_observers info_notes Session.id
         Session.type Session.name Session.date Session.startTime
         Session.endTime Session.observers Session.notes Session.latitude
         Session.longitude Session.weather Session.sightings Session.status
         Session.syncStatus Session.remoteId].
    now rewrite orEmpty_Some.
  - intros ->. reflexivity.
Qed.

Lemma X6_witness :
  after other_session (handleSaveInfo other_session (initialInfoForm other_session))
  = other_session.
Proof.
  refine (proj1 (proj2 (proj2 (proj2 (proj2 (proj2 (proj2 (proj2 (proj2 (proj2
            (X6_save_info other_session (initialInfoForm other_session)))))))))))
            _).
  discriminate.
Defined.

(** ** The detailed entry of counting mode *)

Lemma after_addSighting_counts (session : Session.t) env data sp :
  getCountForSpecies (after session (addSighting session env data)) sp
  = if negb (isCompleted session) && (Partial.speciesId data =? sp)%string
    then JS.add (getCountForSpecies session sp) (Partial.count data)
    else getCountForSpecies session sp.
Proof.
  unfold isCompleted. destruct (Session.status session) eqn:Hst.
  - rewrite addSighting_active by exact Hst.
    rewrite getCountForSpecies_append. reflexivity.
  - rewrite addSighting_completed by exact Hst. reflexivity.
Qed.



(** At a total of 2^53 a saved record of one bird leaves the total where
    it was. *)
Example migration_save_at_2_53 :
  let session :=
    Session.with_sightings fresh_session
      [plain_sighting "1700000000200111" "189" 9007199254740992] in
  getCountForSpecies
    (after session
       (handleMigrationSave session env_yes
          (mkCounting (Some "189") INITIAL_DETAIL false))) "189"
  = 9007199254740992.
Proof. vm_compute. reflexivity. Qed.

Lemma detailInput_count_positive (p : Detail.t) (i : DetailInput) :
  1 <= Detail.count p ->
  match i with DetailTyped (Some z) => 0 <= z | _ => True end ->
  1 <= Detail.count (detailInput p i).
Proof.
  intros Hp Hi. destruct i as [| |[z|]| | | | | | | |]; cbn; try lia.
  - assert (0 < JS.add (Detail.count p) 1)
      by (apply (proj2 (double_pos_iff _)); lia).
    lia.
  - destruct (Z.eqb_spec z 0); lia.
Qed.

Lemma countingCall_step (session : Session.t) (st : CountingState)
    (c : CountingCall) :
  Session.type session = counting ->
  typed_nonnegative c ->
  1 <= Detail.count (detailEntry st) ->
  let next := countingCall (session, st) c in
  Session.type (fst next) = counting
  /\ 1 <= Detail.count (detailEntry (snd next))
  /\ (forall k, getCountForSpecies session k <= getCountForSpecies (fst next) k)
  /\ (length (Session.sightings session) <= length (Session.sightings (fst next)))%nat.
Proof.
  intros Hty Hc Hd next. subst next. destruct c as [sp env|i|env|];
    cbn [countingCall].
  - unfold cardClick. rewrite Hty. unfold handleMigrationSelect.
    destruct (isCompleted session); cbn; repeat split; auto; lia.
  - destruct (controlsRendered session st); cbn [fst snd detailEntry];
      repeat split; auto; try lia.
    now apply detailInput_count_positive.
  - destruct (controlsRendered session st); cbn [fst snd];
      [|repeat split; auto; lia].
    unfold handleMigrationSave.
    destruct (selectedSpeciesId st) as [sp|]; [|cbn; repeat split; auto; lia].
    destruct (JS.truthy_string sp); [|cbn; repeat split; auto; lia].
    split; [|split; [exact Hd|split]].
    + unfold addSighting. destruct (isCompleted session); cbn; exact Hty.
    + intros k. rewrite after_addSighting_counts.
      cbn [detailData Partial.speciesId Partial.count].
      destruct (negb (isCompleted session) && (sp =? k)%string); [|lia].
      apply double_above; [apply getCountForSpecies_double | lia].
    + unfold addSighting. destruct (isCompleted session); cbn; [lia|].
      rewrite length_app. cbn. lia.
  - cbn. repeat split; auto; lia.
Qed.

(** X8.  In counting mode, from the state the view mounts with, and as long
    as no negative number is typed into the count control, the count of the
    detailed entry is at least 1 at every moment, so that no run of card
    taps, control uses, saves and closes ever lowers the total of a species
    or shortens the log. *)
Theorem X8_counting_mode_monotone (session : Session.t)
    (calls : list CountingCall) :
  Session.type session = counting ->
  Forall typed_nonnegative calls ->
  let final := fold_left countingCall calls (session, initialCounting) in
  1 <= Detail.count (detailEntry (snd final))
  /\ (forall k, getCountForSpecies session k <= getCountForSpecies (fst final) k)
  /\ (length (Session.sightings session)
      <= length (Session.sightings (fst final)))%nat.
Proof.
  intros Hty Hcalls final. subst final.
  assert (Hd : 1 <= Detail.count (detailEntry initialCounting)) by (cbn; lia).
  revert Hty Hd. generalize initialCounting as st. revert session.
  induction calls as [|c calls IH]; intros session st Hty Hd.
  - cbn. repeat split; auto; lia.
  - apply List.Forall_cons_iff in Hcalls. destruct Hcalls as [Hc Hcalls].
    cbn [fold_left].
    destruct (countingCall_step session st c Hty Hc Hd) as (T & D & M & L).
    destruct (countingCall (session, st) c) as [session' st'].
    cbn [fst snd] in *.
    destruct (IH Hcalls session' st' T D) as (D' & M' & L').
    split; [exact D'|]. split.
    + intros k. specialize (M k). specialize (M' k). lia.
    + lia.
Qed.

Lemma X8_witness :
  1 <= Detail.count
         (detailEntry
            (snd (fold_left countingCall sample_counting_run
                    (counting_session, initialCounting))))
  /\ getCountForSpecies counting_session "189"
     <= getCountForSpecies
          (fst (fold_left countingCall sample_counting_run
                  (counting_session, initialCounting))) "189".
Proof.
  destruct (X8_counting_mode_monotone counting_session sample_counting_run
              eq_refl) as (Hd & Hm & _).
  - repeat constructor.
  - split; [exact Hd | exact (Hm "189")].
Defined.

(** The run of the sample: two kingfishers northwards, then one more. *)
Example counting_run_totals :
  getCountForSpecies
    (fst (fold_left countingCall sample_counting_run
            (counting_session, initialCounting))) "189" = 3
  /\ List.map Sighting.direction
       (Session.sightings
          (fst (fold_left countingCall sample_counting_run
                  (counting_session, initialCounting))))
     = [Some "N"; Some "N"].
Proof. split; reflexivity. Qed.

(** ** More on the handlers of the session view *)




(** At 2^53 the two clicks do not cancel: the [+] is lost in the rounding
    and the [-] is not. *)
Example plus_then_minus_at_2_53 :
  let session :=
    Session.with_sightings fresh_session
      [plain_sighting "1700000000200111" "2221" 9007199254740992] in
  getCountForSpecies session "2221" = 9007199254740992
  /\ getCountForSpecies
       (tripClicks session [(Plus "2221", env_yes); (Minus "2221", env_yes)])
       "2221"
     = 9007199254740991.
Proof. split; vm_compute; reflexivity. Qed.





(** Beyond the bound the totals do not follow the records: the three
    records of [large_first_session] total 2^53, and without the first of
    them the total is 2. *)
Example delete_at_2_53 :
  getCountForSpecies large_first_session "189" = 9007199254740992
  /\ getCountForSpecies
       (after large_first_session
          (handleRecordDelete large_first_session env_yes "1700000000200111"))
       "189"
     = 2.
Proof. split; vm_compute; reflexivity. Qed.

(** *** The report adds up *)







(** Beyond the bound the rows and the total part: with 2^53 birds of one
    species followed by two records of one bird of another, the rows add up
    to 2^53 + 2 and [totalBirds] is 2^53. *)
Example report_at_2_53 :
  renderReportUI
    (Session.with_sightings fresh_session
       [ plain_sighting "1700000000200111" "189" 9007199254740992;
         plain_sighting "1700000000300222" "2221" 1;
         plain_sighting "1700000000400333" "2221" 1 ])
    sample_catalogue
  = Some (mkReport 9007199254740992 2
            [ ReportRow.mk "Common Kingfisher" 9007199254740992 "189";
              ReportRow.mk "Barn Swallow" 2 "2221" ]).
Proof. vm_compute. reflexivity. Qed.

(** *** Opening and saving a record unchanged *)

(** X12.  Opening a record in the edit form and saving it without touching
    a control leaves the session as it was, provided the record is the only
    one with its id, its timestamp is a date, and the instant is the one
    that its local time is read as (it does not lie in the second passage
    of an hour that a clock change of the zone repeats): the time shown by
    the form is then read back to the very same instant. *)
Theorem X12_edit_untouched (LocalTZA : Z -> bool -> Z) (session : Session.t)
    (l1 l2 : list Sighting.t) (s : Sighting.t) :
  Session.sightings session = (l1 ++ s :: l2)%list ->
  (forall x, In x (l1 ++ l2) -> Sighting.id x <> Sighting.id s) ->
  is_date (Sighting.timestamp s) ->
  read_back LocalTZA (Sighting.timestamp s) ->
  handleSaveEdit LocalTZA session (handleStartEdit LocalTZA s)
  = Some (mkEdit None (editTimeStr (handleStartEdit LocalTZA s)),
          [onUpdateSession session]).
Proof.
  intros Hsplit Hunique Hrange Hback. unfold handleSaveEdit.
  cbn [handleStartEdit editingSighting].
  change (editTimeStr {| editingSighting := Some s; editTimeStr := _ |})
    with (editTimeStr (handleStartEdit LocalTZA s)).
  rewrite updatedTimestamp_untouched by (reflexivity || assumption).
  rewrite Hsplit, map_replace_unique by exact Hunique.
  replace (Sighting.with_timestamp s (Sighting.timestamp s)) with s
    by (destruct s; reflexivity).
  rewrite <- Hsplit, with_sightings_same. reflexivity.
Qed.

Lemma X12_witness :
  handleSaveEdit Tehran edited_session
    (handleStartEdit Tehran (plain_sighting "1700000000200111" "2221" 1))
  = Some (mkEdit None "01:43", [onUpdateSession edited_session]).
Proof.
  refine (X12_edit_untouched Tehran edited_session []
            (plain_sighting "1700000000300222" "189" 2 :: nil)
            (plain_sighting "1700000000200111" "2221" 1) eq_refl _ _ _).
  - intros x [<-|[]]. discriminate.
  - vm_compute. discriminate.
  - apply fixed_zone_read_back.
Defined.

(** The proviso on the zone is needed.  In a zone that sets its clocks back
    from UTC+2 to UTC+1 at 01:00 UTC of 29 October 2023, a record stamped
    01:30 UTC shows 02:30, a local time that the zone has twice; saved
    untouched, it is stored as 00:30 UTC, the first of the two instants. *)
Example edit_untouched_in_repeated_hour :
  let zone := summer_zone 1679792400000 1698541200000 in
  let s := Sighting.mk "1698543000000111" "2221" 1698543000000 1
             None None None None None None None None None None in
  editTimeStr (handleStartEdit zone s) = "02:30"
  /\ updatedTimestamp zone s (editTimeStr (handleStartEdit zone s))
     = Some 1698539400000.
Proof. split; vm_compute; reflexivity. Qed.

(** ** The application shell *)

(** *** Starting a session *)

Lemma orDefault_nonempty (text fallback : string) :
  fallback <> "" ->
  (if JS.truthy_string text then text else fallback) <> "".
Proof.
  intros Hf. destruct (JS.truthy_string text) eqn:E; [|exact Hf].
  now apply truthy_string_nonempty.
Qed.

(** X13.  Whenever the set-up form yields a session, the session is put in
    front of the older ones, which stay as they were, and it is the one the
    view shows next, even when an older session carries the same id.  It is
    not completed, every species total is zero, its name and its observers
    are never empty, it is unsynced, and the location history is the one
    [handleStartSession] of the untyped state computes. *)
Theorem X13_start_session (parseFloat : string -> option Q)
    (d : NewSessionData.t) (now : Z) (sh sh' : Shell.t) :
  Shell.handleStartSession parseFloat d now sh = Some sh' ->
  exists created,
    Shell.sessions sh' = created :: Shell.sessions sh
    /\ Shell.view sh' = view_active_session
    /\ activeSession (Shell.sessions sh') (Shell.activeSessionId sh')
       = Some created
    /\ isCompleted created = false
    /\ (forall speciesId, getCountForSpecies created speciesId = 0)
    /\ Session.name created <> ""
    /\ Session.observers created <> ""
    /\ Session.syncStatus created = unsynced
    /\ (forall newSession older,
          locationHistory
            (handleStartSession (NewSessionData.name d) newSession
               (mkApp older (Shell.locationHistory sh)))
          = Shell.locationHistory sh').
Proof.
  unfold Shell.handleStartSession.
  destruct (Shell.newSession parseFloat d now) as [created|] eqn:E;
    [|discriminate].
  intros [= <-]. exists created. unfold Shell.newSession in E.
  destruct (Shell.coordinate parseFloat (NewSessionData.lat d)) as [la|];
    [|discriminate].
  destruct (Shell.coordinate parseFloat (NewSessionData.lng d)) as [lo|];
    [|discriminate].
  injection E as <-.
  cbn [Shell.sessions Shell.view Shell.activeSessionId Shell.locationHistory
       Session.name Session.observers Session.syncStatus].
  repeat split.
  - cbn [activeSession List.find Session.id]. now rewrite String.eqb_refl.
  - apply orDefault_nonempty.
    change ("Session " ++ NewSessionData.date d)%string
      with (String "S" ("ession " ++ NewSessionData.date d)%string).
    discriminate.
  - apply orDefault_nonempty. discriminate.
Qed.

Lemma X13_witness :
  exists created,
    Shell.handleStartSession sample_parseFloat sample_form 1700000000000
      sample_shell
    = Some (Shell.mk (created :: sample_collection)
              ["Anzali Lagoon"; "Miankaleh"] (Some "1700000000000")
              view_active_session)
    /\ activeSession (created :: sample_collection) (Some "1700000000000")
       = Some created
    /\ Session.observers created = "Self".
Proof.
  destruct (X13_start_session sample_parseFloat sample_form 1700000000000
              sample_shell
              (Shell.mk
                 (Session.mk "1700000000000" trip "Anzali Lagoon" "2025-03-01"
                    "07:30" None "Self" (Some "") (Some (71 # 2)%Q)
                    (Some (71 # 2)%Q) (Some (mkWeather "" "" "" "")) [] active
                    unsynced None :: sample_collection)
                 ["Anzali Lagoon"; "Miankaleh"] (Some "1700000000000")
                 view_active_session) eq_refl)
    as (created & Hs & _ & Hshown & _).
  exists created. cbn [Shell.sessions Shell.activeSessionId] in Hs, Hshown.
  injection Hs as <-. split; [reflexivity|]. split; [exact Hshown | reflexivity].
Defined.

(** *** The restore prompt *)

(** X14.  The restore prompt is raised only for the id that was stored, and
    only when a session of the stored collection carries that id and the
    first such session is not completed; "Restore Session" then opens that
    very session.  After the session view is closed, nothing is left to
    restore. *)
Theorem X14_restore_prompt (stored : option string) (i : string) (sh : Shell.t) :
  Shell.pendingRestore (Shell.sessions sh) stored = Some i ->
  stored = Some i
  /\ Shell.view (Shell.restoreSession (Some i) sh) = view_active_session
  /\ (exists s,
        activeSession (Shell.sessions (Shell.restoreSession (Some i) sh))
          (Shell.activeSessionId (Shell.restoreSession (Some i) sh))
        = Some s
        /\ In s (Shell.sessions sh)
        /\ Session.id s = i
        /\ isCompleted s = false)
  /\ Shell.pendingRestore (Shell.sessions sh)
       (Shell.lastActiveId (Shell.closeSession sh)) = None.
Proof.
  unfold Shell.pendingRestore. destruct stored as [j|]; [|discriminate].
  destruct (JS.truthy_string j); [|discriminate].
  destruct (List.find _ (Shell.sessions sh)) as [s|] eqn:F; [|discriminate].
  destruct (Session.status s) eqn:St; [|discriminate].
  intros [= ->]. repeat split.
  exists s. cbn [Shell.restoreSession Shell.sessions Shell.activeSessionId
                 activeSession].
  split; [exact F|]. apply find_id in F. destruct F as [Hin Hid].
  repeat split; try assumption. unfold isCompleted. now rewrite St.
Qed.

Lemma X14_witness :
  exists s,
    activeSession sample_collection (Some "1700000000000") = Some s
    /\ isCompleted s = false.
Proof.
  destruct (X14_restore_prompt (Some "1700000000000") "1700000000000"
              (Shell.mk sample_collection [] None view_dashboard) eq_refl)
    as (_ & _ & (s & Hs & _ & _ & Hc) & _).
  exists s. split; [exact Hs | exact Hc].
Defined.

(** X15.  While a session that is not completed is open under a non-empty
    id, the id left in the store is its id, so that a restart of the
    application raises the restore prompt for it; for a completed session
    no prompt is raised. *)
Theorem X15_reload_while_open (sh : Shell.t) (s : Session.t) :
  activeSession (Shell.sessions sh) (Shell.activeSessionId sh) = Some s ->
  Session.id s <> "" ->
  Shell.pendingRestore (Shell.sessions sh) (Shell.lastActiveId sh)
  = if isCompleted s then None else Some (Session.id s).
Proof.
  unfold activeSession, Shell.lastActiveId, Shell.pendingRestore.
  destruct (Shell.activeSessionId sh) as [i|]; [|discriminate].
  intros F Hne. destruct (find_id _ _ _ F) as [_ Hid]. subst i.
  apply truthy_string_nonempty in Hne. rewrite Hne, F, Hne.
  unfold isCompleted. now destruct (Session.status s).
Qed.

Lemma X15_witness :
  Shell.pendingRestore sample_collection (Some "1700000000000")
  = Some "1700000000000".
Proof.
  refine (X15_reload_while_open
            (Shell.openSession fresh_session sample_shell) fresh_session
            eq_refl _).
  discriminate.
Defined.

(** *** Theme and language *)

(** X16.  The theme switch leaves every other setting alone and lands on
    one of the two themes; from one of them it goes to the other, the class
    [dark] of the document follows, and a second use comes back. *)
Theorem X16_toggle_theme (s : Settings.t) :
  (Settings.theme (toggleTheme s) = "light"
   \/ Settings.theme (toggleTheme s) = "dark")
  /\ changeLanguage (Settings.language s) (toggleTheme s) = toggleTheme s
  /\ Settings.speciesList (toggleTheme s) = Settings.speciesList s
  /\ documentDir (toggleTheme s) = documentDir s
  /\ (Settings.theme s = "light" \/ Settings.theme s = "dark" ->
      darkClass (toggleTheme s) = negb (darkClass s)
      /\ toggleTheme (toggleTheme s) = s).
Proof.
  destruct s as [sp th la ru co fi]. unfold toggleTheme, darkClass.
  cbn [Settings.theme Settings.language Settings.speciesList Settings.rules
       Settings.codes Settings.fields].
  repeat split.
  - destruct (th =? "light")%string; [now right | now left].
  - destruct H as [->| ->]; reflexivity.
  - destruct H as [->| ->]; reflexivity.
Qed.

Lemma X16_witness :
  darkClass (toggleTheme sample_settings) = true
  /\ toggleTheme (toggleTheme sample_settings) = sample_settings.
Proof.
  destruct (X16_toggle_theme sample_settings) as (_ & _ & _ & _ & H).
  destruct (H (or_introl eq_refl)) as [Hd Ht]. split; [exact Hd | exact Ht].
Defined.

(** X17.  Whatever language code is chosen, the document is laid out from
    right to left exactly for Persian and Arabic, and from left to right
    otherwise; the theme is not touched. *)
Theorem X17_document_direction (langCode : string) (s : Settings.t) :
  (documentDir (changeLanguage langCode s) = "rtl"
   <-> langCode = "fa" \/ langCode = "ar")
  /\ (documentDir (changeLanguage langCode s) = "ltr"
      <-> langCode <> "fa" /\ langCode <> "ar")
  /\ darkClass (changeLanguage langCode s) = darkClass s.
Proof.
  unfold documentDir, changeLanguage, darkClass, LANGUAGES.
  cbn [Settings.language Settings.theme JS.get].
  destruct (String.eqb_spec "en" langCode) as [<-|Nen];
    [repeat split; try discriminate; intros [?|?]; discriminate|].
  destruct (String.eqb_spec "fa" langCode) as [<-|Nfa];
    [repeat split; try discriminate; try tauto; intros [? _]; congruence|].
  destruct (String.eqb_spec "fr" langCode) as [<-|Nfr];
    [repeat split; try discriminate; intros [?|?]; discriminate|].
  destruct (String.eqb_spec "de" langCode) as [<-|Nde];
    [repeat split; try discriminate; intros [?|?]; discriminate|].
  destruct (String.eqb_spec "ar" langCode) as [<-|Nar];
    [repeat split; try discriminate; try tauto; intros [_ ?]; congruence|].
  destruct (String.eqb_spec "ru" langCode) as [<-|Nru];
    [repeat split; try discriminate; intros [?|?]; discriminate|].
  repeat split; try discriminate; try congruence; intros [?|?]; congruence.
Qed.

(** *** The interface texts *)

(** Every English text is present and has a Persian counterpart. *)
Lemma TRANSLATIONS_en_covered (key e : string) :
  JS.get key TRANSLATIONS_en = Some e ->
  e <> ""
  /\ exists f, JS.get key TRANSLATIONS_fa = Some f /\ f <> "".
Proof.
  intros H. apply get_In in H. unfold TRANSLATIONS_en in H.
  repeat (destruct H as [H|H];
          [injection H as <- <-; split;
           [discriminate | eexists; split; [reflexivity | discriminate]]|]).
  destruct H.
Qed.

Lemma TRANSLATIONS_fa_keys (key : string) :
  JS.get key TRANSLATIONS_en = None -> JS.get key TRANSLATIONS_fa = None.
Proof.
  rewrite !get_None. now intros H.
Qed.

Lemma orElse_found (text fallback : string) :
  text <> "" -> orElse (Some text) fallback = text.
Proof.
  intros H. apply truthy_string_nonempty in H. unfold orElse. now rewrite H.
Qed.

(** X18.  For a language code and a key that are no names of
    [Object.prototype], [t] returns a text.  A key of the English table is
    shown in Persian when the language is Persian, and in English under
    every other language code; the text is never empty.  A key that the
    English table does not have comes back as it is. *)
Theorem X18_translation (s : Settings.t) (key : string) :
  JS.inherited (Settings.language s) = false ->
  JS.inherited key = false ->
  exists text,
    t s key = Some text
    /\ (forall e, JS.get key TRANSLATIONS_en = Some e ->
          text <> ""
          /\ (Settings.language s <> "fa" -> text = e)
          /\ (Settings.language s = "fa" ->
              JS.get key TRANSLATIONS_fa = Some text))
    /\ (JS.get key TRANSLATIONS_en = None -> text = key).
Proof.
  intros Hl Hk. unfold t. rewrite Hl, Hk. cbn [orb].
  set (lang := match JS.get (Settings.language s) TRANSLATIONS with
               | Some _ => Settings.language s
               | None => "en"
               end).
  assert (Hlang : (Settings.language s = "fa" /\ lang = "fa")
                  \/ (Settings.language s <> "fa"
                      /\ translation lang key = JS.get key TRANSLATIONS_en)).
  { subst lang. unfold TRANSLATIONS. cbn [JS.get].
    destruct (String.eqb_spec "en" (Settings.language s)) as [<-|Nen];
      [right; split; [discriminate | reflexivity]|].
    destruct (String.eqb_spec "fa" (Settings.language s)) as [<-|Nfa];
      [left; now split|].
    right. split; [congruence | reflexivity]. }
  assert (Hen : translation "en" key = JS.get key TRANSLATIONS_en)
    by reflexivity.
  eexists. split; [reflexivity|]. rewrite Hen.
  destruct Hlang as [[Hfa ->]|[Hnfa ->]].
  - change (translation "fa" key) with (JS.get key TRANSLATIONS_fa). split.
    + intros e He.
      destruct (TRANSLATIONS_en_covered _ _ He) as [_ (f & Hf & Hne)].
      rewrite Hf, orElse_found by exact Hne.
      repeat split; [exact Hne | congruence].
    + intros He. now rewrite (TRANSLATIONS_fa_keys _ He), He.
  - split.
    + intros e He. destruct (TRANSLATIONS_en_covered _ _ He) as [Hne _].
      rewrite He, orElse_found by exact Hne.
      repeat split; [exact Hne | congruence].
    + intros ->. reflexivity.
Qed.

Lemma X18_witness :
  exists text,
    t sample_settings "welcome" = Some text
    /\ JS.get "welcome" TRANSLATIONS_fa = Some text
    /\ text <> "".
Proof.
  destruct (X18_translation sample_settings "welcome" eq_refl eq_refl)
    as (text & Ht & Hen & _).
  destruct (Hen "Welcome Back" eq_refl) as (Hne & _ & Hfa).
  exists text. split; [exact Ht|]. split; [exact (Hfa eq_refl) | exact Hne].
Defined.

(** *** The species that ship with the application *)

Lemma insert_front {A : Type} (cmp : A -> A -> Z) (x : A) (l : list A) :
  List.Forall (fun y => cmp x y <= 0) l -> JS.insert cmp x l = x :: l.
Proof.
  destruct l as [|y l]; [reflexivity|]. intros H.
  apply List.Forall_cons_iff in H. destruct H as [Hy _]. cbn [JS.insert].
  destruct (Z.ltb_spec 0 (cmp x y)); [lia | reflexivity].
Qed.

(** Sorting an array that is in order leaves it as it is. *)
Lemma sort_in_order {A : Type} (cmp : A -> A -> Z) (l : list A) :
  StronglySorted (fun a b => cmp a b <= 0) l -> JS.sort cmp l = l.
Proof.
  unfold JS.sort. induction 1 as [|x l Hs IH Hx]; [reflexivity|].
  cbn [fold_right]. rewrite IH. now apply insert_front.
Qed.

Lemma StronglySorted_on {A : Type} (R R' : A -> A -> Prop) (l : list A) :
  (forall a b, In a l -> In b l -> R a b -> R' a b) ->
  StronglySorted R l -> StronglySorted R' l.
Proof.
  intros Himp Hs. induction Hs as [|x l Hs IH Hx]; constructor.
  - apply IH. intros a b Ha Hb. apply Himp; now right.
  - rewrite List.Forall_forall in Hx |- *. intros y Hy.
    apply Himp; [now left | now right | now apply Hx].
Qed.

Section DefaultSpeciesFacts.
Variable RAPTORS : list Species.t.
Variable WATERFOWL : list Species.t.
Variable toLowerCase : string -> string.
Variable localeCompare : string -> string -> Z.
Hypothesis toLowerCase_empty : toLowerCase "" = "".
Hypothesis localeCompare_total :
  forall a b, 0 < localeCompare a b -> localeCompare b a <= 0.
Hypothesis localeCompare_trans :
  forall a b c, localeCompare a b <= 0 -> localeCompare b c <= 0 ->
                localeCompare a c <= 0.

Lemma DEFAULT_SPECIES_in_order :
  StronglySorted
    (fun a b => localeCompare (Species.name a) (Species.name b) <= 0)
    (DEFAULT_SPECIES RAPTORS WATERFOWL localeCompare).
Proof.
  unfold DEFAULT_SPECIES.
  apply (sort_sorted
           (fun a b => localeCompare (Species.name a) (Species.name b))
           (fun _ => True)).
  - intros a b _ _. apply localeCompare_total.
  - intros a b c _ _ _. apply localeCompare_trans.
  - apply List.Forall_forall. intros; exact I.
Qed.

(** X19.  The shipped species list holds the species of the four groups,
    each as often as the groups hold it, and is arranged by name: no
    species stands before one whose name compares lower.  Every
    passerine and every species of [OTHER] is in it. *)
Theorem X19_default_species :
  Permutation (DEFAULT_SPECIES RAPTORS WATERFOWL localeCompare)
    (RAPTORS ++ PASSERINES ++ WATERFOWL ++ OTHER)
  /\ StronglySorted
       (fun a b => localeCompare (Species.name a) (Species.name b) <= 0)
       (DEFAULT_SPECIES RAPTORS WATERFOWL localeCompare)
  /\ (forall sp, In sp PASSERINES \/ In sp OTHER ->
        In sp (DEFAULT_SPECIES RAPTORS WATERFOWL localeCompare)).
Proof.
  split; [apply sort_Permutation|]. split; [apply DEFAULT_SPECIES_in_order|].
  intros sp H. unfold DEFAULT_SPECIES. apply (proj2 (sort_In _ _ sp)).
  rewrite !in_app_iff. tauto.
Qed.

(** X20.  With the shipped species list as catalogue and an empty search
    box, the grid of a session in which no species of the list has a
    total other than zero (a session just started, say) shows the list
    in its own order. *)
Theorem X20_grid_before_first_record (session : Session.t) :
  (forall sp, In sp (DEFAULT_SPECIES RAPTORS WATERFOWL localeCompare) ->
              getCountForSpecies session (Species.id sp) = 0) ->
  filteredAndSortedSpecies toLowerCase localeCompare
    (DEFAULT_SPECIES RAPTORS WATERFOWL localeCompare) "" session
  = DEFAULT_SPECIES RAPTORS WATERFOWL localeCompare.
Proof.
  intros Hzero. unfold filteredAndSortedSpecies.
  rewrite filter_all
    by (intros sp _; now apply matchesSearch_empty_term).
  apply sort_in_order.
  apply (StronglySorted_on
           (fun a b => localeCompare (Species.name a) (Species.name b) <= 0));
    [|exact DEFAULT_SPECIES_in_order].
  intros a b Ha Hb Hle. unfold compareSpecies.
  rewrite (Hzero a Ha), (Hzero b Hb). exact Hle.
Qed.
End DefaultSpeciesFacts.

Lemma X19_witness :
  StronglySorted
    (fun a b => ascii_localeCompare (Species.name a) (Species.name b) <= 0)
    (DEFAULT_SPECIES sample_raptors sample_waterfowl ascii_localeCompare).
Proof.
  exact (proj1 (proj2 (X19_default_species sample_raptors sample_waterfowl
                         ascii_localeCompare ascii_localeCompare_total
                         ascii_localeCompare_trans))).
Defined.

Lemma X20_witness :
  filteredAndSortedSpecies ascii_toLowerCase ascii_localeCompare
    (DEFAULT_SPECIES sample_raptors sample_waterfowl ascii_localeCompare) ""
    fresh_session
  = DEFAULT_SPECIES sample_raptors sample_waterfowl ascii_localeCompare.
Proof.
  apply (X20_grid_before_first_record sample_raptors sample_waterfowl
           ascii_toLowerCase ascii_localeCompare eq_refl
           ascii_localeCompare_total ascii_localeCompare_trans fresh_session).
  intros sp _. reflexivity.
Defined.
